(** * fdtd-pipeline: parameter resolution, artifact gate and resonance analysis

    A shallow embedding of
      - helper_functions/generic/misc.py
      - helper_functions/lumerical/simulate_device.py
      - helper_functions/tidy3d/simulate_device.py
      - helper_functions/tidy3d/data_analysis.py
      - helper_functions/tidy3d/materials.py
      - projects/FDTD_solvers/ring/find_FWHM.py
      - projects/FDTD_solvers/coupler/directional_coupler.py
      - validate_codebase.py

    Conventions.
      - Python floats are modelled by exact rationals [Q]; the properties
        below are about comparisons, ordering and control flow.  Division
        by zero, which numpy answers with inf or nan, is outside the model:
        where the code divides, the theorems assume a non-zero divisor.
      - A Python call that may raise returns a [result]; code that also
        touches the file system, the terminal or the engine runs in the
        state-and-exception monad [M] over [world].
      - A str is modelled by the [string] of its code points, for text
        whose code points lie below 256; what is typed at the prompt is
        such text.
      - Calls into numpy, scipy, gdsfactory, lumapi, tidy3d and the engine
        entry point [fdtd_from_gds] are modelled by what the calling code
        relies on, or taken as a parameter.
      - A JSON file is modelled by the JSON value it holds; the printing
        and parsing of the text is the json module's.
      - Logging, plotting and printing have no effect on what is modelled,
        except the warnings, which are traced, and the calls on a [logger]
        that a parameter has rebound, which raise. *)

From Stdlib Require Import QArith Qabs ZArith List Lia Lqa String Ascii.
From stdpp Require Import gmap strings list sorting.

Set Warnings "-register-all".
Local Open Scope string_scope.

(** ** Python exceptions *)

(** The exception classes that the modelled code raises or catches. *)
Inductive exn : Type :=
| BaseException
| Exception
| KeyboardInterrupt
| EOFError
| OSError
| FileNotFoundError
| FileExistsError
| PermissionError
| ValueError
| JSONDecodeError
| TypeError
| RuntimeError
| RecursionError
| LookupError
| IndexError
| KeyError
| AttributeError.

Global Instance exn_eq_dec : EqDecision exn.
Proof. solve_decision. Defined.

(** The direct base class, as in the Python class hierarchy. *)
Definition exn_base (c : exn) : option exn :=
  match c with
  | BaseException => None
  | Exception => Some BaseException
  | KeyboardInterrupt => Some BaseException
  | EOFError => Some Exception
  | OSError => Some Exception
  | FileNotFoundError => Some OSError
  | FileExistsError => Some OSError
  | PermissionError => Some OSError
  | ValueError => Some Exception
  | JSONDecodeError => Some ValueError
  | TypeError => Some Exception
  | RuntimeError => Some Exception
  | RecursionError => Some RuntimeError
  | LookupError => Some Exception
  | IndexError => Some LookupError
  | KeyError => Some LookupError
  | AttributeError => Some Exception
  end.

Fixpoint issubclass_upto (fuel : nat) (c d : exn) : bool :=
  if decide (c = d) then true
  else match fuel with
       | O => false
       | S fuel' =>
           match exn_base c with
           | Some b => issubclass_upto fuel' b d
           | None => false
           end
       end.

(** [isinstance e cls]: the test an [except cls] clause performs.  The
    hierarchy above is at most four classes deep. *)
Definition isinstance (e cls : exn) : bool := issubclass_upto 4 e cls.

(** The name under which Python code refers to the class. *)
Definition exn_name (c : exn) : string :=
  match c with
  | BaseException => "BaseException"
  | Exception => "Exception"
  | KeyboardInterrupt => "KeyboardInterrupt"
  | EOFError => "EOFError"
  | OSError => "OSError"
  | FileNotFoundError => "FileNotFoundError"
  | FileExistsError => "FileExistsError"
  | PermissionError => "PermissionError"
  | ValueError => "ValueError"
  | JSONDecodeError => "JSONDecodeError"
  | TypeError => "TypeError"
  | RuntimeError => "RuntimeError"
  | RecursionError => "RecursionError"
  | LookupError => "LookupError"
  | IndexError => "IndexError"
  | KeyError => "KeyError"
  | AttributeError => "AttributeError"
  end.

Inductive result (A : Type) : Type :=
| Ok (a : A)
| Raise (e : exn).
Arguments Ok {A} a.
Arguments Raise {A} e.

Definition rbind {A B} (r : result A) (k : A -> result B) : result B :=
  match r with
  | Ok a => k a
  | Raise e => Raise e
  end.

Declare Scope result_scope.
Delimit Scope result_scope with result.
Notation "x <- c ;; k" := (rbind c (fun x => k))
  (at level 100, c at next level, right associativity) : result_scope.

(** A loop that collects [f x] for each [x], stopping at the first
    exception. *)
Definition mapM {A B} (f : A -> result B) : list A -> result (list B) :=
  fix go (l : list A) : result (list B) :=
    match l with
    | [] => Ok []
    | x :: l' => (y <- f x ;; ys <- go l' ;; Ok (y :: ys))%result
    end.

(** Python's short-circuit [a and b] on conditions that may raise. *)
Definition and_then (a b : result bool) : result bool :=
  match a with
  | Ok true => b
  | Ok false => Ok false
  | Raise e => Raise e
  end.
Notation "a 'AND' b" := (and_then a b)
  (at level 41, right associativity) : result_scope.

(** [d[key]] on a dict: KeyError when the key is absent. *)
Definition dict_getitem {A} (d : gmap string A) (key : string) : result A :=
  match d !! key with
  | Some v => Ok v
  | None => Raise KeyError
  end.

(** ** numpy on one-dimensional arrays *)

Module np.

Definition ltb (x y : Q) : bool := negb (Qle_bool y x).

Definition min2 (x y : Q) : Q := if ltb y x then y else x.
Definition max2 (x y : Q) : Q := if ltb x y then y else x.

(** [np.min] and [np.max]: a zero-size array raises ValueError. *)
Definition min (a : list Q) : result Q :=
  match a with
  | [] => Raise ValueError
  | x :: a' => Ok (fold_left min2 a' x)
  end.

Definition max (a : list Q) : result Q :=
  match a with
  | [] => Raise ValueError
  | x :: a' => Ok (fold_left max2 a' x)
  end.

(** [a[i]] for an integer [i]: a negative index counts from the end, an
    index outside [-len, len) raises IndexError. *)
Definition getitem {A} (a : list A) (i : Z) : result A :=
  let n := Z.of_nat (length a) in
  let j := if (i <? 0)%Z then (n + i)%Z else i in
  if ((0 <=? j) && (j <? n))%Z then
    match a !! Z.to_nat j with
    | Some x => Ok x
    | None => Raise IndexError
    end
  else Raise IndexError.

(** [np.flip] *)
Definition flip {A} (a : list A) : list A := reverse a.

(** [np.linspace start stop num] with the default [endpoint=True]:
    [arange(num) * step + start], the last sample set to [stop]. *)
Definition linspace (start stop : Q) (num : nat) : list Q :=
  let step := ((stop - start) / inject_Z (Z.of_nat (num - 1)))%Q in
  let y := map (fun i => (inject_Z (Z.of_nat i) * step + start)%Q)
               (seq 0 num) in
  if (1 <? num)%nat then <[(num - 1)%nat := stop]> y else y.
Arguments linspace : simpl never.

(** [int(np.round(np.average([i0, i1])))]: the mean of two integers,
    rounded half to even. *)
Definition round_average (i0 i1 : nat) : nat :=
  let s := (i0 + i1)%nat in
  let k := (s / 2)%nat in
  if Nat.even s then k else if Nat.even k then k else S k.

End np.

(** ** helper_functions/tidy3d/data_analysis.py *)

Module data_analysis.

(** What the reader uses of a mode monitor stored in a tidy3d result file:
    the frequency coordinate [amps.f] and [amps.sel(direction="+")], one
    row per frequency and one complex amplitude [(re, im)] per mode. *)
Record mode_data : Type := {
  f : list Q;
  amps_plus : list (list (Q * Q))
}.

(** [td.C_0], the speed of light in micrometres per second. *)
Definition C_0 : Q := 299792458000000.

(** [np.abs(z)**2] *)
Definition abs2 (z : Q * Q) : Q := (fst z * fst z + snd z * snd z)%Q.

Section Reader.

(** [td.SimulationData.from_file(fname)]: the monitors by name, or the
    exception the library raises (FileNotFoundError for a missing file). *)
Variable SimulationData_from_file : string -> result (gmap string mode_data).

(** The body of the [try] block. *)
Definition read_body (fname monitor : string)
  : result (list Q * list (list Q)) :=
  (sim_data <- SimulationData_from_file fname ;;
   mode_data <- match sim_data !! monitor with
                | Some d => Ok d
                | None => Raise KeyError
                end ;;
   let coeffs := map (map abs2) (amps_plus mode_data) in
   let lambdas := map (fun fr => (C_0 / fr)%Q) (f mode_data) in
   Ok (lambdas, coeffs))%result.

Definition read_mode_monitor_from_file (fname monitor : option string)
  : result (list Q * list (list Q)) :=
  match fname with
  | None => Raise ValueError
  | Some fname =>
      match monitor with
      | None => Raise ValueError
      | Some monitor =>
          match read_body fname monitor with
          | Ok r => Ok r
          | Raise e =>
              if isinstance e FileNotFoundError then Raise e
              else if isinstance e KeyError then Raise e
              else if isinstance e Exception then Raise ValueError
              else Raise e
          end
      end
  end.

End Reader.

End data_analysis.


(** ** projects/FDTD_solvers/ring/find_FWHM.py *)

Module find_FWHM_py.

Section Analyzer.

(** [scipy.interpolate.CubicSpline(x, y)]: the interpolant as a callable,
    or the ValueError scipy raises on knots it rejects. *)
Variable CubicSpline : list Q -> list Q -> result (Q -> Q).

Section Scans.

Variable wav_interp : list Q.
Variable T_interp : Q -> Q.
Variable half_level : Q.
Variable wav_min wav_max : Q.

(** The condition of the first loop at index [ii] (source line 62). *)
Definition first_cond (ii : nat) : result bool :=
  ((x <- np.getitem wav_interp (Z.of_nat ii) ;;
    Ok (np.ltb (T_interp x) half_level))
   AND (x <- np.getitem wav_interp (Z.of_nat ii - 1) ;;
        Ok (np.ltb half_level (T_interp x)))
   AND (x <- np.getitem wav_interp (Z.of_nat ii) ;;
        Ok (np.ltb (wav_min + 0.001) x))
   AND (x <- np.getitem wav_interp (Z.of_nat ii) ;;
        Ok (np.ltb x (wav_max - 0.005))))%result.

(** The condition of the second loop at index [ii] (source line 68). *)
Definition second_cond (ii : nat) : result bool :=
  ((x <- np.getitem wav_interp (Z.of_nat ii) ;;
    Ok (np.ltb (T_interp x) half_level))
   AND (x <- np.getitem wav_interp (Z.of_nat ii + 1) ;;
        Ok (np.ltb half_level (T_interp x)))
   AND (x <- np.getitem wav_interp (Z.of_nat ii) ;;
        Ok (np.ltb (wav_min + 0.005) x))
   AND (x <- np.getitem wav_interp (Z.of_nat ii) ;;
        Ok (np.ltb x (wav_max - 0.005))))%result.

(** [for ii in range(...): if cond(ii): record ii; break]: the index at
    which the loop breaks, [None] when it runs to the end. *)
Fixpoint scan (cond : nat -> result bool) (iis : list nat)
  : result (option nat) :=
  match iis with
  | [] => Ok None
  | ii :: rest =>
      (c <- cond ii ;;
       if c : bool then Ok (Some ii) else scan cond rest)%result
  end.

Definition first_scan : result (option nat) :=
  scan first_cond (seq 0 (length wav_interp)).

Definition second_scan : result (option nat) :=
  scan second_cond (seq 0 (length wav_interp)).

End Scans.

(** [half_level_indices[k] = ii] when the loop broke at [ii]. *)
Definition record_index (k : nat) (found : option nat)
    (half_level_indices : list nat) : list nat :=
  match found with
  | Some ii => <[k := ii]> half_level_indices
  | None => half_level_indices
  end.

(** Source lines 52-54: the level halfway between the smallest resampled
    value and 1. *)
Definition half_level_of (samples : list Q) : result Q :=
  (mini <- np.min samples ;;
   Ok (0.5 + 0.5 * mini)%Q)%result.

(** Source lines 45-71 of [find_FWHM(wav, T)]: the resampled grid and the
    index at which each of the two loops broke, if it did.  The plotting
    calls have no effect on the result and are left out. *)
Definition crossings (wav T : list Q)
  : result (list Q * option nat * option nat) :=
  (wav_min <- np.min wav ;;
   wav_max <- np.max wav ;;
   let wav_interp := np.linspace wav_min wav_max 1000 in
   T_interp <- CubicSpline wav T ;;
   half_level <- half_level_of (map T_interp wav_interp) ;;
   found0 <- first_scan wav_interp T_interp half_level wav_min wav_max ;;
   found1 <- second_scan wav_interp T_interp half_level wav_min wav_max ;;
   Ok (wav_interp, found0, found1))%result.

(** [find_FWHM(wav, T)]: [half_level_indices] starts as [[0, 0]] and an
    entry is overwritten only by the loop that broke (source lines 59-71),
    then source lines 73-91. *)
Definition find_FWHM (wav T : list Q) : result (Q * Q) :=
  (found <- crossings wav T ;;
   let '(wav_interp, found0, found1) := found in
   let half_level_indices := [0%nat; 0%nat] in
   let half_level_indices := record_index 0 found0 half_level_indices in
   let half_level_indices := record_index 1 found1 half_level_indices in
   i1 <- np.getitem half_level_indices 1 ;;
   w1 <- np.getitem wav_interp (Z.of_nat i1) ;;
   i0 <- np.getitem half_level_indices 0 ;;
   w0 <- np.getitem wav_interp (Z.of_nat i0) ;;
   let FWHM := (w1 - w0)%Q in
   let peak_idx := np.round_average i0 i1 in
   peak_wav <- np.getitem wav_interp (Z.of_nat peak_idx) ;;
   Ok (FWHM, peak_wav))%result.

End Analyzer.

(** *** The two result readers *)

(** [a[:, 0]] on a two-dimensional array given by its rows. *)
Fixpoint column0 {A} (a : list (list A)) : result (list A) :=
  match a with
  | [] => Ok []
  | row :: rows =>
      (x <- np.getitem row 0 ;;
       xs <- column0 rows ;;
       Ok (x :: xs))%result
  end.

Section Readers.

(** [lumapi]: [project.load(fname)] followed by
    [project.getresult(name, dataset)], yielding the dataset's named
    two-dimensional arrays. *)
Variable lumapi_getresult :
  string -> string -> string -> result (gmap string (list (list Q))).

(** [td.SimulationData.from_file], see [data_analysis]. *)
Variable SimulationData_from_file :
  string -> result (gmap string data_analysis.mode_data).

Definition read_lumerical_output (fname : string)
  : result (list Q * list Q) :=
  (temp <- lumapi_getresult fname "FDTD::ports::o2"
             "expansion for port monitor" ;;
   T_net <- dict_getitem temp "T_net" ;;
   lam <- dict_getitem temp "lambda" ;;
   wav <- column0 lam ;;
   let wav := map (fun x => (x * 1000000)%Q) wav in
   let wav := np.flip wav in
   T_TE0 <- column0 T_net ;;
   m <- np.max T_TE0 ;;
   let T_TE0 := map (fun x => (x / m)%Q) T_TE0 in
   let T_TE0 := np.flip T_TE0 in
   Ok (wav, T_TE0))%result.

Definition read_tidy3d_output (fname : string)
  : result (list Q * list Q) :=
  (r <- data_analysis.read_mode_monitor_from_file
          SimulationData_from_file (Some fname) (Some "o2 mode") ;;
   let '(wav, T) := r in
   let wav := np.flip wav in
   T <- column0 T ;;
   m <- np.max T ;;
   let T := map (fun x => (x / m)%Q) T in
   let T := np.flip T in
   Ok (wav, T))%result.

End Readers.

End find_FWHM_py.

(** ** Python values, JSON documents and the process environment *)

(** The values a parameter dictionary holds.  An [ndarray] is carried by
    what its [tolist()] returns; [PObject] stands for an object of a type
    the json module cannot serialise, which can neither be called nor has
    any attribute the modelled code reads (a gdsfactory component, say). *)
Inductive pyval : Type :=
| PNone
| PBool (b : bool)
| PInt (z : Z)
| PFloat (x : Q)
| PComplex (re im : Q)
| PStr (s : string)
| PList (items : list pyval)
| PTuple (items : list pyval)
| PDict (members : list (string * pyval))
| PNdarray (tolist : pyval)
| PObject (repr : string).

Inductive json : Type :=
| JNull
| JBool (b : bool)
| JInt (z : Z)
| JFloat (x : Q)
| JStr (s : string)
| JArr (items : list json)
| JObj (members : list (string * json)).

(** [bool(v)], as [not v] evaluates it. *)
Fixpoint truthy (v : pyval) : result bool :=
  match v with
  | PNone => Ok false
  | PBool b => Ok b
  | PInt z => Ok (negb (z =? 0)%Z)
  | PFloat x => Ok (negb (Qeq_bool x 0))
  | PComplex re im => Ok (negb (Qeq_bool re 0 && Qeq_bool im 0))
  | PStr s => Ok (negb (String.eqb s ""))
  | PList items | PTuple items =>
      Ok (match items with [] => false | _ => true end)
  | PDict members => Ok (match members with [] => false | _ => true end)
  | PNdarray (PList []) => Ok false
  | PNdarray (PList [x]) => truthy x
  | PNdarray (PList _) => Raise ValueError
  | PNdarray t => truthy t
  | PObject _ => Ok true
  end.

(** [v + suffix] for a str [suffix]: a TypeError unless [v] is a str. *)
Definition add_str (v : pyval) (suffix : string) : result string :=
  match v with
  | PStr s => Ok (s ++ suffix)
  | _ => Raise TypeError
  end.

(** A value passed where a path is expected: a TypeError unless a str. *)
Definition as_str (v : pyval) : result string :=
  match v with
  | PStr s => Ok s
  | _ => Raise TypeError
  end.

(** What a file holds, as far as the modelled code can tell. *)
Inductive fcontent : Type :=
| Text (raw : string)                     (* not a JSON document *)
| JsonDoc (members : gmap string json)    (* a JSON object *)
| Gds (layout : string)                   (* a GDS layout *)
| Truncated.                              (* left behind by a failed write *)

Record file : Type := {
  content : fcontent;
  readable : bool
}.

Inductive input_event : Type :=
| Line (s : string)     (* a line typed at the prompt *)
| Interrupt             (* Ctrl-C while the prompt waits *)
| EndOfInput.           (* standard input closed *)

Inductive event : Type :=
| Warned (msg : string)
| Prompted
| EngineCalled (p : gmap string pyval).

(** The environment of one call: regular files and directories by path,
    what will be typed at the prompt, and a trace of the warnings, prompts
    and engine invocations made so far (latest first). *)
Record world : Type := {
  files : gmap string file;
  dirs : gset string;
  stdin : list input_event;
  events : list event
}.

Definition set_files (g : gmap string file -> gmap string file) (w : world)
  : world :=
  {| files := g (files w); dirs := dirs w;
     stdin := stdin w; events := events w |}.

Definition set_dirs (g : gset string -> gset string) (w : world) : world :=
  {| files := files w; dirs := g (dirs w);
     stdin := stdin w; events := events w |}.

Definition set_stdin (l : list input_event) (w : world) : world :=
  {| files := files w; dirs := dirs w; stdin := l; events := events w |}.

Definition add_event (e : event) (w : world) : world :=
  {| files := files w; dirs := dirs w;
     stdin := stdin w; events := e :: events w |}.

(** Computations that read and change the environment and may raise; what
    was done before an exception stays done. *)
Definition M (A : Type) : Type := world -> result A * world.

Definition mret {A} (a : A) : M A := fun w => (Ok a, w).

Definition mraise {A} (e : exn) : M A := fun w => (Raise e, w).

Definition mbind {A B} (c : M A) (k : A -> M B) : M B :=
  fun w => match c w with
           | (Ok a, w') => k a w'
           | (Raise e, w') => (Raise e, w')
           end.

Definition lift {A} (r : result A) : M A := fun w => (r, w).

Definition modify (g : world -> world) : M unit := fun w => (Ok tt, g w).

Definition gets {A} (g : world -> A) : M A := fun w => (Ok (g w), w).

(** How a run ended: [None] when it returned, else the exception. *)
Definition outcome {A} (o : result A * world) : option exn :=
  match fst o with
  | Ok _ => None
  | Raise e => Some e
  end.

(** What a run returned, [d] when it raised. *)
Definition returned {A} (d : A) (o : result A * world) : A :=
  match fst o with
  | Ok a => a
  | Raise _ => d
  end.

(** [try: body / except cls: handler] for each [(cls, handler)] in order;
    an exception no clause matches propagates. *)
Fixpoint handle {A} (e : exn) (clauses : list (exn * (exn -> M A))) : M A :=
  match clauses with
  | [] => mraise e
  | (cls, h) :: rest => if isinstance e cls then h e else handle e rest
  end.

Definition try_except {A} (body : M A) (clauses : list (exn * (exn -> M A)))
  : M A :=
  fun w => match body w with
           | (Ok a, w') => (Ok a, w')
           | (Raise e, w') => handle e clauses w'
           end.

Declare Scope M_scope.
Delimit Scope M_scope with M.
Bind Scope M_scope with M.
Notation "x <- c ;; k" := (mbind c (fun x => k))
  (at level 100, c at next level, right associativity) : M_scope.
Notation "c ;;; k" := (mbind c (fun _ => k))
  (at level 100, right associativity) : M_scope.

(** ** os and os.path (POSIX flavour) *)

Module os.

Definition sep : ascii := "/"%char.

(** [(p[:i], p[i:])] for [i = p.rfind('/') + 1]. *)
Fixpoint cut_after_last_sep (p : string) : string * string :=
  match p with
  | EmptyString => ("", "")
  | String c p' =>
      let '(h, t) := cut_after_last_sep p' in
      if negb (String.eqb h "") then (String c h, t)
      else if Ascii.eqb c sep then (String c "", t)
      else ("", String c t)
  end.

Fixpoint all_sep (s : string) : bool :=
  match s with
  | EmptyString => true
  | String c s' => Ascii.eqb c sep && all_sep s'
  end.

(** [s.rstrip('/')] *)
Fixpoint rstrip_sep (s : string) : string :=
  match s with
  | EmptyString => ""
  | String c s' =>
      let r := rstrip_sep s' in
      if String.eqb r "" && Ascii.eqb c sep then "" else String c r
  end.

(** [os.path.split(p)] *)
Definition split (p : string) : string * string :=
  let '(head, tail) := cut_after_last_sep p in
  let head := if negb (String.eqb head "") && negb (all_sep head)
              then rstrip_sep head else head in
  (head, tail).

(** [os.path.dirname(p)] *)
Definition dirname (p : string) : string := fst (split p).

(** The empty path names nothing. *)
Definition isdir (path : string) (w : world) : bool :=
  negb (String.eqb path "") && bool_decide (path ∈ dirs w).

Definition isfile (path : string) (w : world) : bool :=
  negb (String.eqb path "") && bool_decide (is_Some (files w !! path)).

Definition exists_ (path : string) (w : world) : bool :=
  isfile path w || isdir path w.

(** [os.path.exists(path)] *)
Definition path_exists (path : string) : M bool := gets (exists_ path).

Definition can_read (path : string) (w : world) : bool :=
  match files w !! path with
  | Some fl => readable fl
  | None => isdir path w
  end.

(** [os.access(path, os.R_OK)] *)
Definition access_R_OK (path : string) : M bool := gets (can_read path).

(** [os.mkdir(path)]: the empty path and a path whose parent is not an
    existing directory give FileNotFoundError, an existing path
    FileExistsError; a bare name lies in the current directory. *)
Definition mkdir (path : string) : M unit :=
  fun w =>
    if String.eqb path "" then (Raise FileNotFoundError, w)
    else if exists_ path w then (Raise FileExistsError, w)
    else if negb (String.eqb (dirname path) "")
            && negb (isdir (dirname path) w)
    then (Raise FileNotFoundError, w)
    else (Ok tt, set_dirs (fun d => {[path]} ∪ d) w).

(** [os.makedirs(name, exist_ok=True)], following the library source:
    create the missing ancestors first (forgiving FileExistsError), stop
    there when the last component is [.], then [mkdir(name)], forgiving an
    OSError only when [name] is a directory by then.  Each recursive call
    is on a strictly shorter path, so [length name] unfoldings suffice. *)
Fixpoint makedirs_rec (depth : nat) (name : string) : M unit :=
  let '(head, tail) := split name in
  let '(head, tail) := if String.eqb tail "" then split head
                       else (head, tail) in
  (head_missing <-
     gets (fun w => negb (String.eqb head "") && negb (String.eqb tail "")
                    && negb (exists_ head w)) ;;
   go_on <-
     (if head_missing : bool then
        match depth with
        | O => mraise RecursionError
        | S depth' =>
            try_except (makedirs_rec depth' head)
              [(FileExistsError, fun _ => mret tt)]
        end ;;;
        mret (negb (String.eqb tail "."))
      else mret true) ;;
   if go_on : bool then
     try_except (mkdir name)
       [(OSError, fun e => d <- gets (isdir name) ;;
                           if d : bool then mret tt else mraise e)]
   else mret tt)%M.

Definition makedirs (name : string) : M unit :=
  makedirs_rec (String.length name) name.

(** The last step of [makedirs], by itself: [mkdir(name)], forgiving an
    OSError when [name] is a directory by then. *)
Definition mkdir_exist_ok (name : string) : M unit :=
  try_except (mkdir name)
    [(OSError, fun e => d <- gets (isdir name) ;;
                        if d : bool then mret tt else mraise e)]%M.

(** The last component of [name] as [os.makedirs] sees it: the tail of
    [split name], or of the split of its head when [name] ends in a
    separator. *)
Definition last_component (name : string) : string :=
  let '(head, tail) := split name in
  if String.eqb tail "" then snd (split head) else tail.

(** [path.endswith('/')] *)
Fixpoint endswith_sep (path : string) : bool :=
  match path with
  | EmptyString => false
  | String c EmptyString => Ascii.eqb c sep
  | String _ rest => endswith_sep rest
  end.

(** One round of the loop of [os.path.join]. *)
Definition join2 (path b : string) : string :=
  if String.prefix "/" b then b
  else if String.eqb path "" || endswith_sep path then path ++ b
  else path ++ "/" ++ b.

(** [os.path.join(a, *p)] *)
Definition join (a : string) (p : list string) : string :=
  fold_left join2 p a.

End os.

(** ** str methods used on the typed answer *)

Module str.

(** The characters [str.isspace] accepts among the code points below 256:
    tab to carriage return, the four separators U+001C to U+001F, the
    space, next line (U+0085) and the no-break space (U+00A0). *)
Definition is_space (c : ascii) : bool :=
  let n := nat_of_ascii c in
  ((9 <=? n) && (n <=? 13) || (28 <=? n) && (n <=? 32)
   || (n =? 133) || (n =? 160))%nat.

Fixpoint lstrip (s : string) : string :=
  match s with
  | String c s' => if is_space c then lstrip s' else s
  | EmptyString => ""
  end.

Fixpoint rstrip (s : string) : string :=
  match s with
  | EmptyString => ""
  | String c s' =>
      let r := rstrip s' in
      if String.eqb r "" && is_space c then "" else String c r
  end.

(** [s.strip()] *)
Definition strip (s : string) : string := rstrip (lstrip s).

(** The lower-case form of a code point below 256: the letters A to Z and
    the accented capitals U+00C0 to U+00DE (the multiplication sign U+00D7
    apart) lie 32 below theirs. *)
Definition lower_char (c : ascii) : ascii :=
  let n := nat_of_ascii c in
  if ((65 <=? n) && (n <=? 90) || (192 <=? n) && (n <=? 214)
      || (216 <=? n) && (n <=? 222))%nat
  then ascii_of_nat (n + 32) else c.

(** [s.lower()] *)
Fixpoint lower (s : string) : string :=
  match s with
  | EmptyString => ""
  | String c s' => String (lower_char c) (lower s')
  end.

End str.

(** ** helper_functions/generic/misc.py *)

Module misc.

(** [convert_for_json(obj)]: dicts and lists are rebuilt with converted
    items, an ndarray becomes its [tolist()], a complex number the dict of
    its parts; anything else (a tuple too) is returned as it is. *)
Fixpoint convert_for_json (obj : pyval) : pyval :=
  match obj with
  | PDict members =>
      PDict (map (fun kv => (fst kv, convert_for_json (snd kv))) members)
  | PList items => PList (map convert_for_json items)
  | PNdarray tolist => tolist
  | PComplex re im => PDict [("real", PFloat re); ("imag", PFloat im)]
  | _ => obj
  end.

(** [ComplexEncoder.default(obj)], called by the encoder on an object it
    cannot serialise by itself. *)
Definition ComplexEncoder_default (obj : pyval) : result pyval :=
  match obj with
  | PComplex re im => Ok (PDict [("real", PFloat re); ("imag", PFloat im)])
  | PNdarray tolist => Ok tolist
  | _ => Raise TypeError
  end.

(** [json.dumps(obj, cls=ComplexEncoder)] up to layout: the JSON value
    written.  The base encoder handles None, bool, int, float, str, list,
    tuple and dict; for any other object it encodes what
    [ComplexEncoder.default] returns, which the cases for complex numbers
    and arrays spell out. *)
Fixpoint json_encode (obj : pyval) : result json :=
  match obj with
  | PNone => Ok JNull
  | PBool b => Ok (JBool b)
  | PInt z => Ok (JInt z)
  | PFloat x => Ok (JFloat x)
  | PStr s => Ok (JStr s)
  | PList items | PTuple items =>
      (js <- mapM json_encode items ;; Ok (JArr js))%result
  | PDict members =>
      (js <- mapM (fun kv => (j <- json_encode (snd kv) ;;
                              Ok (fst kv, j))%result) members ;;
       Ok (JObj js))%result
  | PComplex re im => Ok (JObj [("real", JFloat re); ("imag", JFloat im)])
  | PNdarray tolist => json_encode tolist
  | PObject _ => Raise TypeError
  end.

(** [json.loads]: the Python value of a JSON value. *)
Fixpoint json_decode (j : json) : pyval :=
  match j with
  | JNull => PNone
  | JBool b => PBool b
  | JInt z => PInt z
  | JFloat x => PFloat x
  | JStr s => PStr s
  | JArr items => PList (map json_decode items)
  | JObj members =>
      PDict (map (fun kv => (fst kv, json_decode (snd kv))) members)
  end.

(** The members of the top-level dict, encoded one by one. *)
Definition json_encode_dict (d : gmap string pyval)
  : result (gmap string json) :=
  map_fold (fun k v acc =>
              (m <- acc ;; j <- json_encode v ;; Ok (<[k := j]> m))%result)
           (Ok ∅) d.

(** [open(path, 'w')]: creates or empties the file; the directory it lies
    in must exist. *)
Definition open_w (path : string) : M unit :=
  fun w =>
    if os.isdir path w then (Raise OSError, w)
    else if negb (String.eqb (os.dirname path) "")
            && negb (os.isdir (os.dirname path) w)
    then (Raise FileNotFoundError, w)
    else (Ok tt,
          set_files <[path := {| content := Truncated; readable := true |}]> w).

(** [json.dump(obj, f, cls=ComplexEncoder, indent=2)] into the file opened
    at [path]; a TypeError leaves the file truncated. *)
Definition json_dump (obj : gmap string pyval) (path : string) : M unit :=
  (members <- lift (json_encode_dict obj) ;;
   modify (set_files
             <[path := {| content := JsonDoc members; readable := true |}]>))%M.

(** [write_to_json(dict_name, json_name)]; the handler logs and re-raises. *)
Definition write_to_json (dict_name : gmap string pyval) (json_name : string)
  : M unit :=
  try_except
    (let converted_dict := convert_for_json <$> dict_name in
     os.makedirs (os.dirname json_name) ;;;
     open_w json_name ;;;
     json_dump converted_dict json_name)%M
    [(Exception, fun e => mraise e)].

(** [open(path)] for reading. *)
Definition open_r (path : string) : M fcontent :=
  fun w =>
    if os.isdir path w then (Raise OSError, w)
    else if negb (os.isfile path w) then (Raise FileNotFoundError, w)
    else match files w !! path with
         | Some fl => if readable fl then (Ok (content fl), w)
                      else (Raise PermissionError, w)
         | None => (Raise FileNotFoundError, w)
         end.

(** [json.load(f)] on a file that holds a JSON object, or no JSON at all. *)
Definition json_load (c : fcontent) : result (gmap string pyval) :=
  match c with
  | JsonDoc members => Ok (json_decode <$> members)
  | _ => Raise JSONDecodeError
  end.

(** [validate_file_path(file_path, file_type)]; [os.path.exists] on a value
    that is no path raises TypeError. *)
Definition validate_file_path (file_path : pyval) : M bool :=
  match file_path with
  | PStr path =>
      (ex <- os.path_exists path ;;
       if negb ex then mraise FileNotFoundError
       else
         ok <- os.access_R_OK path ;;
         if negb ok then mraise PermissionError
         else mret true)%M
  | _ => mraise TypeError
  end.

(** [min(lst, key=key)] on a list that is not empty: the first element
    whose key is smallest (a later element replaces the best one only when
    its key is strictly smaller); ValueError on an empty list. *)
Definition min_by_key (key : Q -> Q) (lst : list Q) : result Q :=
  match lst with
  | [] => Raise ValueError
  | x :: rest =>
      Ok (fold_left
            (fun best y => if np.ltb (key y) (key best) then y else best)
            rest x)
  end.

(** [lst.index(value)]: the first index whose element equals [value],
    ValueError when there is none. *)
Fixpoint index (value : Q) (lst : list Q) : result nat :=
  match lst with
  | [] => Raise ValueError
  | x :: rest =>
      if Qeq_bool x value then Ok 0%nat
      else (i <- index value rest ;; Ok (S i))%result
  end.

(** [find_closest(lst, target)] *)
Definition find_closest (lst : list Q) (target : Q) : result (Q * nat) :=
  match lst with
  | [] => Raise ValueError
  | _ =>
      (closest_value <- min_by_key (fun x => Qabs (x - target)) lst ;;
       closest_index <- index closest_value lst ;;
       Ok (closest_value, closest_index))%result
  end.

(** [ensure_directory_exists(directory_path)] *)
Definition ensure_directory_exists (directory_path : string) : M unit :=
  os.makedirs directory_path.

End misc.

(** ** helper_functions/{lumerical,tidy3d}/simulate_device.py *)

Module simulate_device.

(** Which way the check for an existing result file went. *)
Inductive decision : Type :=
| RUN_FRESH        (* no file: the engine is started *)
| REUSE_EXISTING   (* a file, and the answer was y: the engine is started *)
| ABORTED.         (* a file, and the answer was n or Ctrl-C: return None *)

(** [input(...)] on the next event of standard input. *)
Definition input (ev : input_event) : result string :=
  match ev with
  | Line s => Ok s
  | Interrupt => Raise KeyboardInterrupt
  | EndOfInput => Raise EOFError
  end.

(** [gf.import_gds(path, read_metadata=True)]: the layout stored at
    [path]; any failure is some Exception. *)
Definition import_gds (path : string) : M string :=
  (c <- misc.open_r path ;;
   match c with
   | Gds layout => mret layout
   | _ => mraise ValueError
   end)%M.

(** [device.write_gds(path, with_metadata=True)] *)
Definition write_gds (device : string) (path : string) : M unit :=
  modify (set_files <[path := {| content := Gds device; readable := true |}]>).

(** How an [except name:] clause treats an exception that reaches it. *)
Inductive clause : Type :=
| Tested    (* [name] is the built-in class: the exception is tested *)
| Skipped   (* [name] is the empty tuple: nothing matches *)
| Invalid.  (* [name] is no class: the clause itself raises TypeError *)

Section Backend.

(** [p = dict(...)], the built-in defaults of the backend. *)
Variable defaults : gmap string pyval.
(** The result file is [file_name + artifact_suffix]. *)
Variable artifact_suffix : string.
(** [fdtd_from_gds(parameters=p)] of the backend's [initiate_fdtd]. *)
Variable fdtd_from_gds : gmap string pyval -> M pyval.

(** Source lines 73-82: [p.update(config)] when config.json loads. *)
Definition load_config (p : gmap string pyval) : M (gmap string pyval) :=
  try_except
    (c <- misc.open_r "config.json" ;;
     config <- lift (misc.json_load c) ;;
     mret (config ∪ p))%M
    [(FileNotFoundError,
      fun _ => (modify (add_event (Warned "config.json not found")) ;;;
                mret p)%M);
     (JSONDecodeError, fun _ => mraise ValueError)].

(** The parameter resolution, up to and including the derived key
    [gds_file] (source lines 50-99 of the lumerical file, 49-96 of the
    tidy3d file). *)
Definition resolve (parameters : gmap string pyval)
  : M (gmap string pyval) :=
  (p <- load_config defaults ;;
   let p := parameters ∪ p in
   given <- lift (truthy (default PNone (p !! "predefined_gds"))) ;;
   if negb given then mraise ValueError
   else
     path <- lift (dict_getitem p "predefined_gds") ;;
     try_except (misc.validate_file_path path)
       [(FileNotFoundError, fun e => mraise e)] ;;;
     file_name <- lift (dict_getitem p "file_name") ;;
     gds_file <- lift (add_str file_name ".gds") ;;
     mret (<["gds_file" := PStr gds_file]> p))%M.

(** *** The module-level names after the loop over [p.items()]

    [for key, value in p.items(): globals()[key] = value] binds every key
    of the resolved dictionary as a module-level name.  The lines after the
    loop read [file_name], [predefined_gds] and [gds_file] that way, and
    they also read the names [write_to_json], [Exception], [logger], [gf],
    [RuntimeError], [os], [input], [fdtd_from_gds] and [KeyboardInterrupt]:
    each of these is the imported module, function or built-in class as
    long as it is no key of [p], and the parameter value otherwise.  No
    parameter value can be called, none has the attribute the code reads
    from the module, and none but the empty tuple can stand in an [except]
    clause.  The model is of the first call in a freshly imported module:
    in Python the names stay rebound for later calls. *)

Section Globals.

Variable p : gmap string pyval.

(** [name.attribute], for the attributes the code reads from [logger],
    [gf] and [os]. *)
Definition attribute_of (name : string) : M unit :=
  match p !! name with
  | Some _ => mraise AttributeError
  | None => mret tt
  end.

(** [name(...)]: the object called must be the function or class. *)
Definition callable (name : string) : M unit :=
  match p !! name with
  | Some _ => mraise TypeError
  | None => mret tt
  end.

(** [logger.info(...)] and [logger.error(...)]. *)
Definition log : M unit := attribute_of "logger".

(** [logger.warning(msg)] *)
Definition warning (msg : string) : M unit :=
  (attribute_of "logger" ;;; modify (add_event (Warned msg)))%M.

Definition except_clause (cls : exn) : clause :=
  match p !! exn_name cls with
  | None => Tested
  | Some (PTuple []) => Skipped
  | Some _ => Invalid
  end.

(** [try: body / except cls: handler] after the loop, the class names
    looked up when an exception reaches the clause. *)
Fixpoint handle_by_name {A} (e : exn) (clauses : list (exn * (exn -> M A)))
  : M A :=
  match clauses with
  | [] => mraise e
  | (cls, h) :: rest =>
      match except_clause cls with
      | Tested => if isinstance e cls then h e else handle_by_name e rest
      | Skipped => handle_by_name e rest
      | Invalid => mraise TypeError
      end
  end.

Definition try_except_by_name {A} (body : M A)
    (clauses : list (exn * (exn -> M A))) : M A :=
  fun w => match body w with
           | (Ok a, w') => (Ok a, w')
           | (Raise e, w') => handle_by_name e clauses w'
           end.

(** The [logger.info] call that ends each branch of the loop. *)
Definition logged {A} (a : A) : result A :=
  match p !! "logger" with
  | Some _ => Raise AttributeError
  | None => Ok a
  end.

(** The [try] block of one round on the next input event, up to the call
    of the engine: the decision taken, or [None] for another round. *)
Definition answer (ev : input_event) : result (option decision) :=
  (line <- input ev ;;
   let response := str.lower (str.strip line) in
   if String.eqb response "y" then logged (Some REUSE_EXISTING)
   else if String.eqb response "n" then logged (Some ABORTED)
   else logged None)%result.

(** [except KeyboardInterrupt:] of the loop, on an exception [e] of the
    [try] block. *)
Definition interrupted (e : exn) : result (option decision) :=
  match except_clause KeyboardInterrupt with
  | Tested =>
      if isinstance e KeyboardInterrupt then logged (Some ABORTED)
      else Raise e
  | Skipped => Raise e
  | Invalid => Raise TypeError
  end.

(** One round of the loop on the next input event. *)
Definition round (ev : input_event) : result (option decision) :=
  match answer ev with
  | Ok o => Ok o
  | Raise e => interrupted e
  end.

(** The [while True] loop around the prompt: the outcome, the input left
    unread and the number of times the prompt was shown.  A rebound
    [input] cannot be called: that is a TypeError before anything is
    shown or read, and the [except] clause either lets it through or
    raises a TypeError of its own.  On an exhausted standard input [input]
    raises EOFError, as on a closed one. *)
Fixpoint while_True (pending : list input_event)
  : result decision * list input_event * nat :=
  match p !! "input" with
  | Some _ => (Raise TypeError, pending, 0%nat)
  | None =>
      match pending with
      | [] =>
          match round EndOfInput with
          | Raise e => (Raise e, [], 1%nat)
          | Ok _ => (Raise EOFError, [], 1%nat)
          end
      | ev :: rest =>
          match round ev with
          | Ok (Some d) => (Ok d, rest, 1%nat)
          | Ok None => let '(r, rest', n) := while_True rest in (r, rest', S n)
          | Raise e => (Raise e, rest, 1%nat)
          end
      end
  end.

Definition confirm : M decision :=
  fun w =>
    let '(r, rest, n) := while_True (stdin w) in
    (r, Nat.iter n (add_event Prompted) (set_stdin rest w)).

(** Source lines 121-143 (lumerical) and 118-140 (tidy3d) up to the calls
    of the engine. *)
Definition artifact_gate (simulation_file : string) : M decision :=
  (attribute_of "os" ;;;
   ex <- os.path_exists simulation_file ;;
   if ex : bool then
     warning "Simulation file already exists" ;;;
     confirm
   else log ;;; mret RUN_FRESH)%M.

Definition call_engine : M pyval :=
  (callable "fdtd_from_gds" ;;;
   modify (add_event (EngineCalled p)) ;;;
   fdtd_from_gds p)%M.

(** What follows each way out of the check: the engine is called on a new
    run and after the answer y (there inside the [try], so that a Ctrl-C
    during the run also ends in [None]); otherwise [None] is returned. *)
Definition dispatch (d : decision) : M pyval :=
  match d with
  | RUN_FRESH => call_engine
  | REUSE_EXISTING =>
      try_except_by_name call_engine
        [(KeyboardInterrupt, fun _ => log ;;; mret PNone)%M]
  | ABORTED => mret PNone
  end.

(** Source lines 105-143 (lumerical) and 102-140 (tidy3d): the sidecar,
    the copy of the geometry and the check for a result file.
    [file_name], [predefined_gds] and [gds_file] are module-level names
    the loop has just bound: the entries of [p], which every resolved
    dictionary has. *)
Definition after_globals : M pyval :=
  (file_name <- lift (dict_getitem p "file_name") ;;
   predefined_gds <- lift (dict_getitem p "predefined_gds") ;;
   gds_file <- lift (dict_getitem p "gds_file") ;;
   try_except_by_name
     (json_name <- lift (add_str file_name ".json") ;;
      callable "write_to_json" ;;;
      misc.write_to_json p json_name)
     [(Exception, fun e => log ;;; mraise e)] ;;;
   try_except_by_name
     (attribute_of "gf" ;;;
      src <- lift (as_str predefined_gds) ;;
      device <- import_gds src ;;
      dst <- lift (as_str gds_file) ;;
      write_gds device dst ;;;
      log)
     [(Exception, fun _ => log ;;; callable "RuntimeError" ;;;
                           mraise RuntimeError)] ;;;
   simulation_file <- lift (add_str file_name artifact_suffix) ;;
   d <- artifact_gate simulation_file ;;
   dispatch d)%M.

End Globals.

(** [simulate_predefined_gds(parameters)] *)
Definition simulate_predefined_gds (parameters : gmap string pyval)
  : M pyval :=
  (p <- resolve parameters ;; after_globals p)%M.

End Backend.

End simulate_device.

Module lumerical.

(** The defaults of helper_functions/lumerical/simulate_device.py; [now] is
    [datetime.now().strftime('%Y%m%d%H%M%S')] at the time of the call. *)
Definition defaults (now : string) : gmap string pyval :=
  list_to_map [
    ("wavelength", PFloat 0.85);
    ("wav_span", PFloat 0.02);
    ("wav_step", PFloat 0.01);
    ("resolution", PInt 6);
    ("temperature", PInt 300);
    ("predefined_gds", PStr "mmi_1x2_450_VISPIC2.gds");
    ("material_type", PStr "universal");
    ("guiding_material", PStr "SiN");
    ("lumapi_path", PStr "C:\Program Files\Lumerical\v251\api\python");
    ("file_name", PStr ("test_" ++ now));
    ("mode_num", PInt 5);
    ("mode_idx", PInt 1);
    ("flag_extend", PInt 1);
    ("extension", PInt 10);
    ("flag_run_simulation", PInt 0);
    ("flag_boolean", PInt 0);
    ("solver_z_min", PInt (-1));
    ("solver_z_max", PInt 1);
    ("change_cladding", PBool false)
  ].

Definition resolve (now : string) :=
  simulate_device.resolve (defaults now).

Definition simulate_predefined_gds (now : string) :=
  simulate_device.simulate_predefined_gds (defaults now) "_FDTD.fsp".

End lumerical.

Module tidy3d.

(** The defaults of helper_functions/tidy3d/simulate_device.py; [now] and
    [now'] are the two readings of the clock. *)
Definition defaults (now now' : string) : gmap string pyval :=
  list_to_map [
    ("wavelength", PFloat 1.55);
    ("wav_span", PFloat 0.05);
    ("resolution", PInt 6);
    ("temperature", PInt 300);
    ("predefined_gds", PStr "mmi_1x2_450_VISPIC2.gds");
    ("material_type", PStr "universal");
    ("guiding_material", PStr "SiN");
    ("file_name", PStr ("test_" ++ now));
    ("task_name", PStr ("test_" ++ now'));
    ("mode_num", PInt 5);
    ("mode_idx", PInt 1);
    ("flag_extend", PInt 1);
    ("extension", PInt 10);
    ("flag_run_simulation", PInt 0);
    ("flag_boolean", PInt 0);
    ("solver_z_min", PInt (-1));
    ("solver_z_max", PInt 1);
    ("change_cladding", PBool false)
  ].

Definition resolve (now now' : string) :=
  simulate_device.resolve (defaults now now').

Definition simulate_predefined_gds (now now' : string) :=
  simulate_device.simulate_predefined_gds (defaults now now') "_results.hdf5".

End tidy3d.

(** ** helper_functions/tidy3d/materials.py *)

Module materials.

Section Fitting.

(** numpy arrays, the fitter and the fitted medium, as tidy3d has them. *)
Variables ndarray fitter medium : Type.
(** [np.array(column)] on a column of the data file. *)
Variable np_array : pyval -> result ndarray.
(** [array * 1e6] *)
Variable scale : ndarray -> Q -> result ndarray.
(** [FastDispersionFitter(wvl_um=..., n_data=..., k_data=...,
    wvl_range=...)] *)
Variable FastDispersionFitter :
  ndarray -> ndarray -> ndarray -> Q * Q -> result fitter.
(** [run_fitter(fitter, num_poles=6, tolerance_rms=1e-5, num_tries=50,
    advanced_param=AdvancedFitterParam(nlopt_maxeval=5000))] *)
Variable run_fitter : fitter -> result (medium * Q).
(** [fitter.fit(max_num_poles=1,
    advanced_param=AdvancedFastFitterParam(weights=(1,1)),
    tolerance_rms=2e-2)] *)
Variable fit : fitter -> result (medium * Q).
(** [fitter.plot(medium)], [plt.xlabel] and [plt.show()] *)
Variable plot : fitter -> medium -> result unit.
(** [medium.to_file(output_file)] *)
Variable to_file : medium -> string -> M unit.
(** [td.PoleResidue.from_file(fname)] *)
Variable PoleResidue_from_file : string -> M medium.

(** The body of the [try] block of [fit_pole_residue_material]. *)
Definition fit_body (filename output_file n_name k_name : string)
    (wav_range : Q * Q) (web_service : bool) : M unit :=
  (c <- misc.open_r filename ;;
   mat <- lift (misc.json_load c) ;;
   wavelength_m <- lift (dict_getitem mat "wavelength(m)") ;;
   wvl <- lift (np_array wavelength_m) ;;
   wvl_um <- lift (scale wvl 1000000) ;;
   n_column <- lift (dict_getitem mat n_name) ;;
   n_data <- lift (np_array n_column) ;;
   k_column <- lift (dict_getitem mat k_name) ;;
   k_data <- lift (np_array k_column) ;;
   fitter <- lift (FastDispersionFitter wvl_um n_data k_data wav_range) ;;
   fitted <- lift (if web_service then run_fitter fitter else fit fitter) ;;
   let '(medium, rms_error) := fitted in
   lift (plot fitter medium) ;;;
   to_file medium output_file)%M.

(** [fit_pole_residue_material(filename, output_file, n_name, k_name,
    material_name, wav_range, web_service)]; [material_name] is not used. *)
Definition fit_pole_residue_material
    (filename output_file n_name k_name material_name : string)
    (wav_range : Q * Q) (web_service : bool) : M unit :=
  try_except
    (fit_body filename output_file n_name k_name wav_range web_service)
    [(FileNotFoundError, fun e => mraise e);
     (Exception, fun _ => mraise ValueError)].

(** [load_pole_material(filename)]; both handlers log and re-raise. *)
Definition load_pole_material (filename : string) : M medium :=
  try_except (PoleResidue_from_file (filename ++ ".json"))
    [(FileNotFoundError, fun e => mraise e);
     (Exception, fun e => mraise e)].

End Fitting.

End materials.

(** ** projects/FDTD_solvers/coupler/directional_coupler.py *)

Module directional_coupler.

(** The parameter dictionary [p] of [main], for [solver = 'lumerical'],
    [res = 6] and [span = 20]; [current_directory] is [os.getcwd()] and
    [now] the clock reading that names the task. *)
Definition gds_file_path (current_directory : string) : string :=
  os.join current_directory
    ["gds_library"; "cells_from_gds"; "gdsfactory_generic_pdk"; "coupler.gds"].

Definition output_dir (current_directory : string) : string :=
  os.join current_directory
    ["projects"; "FDTD_solvers"; "coupler"; "Data"; "lumerical";
     "sweep_resolution/res6_span20_step5"].

Definition p (current_directory now : string) : gmap string pyval :=
  list_to_map [
    ("wav_span", PFloat (20 * 0.001));
    ("resolution", PInt 6);
    ("predefined_gds", PStr (gds_file_path current_directory));
    ("file_name", PStr (output_dir current_directory));
    ("task_name", PStr ("DC_res6_span20_step5_" ++ now));
    ("mode_idx", PInt 0);
    ("flag_run_simulation", PInt 1);
    ("change_cladding", PBool false)
  ].

(** [main()]: the Lumerical backend is called on [p]; the result is only
    tested for truth, for the log; every exception is logged and raised
    again.  [now'] is the clock reading inside the backend. *)
Definition main (current_directory now now' : string)
    (fdtd_from_gds : gmap string pyval -> M pyval) : M unit :=
  try_except
    (results <- lumerical.simulate_predefined_gds now' fdtd_from_gds
                  (p current_directory now) ;;
     completed <- lift (truthy results) ;;
     mret tt)%M
    [(Exception, fun e => mraise e)].

End directional_coupler.

(** ** validate_codebase.py *)

Module validate_codebase.

(** The state of a [CodebaseValidator]: [root_dir] is the root as pathlib
    prints it ([.] for the current directory, no trailing separator), the
    two lists grow at their end. *)
Record CodebaseValidator : Type := {
  root_dir : string;
  errors : list string;
  warnings : list string
}.

(** [CodebaseValidator(root_dir)] *)
Definition init (root_dir : string) : CodebaseValidator :=
  {| root_dir := root_dir; errors := []; warnings := [] |}.

(** [self.errors.append(msg)] and [self.warnings.append(msg)] *)
Definition append_error (msg : string) (self : CodebaseValidator)
  : CodebaseValidator :=
  {| root_dir := root_dir self; errors := errors self ++ [msg];
     warnings := warnings self |}.

Definition append_warning (msg : string) (self : CodebaseValidator)
  : CodebaseValidator :=
  {| root_dir := root_dir self; errors := errors self;
     warnings := warnings self ++ [msg] |}.

(** [len(self.errors) == 0] *)
Definition no_errors (self : CodebaseValidator) : bool :=
  match errors self with
  | [] => true
  | _ => false
  end.

(** [root / name] for a relative [name] of plain components. *)
Definition joinpath (root name : string) : string :=
  if String.eqb root "." then name
  else if os.all_sep root then root ++ name
  else root ++ "/" ++ name.

(** [path.name], the last component. *)
Definition name (path : string) : string := snd (os.split path).

(** [pattern in content] on strings. *)
Fixpoint contains (pattern content : string) : bool :=
  String.prefix pattern content ||
  match content with
  | EmptyString => false
  | String _ rest => contains pattern rest
  end.

(** Methods of the validator: they change the validator and may raise. *)
Definition V (A : Type) : Type :=
  CodebaseValidator -> result A * CodebaseValidator.

Definition vret {A} (a : A) : V A := fun self => (Ok a, self).

Definition vraise {A} (e : exn) : V A := fun self => (Raise e, self).

Definition vbind {A B} (c : V A) (k : A -> V B) : V B :=
  fun self => match c self with
              | (Ok a, self') => k a self'
              | (Raise e, self') => (Raise e, self')
              end.

Definition vlift {A} (r : result A) : V A := fun self => (r, self).

Definition update (g : CodebaseValidator -> CodebaseValidator) : V unit :=
  fun self => (Ok tt, g self).

Declare Scope V_scope.
Delimit Scope V_scope with V.
Bind Scope V_scope with V.
Notation "x <- c ;; k" := (vbind c (fun x => k))
  (at level 100, c at next level, right associativity) : V_scope.
Notation "c ;;; k" := (vbind c (fun _ => k))
  (at level 100, right associativity) : V_scope.

(** [for x in items: body(x)] *)
Fixpoint for_each {X} (items : list X) (body : X -> V unit) : V unit :=
  match items with
  | [] => vret tt
  | x :: rest => (body x ;;; for_each rest body)%V
  end.

(** [return len(self.errors) == 0] *)
Definition return_no_errors : V bool := fun self => (Ok (no_errors self), self).

Definition required_files : list string :=
  ["config.json"; "environment.yml"; "readme.md"; "stack.json";
   "stack_universal.json"].

Definition required_dirs : list string :=
  ["gds_library"; "helper_functions"; "materials_library"; "projects"].

Definition required_keys : list string :=
  ["wavelength"; "wav_step"; "temperature"; "material_type";
   "guiding_material"; "lumapi_path"; "solver_z_min"; "solver_z_max"].

Definition device_scripts : list (string * string) :=
  [("coupler", "directional_coupler.py");
   ("crossing", "crossing.py");
   ("mmi2x2", "mmi2x2.py");
   ("mode_converter", "mode_converter.py");
   ("polarization_splitter_rotator", "polarization_splitter_rotator.py")].

Definition debug_patterns : list string :=
  ["print("; "pdb.set_trace()"; "import pdb"; "breakpoint()";
   "TODO:"; "FIXME:"; "XXX:"; "HACK:"].

(** How the three imports of [validate_imports] end. *)
Inductive import_outcome : Type :=
| Imported
| ImportError_ (msg : string)     (* an ImportError with this text *)
| ImportRaised (e : exn).         (* any other exception *)

(** The result dictionary of [run_all_checks]. *)
Record report : Type := {
  passed : bool;
  report_errors : list string;
  report_warnings : list string;
  total_errors : nat;
  total_warnings : nat
}.

Section Checks.

(** The file system while the checks run; they only read it. *)
Variable w : world.
(** [list(Path(root).rglob(pattern))], the paths as pathlib prints them. *)
Variable rglob : string -> string -> result (list string).
(** [open(path, 'r', encoding='utf-8').read()] *)
Variable read_text : string -> result string.
(** The three [import] statements of [validate_imports]. *)
Variable import_core_modules : import_outcome.
(** [str(e)], the text of an exception. *)
Variable describe : exn -> string.

Definition validate_file_structure : V bool :=
  (for_each required_files (fun file => fun self =>
     if negb (os.exists_ (joinpath (root_dir self) file) w)
     then update (append_error ("Missing required file: " ++ file)) self
     else vret tt self) ;;;
   for_each required_dirs (fun dir_name => fun self =>
     if negb (os.isdir (joinpath (root_dir self) dir_name) w)
     then update (append_error ("Missing required directory: " ++ dir_name))
            self
     else vret tt self) ;;;
   return_no_errors)%V.

Definition validate_config_files : V bool :=
  (fun self =>
     let config_file := joinpath (root_dir self) "config.json" in
     if os.exists_ config_file w then
       match (c <- fst (misc.open_r config_file w) ;;
              misc.json_load c)%result with
       | Ok config =>
           for_each required_keys (fun key =>
             if bool_decide (config !! key = None)
             then update (append_warning ("Missing key in config.json: "
                                          ++ key))
             else vret tt) self
       | Raise e =>
           if isinstance e JSONDecodeError
           then update (append_error ("Invalid JSON in config.json: "
                                      ++ describe e)) self
           else vraise e self
       end
     else update (append_error "config.json not found") self) ;;;
  return_no_errors.

Definition validate_device_scripts : V bool :=
  (for_each device_scripts (fun entry => fun self =>
     let '(device, script_name) := entry in
     let script_path :=
       joinpath (joinpath (joinpath (joinpath (root_dir self) "projects")
                                    "FDTD_solvers") device) script_name in
     if negb (os.exists_ script_path w)
     then update (append_warning ("Missing device script: " ++ script_path))
            self
     else vret tt self) ;;;
   return_no_errors)%V.

Definition validate_imports : V bool :=
  (match import_core_modules with
   | Imported => vret tt
   | ImportError_ msg => update (append_error ("Import error: " ++ msg))
   | ImportRaised e => vraise e
   end ;;;
   return_no_errors)%V.

Definition check_for_debug_code : V bool :=
  (python_files <- (fun self => (rglob (root_dir self) "*.py", self)) ;;
   for_each python_files (fun file_path =>
     if String.eqb (name file_path) "validate_codebase.py" then vret tt
     else
       match read_text file_path with
       | Ok content =>
           for_each debug_patterns (fun pattern =>
             if contains pattern content
             then update (append_warning ("Debug code found in " ++ file_path
                                          ++ ": " ++ pattern))
             else vret tt)
       | Raise e =>
           if isinstance e Exception
           then update (append_warning ("Could not read " ++ file_path
                                        ++ ": " ++ describe e))
           else vraise e
       end) ;;;
   return_no_errors)%V.

Definition validate_gds_files : V bool :=
  (fun self =>
     let gds_dir := joinpath (joinpath (root_dir self) "gds_library")
                             "cells_from_gds" in
     if os.exists_ gds_dir w then
       (gds_files <- vlift (rglob gds_dir "*.gds") ;;
        match gds_files with
        | [] => update (append_warning
                          "No GDS files found in gds_library/cells_from_gds/")
        | _ => vret tt
        end)%V self
     else update (append_warning "GDS directory not found") self) ;;;
  return_no_errors.

(** [try: check() / except Exception as e: self.errors.append(...)] *)
Definition guarded (check : V bool) : V unit :=
  fun self =>
    match check self with
    | (Ok _, self') => (Ok tt, self')
    | (Raise e, self') =>
        if isinstance e Exception
        then (Ok tt, append_error ("Check failed: " ++ describe e) self')
        else (Raise e, self')
    end.

Definition checks : list (V bool) :=
  [validate_file_structure; validate_config_files; validate_device_scripts;
   validate_imports; check_for_debug_code; validate_gds_files].

Definition run_all_checks : V report :=
  (for_each checks guarded ;;;
   fun self =>
     (Ok {| passed := no_errors self;
            report_errors := errors self;
            report_warnings := warnings self;
            total_errors := length (errors self);
            total_warnings := length (warnings self) |}, self))%V.

(** [main()]: the exit status of the script, 1 from [sys.exit(1)] and 0
    when [main] returns; [print_results] only prints. *)
Definition main : result Z :=
  (results <- fst (run_all_checks (init ".")) ;;
   Ok (if negb (passed results) then 1%Z else 0%Z))%result.

End Checks.

End validate_codebase.

(** ** Vocabulary of the properties *)

Module props.

Import find_FWHM_py.

(** The index the first loop reads as [ii - 1]: Python wraps [-1] around to
    the last sample. *)
Definition prev_index (n ii : nat) : nat :=
  match ii with
  | O => (n - 1)%nat
  | S j => j
  end.

Section Crossings.

Variable wav_interp : list Q.
Variable T_interp : Q -> Q.
Variable half_level wav_min wav_max : Q.

(** At [ii] the curve is below the half level and was above it one sample
    earlier, with [ii] more than 0.001 above the smallest and more than
    0.005 below the largest wavelength. *)
Definition left_crossing (ii : nat) : Prop :=
  exists x xp,
    wav_interp !! ii = Some x /\
    wav_interp !! prev_index (length wav_interp) ii = Some xp /\
    (T_interp x < half_level)%Q /\ (half_level < T_interp xp)%Q /\
    (wav_min + 0.001 < x)%Q /\ (x < wav_max - 0.005)%Q.

(** At [ii] the curve is below the half level and is above it one sample
    later, with [ii] more than 0.005 away from both ends. *)
Definition right_crossing (ii : nat) : Prop :=
  exists x xn,
    wav_interp !! ii = Some x /\
    wav_interp !! S ii = Some xn /\
    (T_interp x < half_level)%Q /\ (half_level < T_interp xn)%Q /\
    (wav_min + 0.005 < x)%Q /\ (x < wav_max - 0.005)%Q.

(** [right_crossing] as a test. *)
Definition right_crossingb (ii : nat) : bool :=
  match wav_interp !! ii, wav_interp !! S ii with
  | Some x, Some xn =>
      np.ltb (T_interp x) half_level && np.ltb half_level (T_interp xn)
      && np.ltb (wav_min + 0.005) x && np.ltb x (wav_max - 0.005)
  | _, _ => false
  end.

(** The two loops with the margins as the specification words them:
    fractions 0.1 % and 0.5 % of the wavelength span. *)
Definition span : Q := (wav_max - wav_min)%Q.

Definition first_cond_fraction (ii : nat) : result bool :=
  ((x <- np.getitem wav_interp (Z.of_nat ii) ;;
    Ok (np.ltb (T_interp x) half_level))
   AND (x <- np.getitem wav_interp (Z.of_nat ii - 1) ;;
        Ok (np.ltb half_level (T_interp x)))
   AND (x <- np.getitem wav_interp (Z.of_nat ii) ;;
        Ok (np.ltb (wav_min + 0.001 * span) x))
   AND (x <- np.getitem wav_interp (Z.of_nat ii) ;;
        Ok (np.ltb x (wav_max - 0.005 * span))))%result.

Definition second_cond_fraction (ii : nat) : result bool :=
  ((x <- np.getitem wav_interp (Z.of_nat ii) ;;
    Ok (np.ltb (T_interp x) half_level))
   AND (x <- np.getitem wav_interp (Z.of_nat ii + 1) ;;
        Ok (np.ltb half_level (T_interp x)))
   AND (x <- np.getitem wav_interp (Z.of_nat ii) ;;
        Ok (np.ltb (wav_min + 0.005 * span) x))
   AND (x <- np.getitem wav_interp (Z.of_nat ii) ;;
        Ok (np.ltb x (wav_max - 0.005 * span))))%result.

Definition first_scan_fraction : result (option nat) :=
  scan first_cond_fraction (seq 0 (length wav_interp)).

Definition second_scan_fraction : result (option nat) :=
  scan second_cond_fraction (seq 0 (length wav_interp)).

End Crossings.

(** C6 as stated: on the spectrum [(wav, T)] the two loops locate what
    they would locate with margins that are fractions of the span. *)
Definition margins_are_fractions
    (CubicSpline : list Q -> list Q -> result (Q -> Q))
    (wav T : list Q) : Prop :=
  forall wav_min wav_max T_interp half_level,
    np.min wav = Ok wav_min ->
    np.max wav = Ok wav_max ->
    CubicSpline wav T = Ok T_interp ->
    half_level_of (map T_interp (np.linspace wav_min wav_max 1000))
      = Ok half_level ->
    let wav_interp := np.linspace wav_min wav_max 1000 in
    first_scan wav_interp T_interp half_level wav_min wav_max
      = first_scan_fraction wav_interp T_interp half_level wav_min wav_max /\
    second_scan wav_interp T_interp half_level wav_min wav_max
      = second_scan_fraction wav_interp T_interp half_level wav_min wav_max.

(** C1 as stated: when a loop ends without a crossing, [find_FWHM] ends in
    an exception. *)
Definition missing_crossing_raises
    (CubicSpline : list Q -> list Q -> result (Q -> Q))
    (wav T : list Q) : Prop :=
  forall wav_interp found0 found1,
    crossings CubicSpline wav T = Ok (wav_interp, found0, found1) ->
    found0 = None \/ found1 = None ->
    exists e, find_FWHM CubicSpline wav T = Raise e.

(** A spectrum in canonical form: wavelengths strictly ascending, largest
    power equal to 1. *)
Definition canonical (spectrum : list Q * list Q) : Prop :=
  Sorted Qlt (fst spectrum) /\
  exists m, np.max (snd spectrum) = Ok m /\ (m == 1)%Q.

(** C4 as stated: whatever result file a reader can read, what it returns
    is canonical. *)
Definition readers_always_canonical : Prop :=
  forall lumapi_getresult SimulationData_from_file fname spectrum,
    (read_lumerical_output lumapi_getresult fname = Ok spectrum ->
     canonical spectrum) /\
    (read_tidy3d_output SimulationData_from_file fname = Ok spectrum ->
     canonical spectrum).

Import simulate_device.

(** One more showing of the prompt. *)
Definition reprompt (o : result decision * list input_event * nat)
  : result decision * list input_event * nat :=
  let '(r, rest, n) := o in (r, rest, S n).

(** The module-level names that [simulate_predefined_gds] reads after its
    loop over [p.items()], the three parameters apart. *)
Definition module_names : list string :=
  ["write_to_json"; "Exception"; "logger"; "gf"; "RuntimeError"; "os";
   "input"; "fdtd_from_gds"; "KeyboardInterrupt"].

(** No key of [p] is one of these names: the loop rebinds none of them. *)
Definition names_intact (p : gmap string pyval) : bool :=
  forallb (fun name => bool_decide (p !! name = None)) module_names.

(** C2 as stated, for the answer typed at the prompt: y continues, n
    cancels, and any other line brings the prompt back. *)
Definition answers_read_literally : Prop :=
  forall (p : gmap string pyval) (s : string) (rest : list input_event),
    names_intact p = true ->
    (s = "y" ->
     while_True p (Line s :: rest) = (Ok REUSE_EXISTING, rest, 1%nat))
    /\ (s = "n" -> while_True p (Line s :: rest) = (Ok ABORTED, rest, 1%nat))
    /\ (s <> "y" -> s <> "n" ->
        while_True p (Line s :: rest) = reprompt (while_True p rest)).

(** C3 as stated: every key of the overrides keeps the overriding value in
    the resolved descriptor. *)
Definition overrides_always_win (defaults : gmap string pyval) : Prop :=
  forall parameters w p w',
    resolve defaults parameters w = (Ok p, w') ->
    forall k v, parameters !! k = Some v -> p !! k = Some v.

(** The descriptors the engine was called with, latest first. *)
Definition engine_calls (w : world) : list (gmap string pyval) :=
  omap (fun e => match e with EngineCalled p => Some p | _ => None end)
       (events w).

(** [c] never calls the engine. *)
Definition engine_idle {A} (c : M A) : Prop :=
  forall w, engine_calls (snd (c w)) = engine_calls w.

(** [c] always ends in an exception, and never calls the engine. *)
Definition stops {A} (c : M A) : Prop :=
  forall w, (exists e, fst (c w) = Raise e) /\
            engine_calls (snd (c w)) = engine_calls w.

(** C7 as stated: after the merge an empty geometry path is a ValueError,
    and a path that does not exist or cannot be read is an error of the
    FileNotFoundError kind. *)
Definition geometry_errors_as_specified (defaults : gmap string pyval)
  : Prop :=
  forall parameters w pc w1,
    load_config defaults w = (Ok pc, w1) ->
    let p := parameters ∪ pc in
    (p !! "predefined_gds" = Some (PStr "") ->
     exists e w', resolve defaults parameters w = (Raise e, w') /\
                  isinstance e ValueError = true) /\
    (forall path, p !! "predefined_gds" = Some (PStr path) -> path <> "" ->
       os.exists_ path w = false \/ os.can_read path w = false ->
       exists e w', resolve defaults parameters w = (Raise e, w') /\
                    isinstance e FileNotFoundError = true).

(** [with open(path) as f: json.load(f)] *)
Definition reparse (path : string) : M (gmap string pyval) :=
  (c <- misc.open_r path ;; lift (misc.json_load c))%M.

(** What a reader of the sidecar finds for a value: a complex number as the
    dict of its parts, tuples and arrays as lists. *)
Fixpoint as_json_value (v : pyval) : pyval :=
  match v with
  | PComplex re im => PDict [("real", PFloat re); ("imag", PFloat im)]
  | PList items | PTuple items => PList (map as_json_value items)
  | PDict members =>
      PDict (map (fun kv => (fst kv, as_json_value (snd kv))) members)
  | PNdarray tolist => as_json_value tolist
  | _ => v
  end.

(** [v] holds an object that neither the json module nor
    [ComplexEncoder.default] can serialise. *)
Fixpoint holds_object (v : pyval) : bool :=
  match v with
  | PObject _ => true
  | PList items | PTuple items => existsb holds_object items
  | PDict members => existsb (fun kv => holds_object (snd kv)) members
  | PNdarray tolist => holds_object tolist
  | _ => false
  end.

(** Values built from None, bools, numbers, strings, lists and dicts only:
    the values [json.load] can return. *)
Fixpoint json_native (v : pyval) : bool :=
  match v with
  | PNone | PBool _ | PInt _ | PFloat _ | PStr _ => true
  | PList items => forallb json_native items
  | PDict members => forallb (fun kv => json_native (snd kv)) members
  | _ => false
  end.

(** [best] is the element at index [j] of [seen], no element of [seen] has
    a smaller key and every element before index [j] has a larger one. *)
Definition first_smallest (key : Q -> Q) (seen : list Q) (best : Q) (j : nat)
  : Prop :=
  seen !! j = Some best /\
  (forall y, y ∈ seen -> (key best <= key y)%Q) /\
  (forall i y, (i < j)%nat -> seen !! i = Some y -> (key best < key y)%Q).

(** From [w] to [w'] no file was touched and no directory removed; the
    pending input and the trace are the same. *)
Definition only_adds_dirs (w w' : world) : Prop :=
  files w' = files w /\ dirs w ⊆ dirs w' /\
  stdin w' = stdin w /\ events w' = events w.

(** A typed line that is neither [y] nor [n] once stripped and
    lower-cased. *)
Definition unrecognised (s : string) : bool :=
  let response := str.lower (str.strip s) in
  negb (String.eqb response "y") && negb (String.eqb response "n").

(** From [self] to [self'] the root is the same and both lists have only
    grown at their end. *)
Definition extends (self self' : validate_codebase.CodebaseValidator)
  : Prop :=
  validate_codebase.root_dir self' = validate_codebase.root_dir self /\
  validate_codebase.errors self `prefix_of` validate_codebase.errors self' /\
  validate_codebase.warnings self
    `prefix_of` validate_codebase.warnings self'.

(** As [extends], with no error added. *)
Definition only_warns (self self' : validate_codebase.CodebaseValidator)
  : Prop :=
  validate_codebase.root_dir self' = validate_codebase.root_dir self /\
  validate_codebase.errors self' = validate_codebase.errors self /\
  validate_codebase.warnings self
    `prefix_of` validate_codebase.warnings self'.

(** On a validator rooted at [root] the check returns and adds no error. *)
Definition quiet (root : string) (c : validate_codebase.V bool) : Prop :=
  forall self, validate_codebase.root_dir self = root ->
    (exists b, fst (c self) = Ok b) /\ only_warns self (snd (c self)).

End props.

(** ** Sample inputs *)

Module samples.

(** Newton's divided differences of the knots. *)
Fixpoint divided_step (xl xr d : list Q) : list Q :=
  match d, xl, xr with
  | a :: (b :: _) as d', x0 :: xl', xk :: xr' =>
      Qred ((b - a) / (xk - x0)) :: divided_step xl' xr' d'
  | _, _, _ => []
  end.

Fixpoint newton_coefficients (n k : nat) (xs d : list Q) : list Q :=
  match n, d with
  | S n', d0 :: _ =>
      d0 :: newton_coefficients n' (S k) xs (divided_step xs (drop (S k) xs) d)
  | _, _ => []
  end.

Fixpoint newton_eval (cs xs : list Q) (x : Q) : Q :=
  match cs, xs with
  | [], _ => 0
  | c :: cs', xk :: xs' => c + (x - xk) * newton_eval cs' xs' x
  | c :: _, [] => c
  end.

(** The polynomial of least degree through the knots [(xs, ys)]. *)
Definition interpolating_polynomial (xs ys : list Q) : Q -> Q :=
  let cs := newton_coefficients (length xs) 0 xs ys in
  newton_eval cs xs.

Fixpoint strictly_increasing (l : list Q) : bool :=
  match l with
  | x :: (y :: _) as l' => np.ltb x y && strictly_increasing l'
  | _ => true
  end.

(** [CubicSpline(x, y)] for inputs of at most four knots, which is all it
    is used on below: with scipy's default not-a-knot end conditions the
    first two and the last two segments are the same polynomial, so on
    four knots the spline is the single cubic through them (the parabola
    or the line when the samples lie on one).  scipy rejects fewer than two
    knots, arrays of different lengths and abscissae that do not strictly
    increase. *)
Definition CubicSpline4 (xs ys : list Q) : result (Q -> Q) :=
  if (length xs =? length ys)%nat && (2 <=? length xs)%nat
     && strictly_increasing xs
  then Ok (interpolating_polynomial xs ys)
  else Raise ValueError.

(** Four samples between 1.54 and 1.56 micrometres. *)
Definition wav4 : list Q := [77 # 50; 309 # 200; 311 # 200; 39 # 25]%Q.

(** A flat curve. *)
Definition T_flat : list Q := [1; 1; 1; 1]%Q.

(** A dip centred at 1.55: the samples of [((w - 1.55) / 0.01)^2]. *)
Definition T_dip : list Q := [1; 1 # 4; 1 # 4; 1]%Q.

(** A curve falling linearly from 1 to 0. *)
Definition T_fall : list Q := [1; 3 # 4; 1 # 4; 0]%Q.

(** A tidy3d result file whose monitor lists 200 THz before 190 THz. *)
Definition descending_monitor : data_analysis.mode_data :=
  {| data_analysis.f := [200000000000000; 190000000000000]%Q;
     data_analysis.amps_plus := [[(1, 0)]; [(1 # 2, 0)]]%Q |}.

Definition descending_file (fname : string)
  : result (gmap string data_analysis.mode_data) :=
  Ok {[ "o2 mode" := descending_monitor ]}.

(** A tidy3d result file as the engine orders it: 190 THz, then 200 THz. *)
Definition ascending_monitor : data_analysis.mode_data :=
  {| data_analysis.f := [190000000000000; 200000000000000]%Q;
     data_analysis.amps_plus := [[(1 # 2, 0)]; [(0, 1)]]%Q |}.

Definition ascending_file (fname : string)
  : result (gmap string data_analysis.mode_data) :=
  Ok {[ "o2 mode" := ascending_monitor ]}.

(** A Lumerical port result: wavelengths in metres, longest first. *)
Definition port_result : gmap string (list (list Q)) :=
  {[ "lambda" := [[156 # 100000000]; [154 # 100000000]]%Q;
     "T_net" := [[2 # 5; 0]; [4 # 5; 0]]%Q ]}.

Definition port_file (fname name dataset : string)
  : result (gmap string (list (list Q))) :=
  Ok port_result.

(** A geometry file and a project directory. *)
Definition gds_source : file :=
  {| content := Gds "coupler"; readable := true |}.

Definition project : world :=
  {| files := {[ "gds/coupler.gds" := gds_source ]};
     dirs := {[ "gds"; "out" ]};
     stdin := [];
     events := [] |}.

(** The same project with the geometry file unreadable. *)
Definition locked_project : world :=
  {| files := {[ "gds/coupler.gds" :=
                   {| content := Gds "coupler"; readable := false |} ]};
     dirs := {[ "gds"; "out" ]};
     stdin := [];
     events := [] |}.

(** An engine that does nothing and returns [None]. *)
Definition idle_engine (p : gmap string pyval) : M pyval := mret PNone.

(** Overrides naming the geometry file only: the output base name stays
    the default, a bare name. *)
Definition geometry_only : gmap string pyval :=
  {[ "predefined_gds" := PStr "gds/coupler.gds" ]}.

(** Overrides as the device scripts pass them, with the run flag off. *)
Definition coupler_job : gmap string pyval :=
  {[ "predefined_gds" := PStr "gds/coupler.gds";
     "file_name" := PStr "out/run";
     "flag_run_simulation" := PInt 0 ]}.


(** The job of a device script with one more parameter, named [gf]. *)
Definition job_with_gf : gmap string pyval :=
  {[ "predefined_gds" := PStr "gds/coupler.gds";
     "file_name" := PStr "out/run";
     "gf" := PFloat 1.5 ]}.

(** The same with the derived key among the overrides. *)
Definition coupler_job_with_gds_file : gmap string pyval :=
  <[ "gds_file" := PStr "mine.gds" ]> coupler_job.

(** A descriptor holding a complex value. *)
Definition complex_job : gmap string pyval :=
  {[ "index" := PComplex (7 # 2) (1 # 100);
     "sweep" := PTuple [PComplex 1 2; PInt 3] ]}.

(** A descriptor holding an object the encoder rejects. *)
Definition job_with_object : gmap string pyval :=
  {[ "resolution" := PInt 6;
     "device" := PObject "Component" ]}.


(** The project after a Lumerical run: the sidecar and the result file
    are there; at the prompt the user types [maybe], then [ N ]. *)
Definition finished_project : world :=
  {| files := {[ "gds/coupler.gds" := gds_source;
                 "out/run.json" :=
                   {| content := JsonDoc {[ "resolution" := JInt 6 ]};
                      readable := true |};
                 "out/run_FDTD.fsp" :=
                   {| content := Text "fsp"; readable := true |} ]};
     dirs := {[ "gds"; "out" ]};
     stdin := [Line "maybe"; Line " N "];
     events := [] |}.

(** The project with a config.json that sets two keys. *)
Definition configured_project : world :=
  {| files := {[ "gds/coupler.gds" := gds_source;
                 "config.json" :=
                   {| content := JsonDoc {[ "wavelength" := JFloat 1.31;
                                            "file_name" := JStr "from_config" ]};
                      readable := true |} ]};
     dirs := {[ "gds"; "out" ]};
     stdin := [];
     events := [] |}.

(** Four samples between 1.550 and 1.558, a span of 0.008. *)
Definition wav_narrow : list Q :=
  [31 # 20; 194 # 125; 389 # 250; 779 # 500]%Q.

(** A notch centred at 1.554: the samples of [(500 (w - 1.554))^2] on
    [wav_narrow]. *)
Definition T_notch : list Q := [4; 1; 1; 4]%Q.

(** Four samples between 1.53 and 1.57, a span of 0.04; [T_dip] on them
    is the dip [((w - 1.55) / 0.02)^2]. *)
Definition wav_wide : list Q :=
  [153 # 100; 77 # 50; 39 # 25; 157 # 100]%Q.

(** A checkout of the repository, seen from its root: the required files
    and directories, a config.json with one key, two Python files. *)
Definition plain_text : file := {| content := Text ""; readable := true |}.

Definition repository : world :=
  {| files := {[ "config.json" :=
                   {| content := JsonDoc {[ "wavelength" := JFloat 1.55 ]};
                      readable := true |};
                 "environment.yml" := plain_text;
                 "readme.md" := plain_text;
                 "stack.json" := plain_text;
                 "stack_universal.json" := plain_text ]};
     dirs := {[ "gds_library"; "helper_functions"; "materials_library";
                "projects" ]};
     stdin := [];
     events := [] |}.

Definition repository_rglob (dir pattern : string) : result (list string) :=
  if String.eqb pattern "*.py"
  then Ok ["helper_functions/tool.py"; "validate_codebase.py"]
  else Ok [].

Definition repository_read_text (path : string) : result string :=
  if String.eqb path "helper_functions/tool.py" then Ok "print(1)  # TODO: x"
  else Raise PermissionError.

(** A rendering of exceptions that gives every one the same text. *)
Definition describe (e : exn) : string := "error".

End samples.

(** * Properties *)

(** ** The exception monad *)

Lemma rbind_Ok {A B} (a : A) (k : A -> result B) : rbind (Ok a) k = k a.
Proof. reflexivity. Qed.

Lemma rbind_inv {A B} (r : result A) (k : A -> result B) (b : B) :
  rbind r k = Ok b -> exists a, r = Ok a /\ k a = Ok b.
Proof. destruct r as [a|e]; [eauto | discriminate]. Qed.

(** ** Comparisons and indexing *)

Lemma ltb_lt (x y : Q) : np.ltb x y = true <-> (x < y)%Q.
Proof.
  unfold np.ltb. rewrite negb_true_iff, <- not_true_iff_false, Qle_bool_iff.
  split; [apply Qnot_le_lt | apply Qlt_not_le].
Qed.

Lemma ltb_ge (x y : Q) : np.ltb x y = false <-> (y <= x)%Q.
Proof.
  unfold np.ltb. rewrite negb_false_iff. apply Qle_bool_iff.
Qed.

Lemma getitem_nat {A} (a : list A) (i : nat) (x : A) :
  a !! i = Some x -> np.getitem a (Z.of_nat i) = Ok x.
Proof.
  intros Hx. pose proof (lookup_lt_Some _ _ _ Hx) as Hlt.
  unfold np.getitem.
  destruct (Z.ltb_spec (Z.of_nat i) 0) as [?|_]; [lia|].
  destruct (Z.leb_spec 0 (Z.of_nat i)) as [_|?]; [|lia].
  destruct (Z.ltb_spec (Z.of_nat i) (Z.of_nat (length a))) as [_|?]; [|lia].
  simpl. rewrite Nat2Z.id, Hx. reflexivity.
Qed.

Lemma getitem_succ {A} (a : list A) (i : nat) :
  np.getitem a (Z.of_nat i + 1) = np.getitem a (Z.of_nat (S i)).
Proof. f_equal. lia. Qed.

Lemma getitem_out_of_range {A} (a : list A) (i : nat) :
  (length a <= i)%nat -> np.getitem a (Z.of_nat i) = @Raise A IndexError.
Proof.
  intros Hle. unfold np.getitem.
  destruct (Z.ltb_spec (Z.of_nat i) 0) as [?|_]; [lia|].
  destruct (Z.leb_spec 0 (Z.of_nat i)) as [_|?]; [|lia].
  destruct (Z.ltb_spec (Z.of_nat i) (Z.of_nat (length a))) as [?|_]; [lia|].
  reflexivity.
Qed.

Lemma getitem_pred {A} (a : list A) (ii : nat) (x : A) :
  (ii < length a)%nat ->
  a !! props.prev_index (length a) ii = Some x ->
  np.getitem a (Z.of_nat ii - 1) = Ok x.
Proof.
  intros Hlt Hx. destruct ii as [|j]; simpl in Hx.
  - unfold np.getitem. change (Z.of_nat 0 - 1)%Z with (-1)%Z.
    change (-1 <? 0)%Z with true. cbv iota.
    destruct (Z.leb_spec 0 (Z.of_nat (length a) + -1)) as [_|?]; [|lia].
    destruct (Z.ltb_spec (Z.of_nat (length a) + -1) (Z.of_nat (length a)))
      as [_|?]; [|lia].
    cbv [andb].
    replace (Z.to_nat (Z.of_nat (length a) + -1)) with (length a - 1)%nat by lia.
    rewrite Hx. reflexivity.
  - replace (Z.of_nat (S j) - 1)%Z with (Z.of_nat j) by lia.
    apply getitem_nat, Hx.
Qed.

(** ** The loop with [break] *)

Section scan_facts.
Import find_FWHM_py.
Variable cond : nat -> result bool.

Lemma scan_seq_Some (n a ii : nat) :
  scan cond (seq a n) = Ok (Some ii) <->
  (a <= ii < a + n)%nat /\ cond ii = Ok true /\
  forall j, (a <= j < ii)%nat -> cond j = Ok false.
Proof.
  revert a. induction n as [|n IH]; intros a; simpl.
  - split; [discriminate | intros [? _]; lia].
  - destruct (cond a) as [[|]|e] eqn:Ha; simpl.
    + split.
      * intros [= <-]. repeat split; [lia | lia | done | intros; lia].
      * intros (Hr & Hii & Hprev).
        destruct (decide (ii = a)) as [->|Hne]; [done|].
        rewrite (Hprev a) in Ha by lia. discriminate.
    + rewrite IH. split.
      * intros (Hr & Hii & Hprev). repeat split; [lia | lia | done |].
        intros j Hj. destruct (decide (j = a)) as [->|]; [done|].
        apply Hprev. lia.
      * intros (Hr & Hii & Hprev).
        assert (ii <> a) by (intros ->; congruence).
        repeat split; [lia | lia | done |]. intros j Hj. apply Hprev. lia.
    + split; [discriminate|]. intros (Hr & Hii & Hprev).
      destruct (decide (ii = a)) as [->|Hne]; [congruence|].
      rewrite (Hprev a) in Ha by lia. discriminate.
Qed.

Lemma scan_seq_None (n a : nat) :
  scan cond (seq a n) = Ok None <->
  forall j, (a <= j < a + n)%nat -> cond j = Ok false.
Proof.
  revert a. induction n as [|n IH]; intros a; simpl.
  - split; [intros _ j ?; lia | done].
  - destruct (cond a) as [[|]|e] eqn:Ha; simpl.
    + split; [discriminate|]. intros H. rewrite (H a) in Ha by lia. discriminate.
    + rewrite IH. split.
      * intros H j Hj. destruct (decide (j = a)) as [->|]; [done|]. apply H. lia.
      * intros H j Hj. apply H. lia.
    + split; [discriminate|]. intros H. rewrite (H a) in Ha by lia. discriminate.
Qed.

Lemma scan_seq_Raise (n a ii : nat) (e : exn) :
  (a <= ii < a + n)%nat -> cond ii = Raise e ->
  (forall j, (a <= j < ii)%nat -> cond j = Ok false) ->
  scan cond (seq a n) = Raise e.
Proof.
  revert a. induction n as [|n IH]; intros a Hr Hii Hprev; simpl; [lia|].
  destruct (decide (ii = a)) as [->|Hne].
  - rewrite Hii. reflexivity.
  - rewrite (Hprev a) by lia. simpl. apply IH; [lia | done |].
    intros j Hj. apply Hprev. lia.
Qed.

Lemma scan_seq_total (n a : nat) :
  (forall j, (a <= j < a + n)%nat -> exists b, cond j = Ok b) ->
  exists found, scan cond (seq a n) = Ok found.
Proof.
  revert a. induction n as [|n IH]; intros a H; simpl; [eauto|].
  destruct (H a) as [[|] ->]; [lia | simpl; eauto |]. simpl.
  apply IH. intros j Hj. apply H. lia.
Qed.

Lemma scan_seq_found_lt (n ii : nat) :
  scan cond (seq 0 n) = Ok (Some ii) -> (ii < n)%nat.
Proof. rewrite scan_seq_Some. lia. Qed.

End scan_facts.

(** ** The two loop conditions *)

Section cond_facts.
Import find_FWHM_py props.
Variable wav_interp : list Q.
Variable T_interp : Q -> Q.
Variable half_level wav_min wav_max : Q.

Local Abbreviation first_cond :=
  (first_cond wav_interp T_interp half_level wav_min wav_max).
Local Abbreviation second_cond :=
  (second_cond wav_interp T_interp half_level wav_min wav_max).
Local Abbreviation left_crossing :=
  (left_crossing wav_interp T_interp half_level wav_min wav_max).
Local Abbreviation right_crossing :=
  (right_crossing wav_interp T_interp half_level wav_min wav_max).

Lemma first_cond_ok (ii : nat) :
  (ii < length wav_interp)%nat ->
  exists b, first_cond ii = Ok b /\ (b = true <-> left_crossing ii).
Proof.
  intros Hlt.
  destruct (lookup_lt_is_Some_2 wav_interp ii Hlt) as [x Hx].
  assert (props.prev_index (length wav_interp) ii < length wav_interp)%nat
    as Hp by (destruct ii; simpl; lia).
  destruct (lookup_lt_is_Some_2 wav_interp _ Hp) as [xp Hxp].
  unfold find_FWHM_py.first_cond.
  rewrite (getitem_nat _ _ _ Hx), (getitem_pred _ _ _ Hlt Hxp). simpl.
  exists (np.ltb (T_interp x) half_level && np.ltb half_level (T_interp xp)
          && np.ltb (wav_min + 0.001) x && np.ltb x (wav_max - 0.005)).
  split.
  - destruct (np.ltb (T_interp x) half_level); simpl; [|done].
    destruct (np.ltb half_level (T_interp xp)); simpl; [|done].
    destruct (np.ltb (wav_min + 0.001) x); simpl; done.
  - rewrite !andb_true_iff, !ltb_lt. unfold props.left_crossing. split.
    + intros [[[? ?] ?] ?]. exists x, xp. done.
    + intros (x' & xp' & Hx' & Hxp' & ? & ? & ? & ?).
      rewrite Hx in Hx'. rewrite Hxp in Hxp'.
      injection Hx' as <-. injection Hxp' as <-. done.
Qed.

Lemma second_cond_ok (ii : nat) :
  (S ii < length wav_interp)%nat ->
  exists b, second_cond ii = Ok b /\ (b = true <-> right_crossing ii).
Proof.
  intros Hlt.
  destruct (lookup_lt_is_Some_2 wav_interp ii) as [x Hx]; [lia|].
  destruct (lookup_lt_is_Some_2 wav_interp (S ii) Hlt) as [xn Hxn].
  unfold find_FWHM_py.second_cond.
  rewrite getitem_succ, (getitem_nat _ _ _ Hx), (getitem_nat _ _ _ Hxn). simpl.
  exists (np.ltb (T_interp x) half_level && np.ltb half_level (T_interp xn)
          && np.ltb (wav_min + 0.005) x && np.ltb x (wav_max - 0.005)).
  split.
  - destruct (np.ltb (T_interp x) half_level); simpl; [|done].
    destruct (np.ltb half_level (T_interp xn)); simpl; [|done].
    destruct (np.ltb (wav_min + 0.005) x); simpl; done.
  - rewrite !andb_true_iff, !ltb_lt. unfold props.right_crossing. split.
    + intros [[[? ?] ?] ?]. exists x, xn. done.
    + intros (x' & xn' & Hx' & Hxn' & ? & ? & ? & ?).
      rewrite Hx in Hx'. rewrite Hxn in Hxn'.
      injection Hx' as <-. injection Hxn' as <-. done.
Qed.

(** At the last index the second condition reads one sample past the
    end as soon as the curve is below the half level there. *)
Lemma second_cond_last (ii : nat) (x : Q) :
  S ii = length wav_interp -> wav_interp !! ii = Some x ->
  second_cond ii =
    if np.ltb (T_interp x) half_level then Raise IndexError else Ok false.
Proof.
  intros Hlast Hx. unfold find_FWHM_py.second_cond.
  rewrite getitem_succ, (getitem_nat _ _ _ Hx).
  rewrite (getitem_out_of_range wav_interp (S ii)) by lia. simpl.
  destruct (np.ltb (T_interp x) half_level); reflexivity.
Qed.

Lemma right_crossing_lt (ii : nat) :
  right_crossing ii -> (S ii < length wav_interp)%nat.
Proof.
  intros (x & xn & _ & Hxn & _). apply (lookup_lt_Some _ _ _ Hxn).
Qed.

Lemma left_crossing_lt (ii : nat) :
  left_crossing ii -> (ii < length wav_interp)%nat.
Proof.
  intros (x & xn & Hx & _). apply (lookup_lt_Some _ _ _ Hx).
Qed.

Lemma first_scan_total :
  exists found,
    first_scan wav_interp T_interp half_level wav_min wav_max = Ok found.
Proof.
  apply scan_seq_total. intros j Hj.
  destruct (first_cond_ok j) as (b & Hb & _); [lia | eauto].
Qed.

Lemma first_scan_Some_iff (ii : nat) :
  first_scan wav_interp T_interp half_level wav_min wav_max = Ok (Some ii)
  <-> left_crossing ii /\ forall j, (j < ii)%nat -> ~ left_crossing j.
Proof.
  unfold first_scan. rewrite scan_seq_Some. split.
  - intros (Hr & Hii & Hprev).
    destruct (first_cond_ok ii) as (b & Hb & Hiff); [lia|].
    split; [apply Hiff; congruence|].
    intros j Hj Hc. destruct (first_cond_ok j) as (b' & Hb' & Hiff'); [lia|].
    apply Hiff' in Hc. rewrite Hprev in Hb' by lia. congruence.
  - intros (Hc & Hprev). pose proof (left_crossing_lt _ Hc) as Hlt.
    split; [lia|]. split.
    + destruct (first_cond_ok ii Hlt) as (b & Hb & Hiff).
      apply Hiff in Hc. congruence.
    + intros j Hj. destruct (first_cond_ok j) as ([|] & Hb & Hiff); [lia| |done].
      destruct (Hprev j); [lia | by apply Hiff].
Qed.

Lemma second_scan_Some_iff (ii : nat) :
  second_scan wav_interp T_interp half_level wav_min wav_max = Ok (Some ii)
  <-> right_crossing ii /\ forall j, (j < ii)%nat -> ~ right_crossing j.
Proof.
  unfold second_scan. rewrite scan_seq_Some. split.
  - intros (Hr & Hii & Hprev).
    assert (S ii < length wav_interp)%nat as Hlt.
    { destruct (decide (S ii = length wav_interp)) as [Hlast|]; [|lia].
      destruct (lookup_lt_is_Some_2 wav_interp ii) as [x Hx]; [lia|].
      rewrite (second_cond_last ii x Hlast Hx) in Hii.
      destruct (np.ltb (T_interp x) half_level); discriminate. }
    destruct (second_cond_ok ii Hlt) as (b & Hb & Hiff).
    split; [apply Hiff; congruence|].
    intros j Hj Hc. destruct (second_cond_ok j) as (b' & Hb' & Hiff'); [lia|].
    apply Hiff' in Hc. rewrite Hprev in Hb' by lia. congruence.
  - intros (Hc & Hprev). pose proof (right_crossing_lt _ Hc) as Hlt.
    split; [lia|]. split.
    + destruct (second_cond_ok ii Hlt) as (b & Hb & Hiff).
      apply Hiff in Hc. congruence.
    + intros j Hj. destruct (second_cond_ok j) as ([|] & Hb & Hiff); [lia| |done].
      destruct (Hprev j); [lia | by apply Hiff].
Qed.

Lemma second_scan_overrun (x : Q) :
  wav_interp !! (length wav_interp - 1)%nat = Some x ->
  (T_interp x < half_level)%Q ->
  (forall ii, (S ii < length wav_interp)%nat -> ~ right_crossing ii) ->
  second_scan wav_interp T_interp half_level wav_min wav_max
    = Raise IndexError.
Proof.
  intros Hx Hbelow Hnone.
  pose proof (lookup_lt_Some _ _ _ Hx) as Hlt.
  apply (scan_seq_Raise _ _ _ (length wav_interp - 1)); [lia | |].
  - rewrite (second_cond_last _ x) by (done || lia).
    apply ltb_lt in Hbelow. rewrite Hbelow. reflexivity.
  - intros j Hj. destruct (second_cond_ok j) as ([|] & Hb & Hiff); [lia| |done].
    destruct (Hnone j); [lia | by apply Hiff].
Qed.

End cond_facts.

(** C6 (amended): for every grid, interpolant and half level, the first
    loop breaks at [ii] exactly when [ii] is the first index at which the
    curve has just fallen below the half level and which lies more than
    0.001 above the smallest and more than 0.005 below the largest
    wavelength; the second loop breaks at [ii] exactly when [ii] is the
    first index at which the curve is below the half level and rises above
    it at the next sample, more than 0.005 away from both ends.  The margins
    are these absolute wavelength offsets, whatever the span. *)
Theorem crossing_scans_use_absolute_margins
    (wav_interp : list Q) (T_interp : Q -> Q)
    (half_level wav_min wav_max : Q) (ii : nat) :
  (find_FWHM_py.first_scan wav_interp T_interp half_level wav_min wav_max
     = Ok (Some ii)
   <-> props.left_crossing wav_interp T_interp half_level wav_min wav_max ii
       /\ forall j, (j < ii)%nat ->
            ~ props.left_crossing wav_interp T_interp half_level
                wav_min wav_max j)
  /\
  (find_FWHM_py.second_scan wav_interp T_interp half_level wav_min wav_max
     = Ok (Some ii)
   <-> props.right_crossing wav_interp T_interp half_level wav_min wav_max ii
       /\ forall j, (j < ii)%nat ->
            ~ props.right_crossing wav_interp T_interp half_level
                wav_min wav_max j).
Proof.
  split; [apply first_scan_Some_iff | apply second_scan_Some_iff].
Qed.

(** ** The resampled grid *)

Lemma length_linspace (start stop : Q) (num : nat) :
  length (np.linspace start stop num) = num.
Proof.
  unfold np.linspace. destruct (1 <? num)%nat.
  - rewrite length_insert, length_map, length_seq. reflexivity.
  - rewrite length_map, length_seq. reflexivity.
Qed.

Lemma lookup_linspace_0 (start stop : Q) (num : nat) :
  (1 < num)%nat ->
  np.linspace start stop num !! 0%nat
  = Some (inject_Z 0 * ((stop - start) / inject_Z (Z.of_nat (num - 1)))
          + start)%Q.
Proof.
  intros Hn. unfold np.linspace.
  apply Nat.ltb_lt in Hn as Hb. rewrite Hb.
  rewrite list_lookup_insert_ne by lia.
  rewrite list_lookup_fmap.
  destruct num as [|n]; [lia|]. reflexivity.
Qed.

Lemma lookup_linspace (start stop : Q) (num i : nat) (x : Q) :
  np.linspace start stop num !! i = Some x ->
  (start <= stop)%Q -> (start <= x)%Q.
Proof.
  unfold np.linspace. intros Hx Hle.
  set (step := ((stop - start) / inject_Z (Z.of_nat (num - 1)))%Q) in *.
  assert (0 <= step)%Q as Hstep.
  { unfold step. destruct (num - 1)%nat as [|k] eqn:Hk.
    - unfold Qdiv, Qinv. simpl. rewrite Qmult_0_r. apply Qle_refl.
    - apply Qle_shift_div_l.
      + change 0%Q with (inject_Z 0). rewrite <- Zlt_Qlt. lia.
      + lra. }
  assert (forall j y,
    map (fun i => (inject_Z (Z.of_nat i) * step + start)%Q) (seq 0 num) !! j
      = Some y -> (start <= y)%Q) as Hmap.
  { intros j y Hy. rewrite list_lookup_fmap in Hy.
    destruct (seq 0 num !! j) as [k|] eqn:Hk; [|discriminate].
    injection Hy as <-.
    assert (0 <= inject_Z (Z.of_nat k) * step)%Q; [|lra].
    apply Qmult_le_0_compat; [|exact Hstep].
    change 0%Q with (inject_Z 0). rewrite <- Zle_Qle. lia. }
  destruct (1 <? num)%nat; [|eauto].
  destruct (decide (i = (num - 1)%nat)) as [->|Hne].
  - rewrite list_lookup_insert_eq in Hx.
    + injection Hx as <-. exact Hle.
    + apply lookup_lt_Some in Hx. rewrite length_insert in Hx. exact Hx.
  - rewrite list_lookup_insert_ne in Hx by done. eauto.
Qed.

Lemma fold_min2_le (l : list Q) (x : Q) : (fold_left np.min2 l x <= x)%Q.
Proof.
  revert x. induction l as [|y l IH]; intros x; simpl; [apply Qle_refl|].
  eapply Qle_trans; [apply IH|]. unfold np.min2.
  destruct (np.ltb y x) eqn:E; [|apply Qle_refl].
  apply ltb_lt in E. apply Qlt_le_weak, E.
Qed.

Lemma fold_max2_ge (l : list Q) (x : Q) : (x <= fold_left np.max2 l x)%Q.
Proof.
  revert x. induction l as [|y l IH]; intros x; simpl; [apply Qle_refl|].
  eapply Qle_trans; [|apply IH]. unfold np.max2.
  destruct (np.ltb x y) eqn:E; [|apply Qle_refl].
  apply ltb_lt in E. apply Qlt_le_weak, E.
Qed.

Lemma fold_min2_le_max2 (l : list Q) (x y : Q) :
  (x <= y)%Q -> (fold_left np.min2 l x <= fold_left np.max2 l y)%Q.
Proof.
  intros Hxy. eapply Qle_trans; [apply fold_min2_le|].
  eapply Qle_trans; [exact Hxy | apply fold_max2_ge].
Qed.

Lemma min_le_max (a : list Q) (lo hi : Q) :
  np.min a = Ok lo -> np.max a = Ok hi -> (lo <= hi)%Q.
Proof.
  destruct a as [|x a]; [discriminate|]. simpl.
  intros [= <-] [= <-]. apply fold_min2_le_max2, Qle_refl.
Qed.

Lemma round_average_le (i0 i1 n : nat) :
  (i0 < n)%nat -> (i1 < n)%nat -> (np.round_average i0 i1 < n)%nat.
Proof.
  intros H0 H1. unfold np.round_average.
  pose proof (Nat.div_mod_eq (i0 + i1) 2) as Hdm.
  pose proof (Nat.mod_upper_bound (i0 + i1) 2 ltac:(lia)) as Hm.
  destruct (Nat.even (i0 + i1)) eqn:Ev.
  - lia.
  - destruct (Nat.even ((i0 + i1) / 2)); [lia|].
    assert ((i0 + i1) mod 2 = 1)%nat as Hodd.
    { rewrite <- Nat.negb_odd in Ev. apply negb_false_iff in Ev.
      apply Nat.odd_spec in Ev. destruct Ev as [k Hk].
      rewrite Hk. rewrite Nat.add_comm, Nat.mul_comm, Nat.Div0.mod_add.
      reflexivity. }
    lia.
Qed.

(** ** What [find_FWHM] does with a missing crossing *)

Section find_FWHM_facts.
Import find_FWHM_py.
Variable CubicSpline : list Q -> list Q -> result (Q -> Q).

Lemma crossings_inv (wav T : list Q) wav_interp found0 found1 :
  crossings CubicSpline wav T = Ok (wav_interp, found0, found1) ->
  exists wav_min wav_max T_interp half_level,
    np.min wav = Ok wav_min /\ np.max wav = Ok wav_max /\
    CubicSpline wav T = Ok T_interp /\
    wav_interp = np.linspace wav_min wav_max 1000 /\
    half_level_of (map T_interp wav_interp) = Ok half_level /\
    first_scan wav_interp T_interp half_level wav_min wav_max = Ok found0 /\
    second_scan wav_interp T_interp half_level wav_min wav_max = Ok found1.
Proof.
  unfold crossings. intros H.
  apply rbind_inv in H as (wav_min & E1 & H).
  apply rbind_inv in H as (wav_max & E2 & H).
  apply rbind_inv in H as (T_interp & E3 & H).
  apply rbind_inv in H as (half_level & E4 & H).
  apply rbind_inv in H as (f0 & E5 & H).
  apply rbind_inv in H as (f1 & E6 & H).
  injection H as <- <- <-.
  exists wav_min, wav_max, T_interp, half_level.
  repeat split; assumption || reflexivity.
Qed.

Lemma crossings_overrun (wav T : list Q) wav_min wav_max T_interp half_level :
  np.min wav = Ok wav_min -> np.max wav = Ok wav_max ->
  CubicSpline wav T = Ok T_interp ->
  half_level_of (map T_interp (np.linspace wav_min wav_max 1000))
    = Ok half_level ->
  second_scan (np.linspace wav_min wav_max 1000) T_interp half_level
    wav_min wav_max = Raise IndexError ->
  find_FWHM CubicSpline wav T = Raise IndexError.
Proof.
  intros E1 E2 E3 E4 E6. unfold find_FWHM, crossings.
  destruct (first_scan_total (np.linspace wav_min wav_max 1000) T_interp
              half_level wav_min wav_max) as [f0 E5].
  rewrite E1, rbind_Ok, E2, rbind_Ok, E3, rbind_Ok.
  cbv zeta. rewrite E4, rbind_Ok, E5, rbind_Ok, E6. reflexivity.
Qed.

End find_FWHM_facts.

(** C1 (amended): when a loop of [find_FWHM] ends without locating its
    crossing and both loops run to their end, no error is raised: the
    function returns [wav_interp[i1] - wav_interp[i0]] and the wavelength
    at the rounded mean index, an index never set counting as 0.  The
    returned width is 0 when neither crossing was located, and not positive
    whenever the right one was not. *)
Theorem find_FWHM_silent_on_missing_crossing
    (CubicSpline : list Q -> list Q -> result (Q -> Q))
    (wav T wav_interp : list Q) (found0 found1 : option nat) :
  find_FWHM_py.crossings CubicSpline wav T = Ok (wav_interp, found0, found1) ->
  found0 = None \/ found1 = None ->
  exists w0 w1 peak_wav,
    wav_interp !! default 0%nat found0 = Some w0 /\
    wav_interp !! default 0%nat found1 = Some w1 /\
    wav_interp !! np.round_average (default 0%nat found0)
                    (default 0%nat found1) = Some peak_wav /\
    find_FWHM_py.find_FWHM CubicSpline wav T = Ok ((w1 - w0)%Q, peak_wav) /\
    (found0 = None -> found1 = None -> (w1 - w0 == 0)%Q) /\
    (found1 = None -> (w1 - w0 <= 0)%Q).
Proof.
  intros Hc _.
  destruct (crossings_inv _ _ _ _ _ _ Hc)
    as (wav_min & wav_max & T_interp & half_level
        & E1 & E2 & E3 & Hgrid & E4 & E5 & E6).
  assert (length wav_interp = 1000%nat) as Hlen
    by (rewrite Hgrid; apply length_linspace).
  assert (default 0 found0 < 1000)%nat as H0.
  { destruct found0 as [i|]; simpl; [|lia].
    apply scan_seq_found_lt in E5. lia. }
  assert (default 0 found1 < 1000)%nat as H1.
  { destruct found1 as [i|]; simpl; [|lia].
    apply scan_seq_found_lt in E6. lia. }
  pose proof (round_average_le _ _ _ H0 H1) as Hp.
  destruct (lookup_lt_is_Some_2 wav_interp (default 0%nat found0)) as [w0 Hw0]; [lia|].
  destruct (lookup_lt_is_Some_2 wav_interp (default 0%nat found1)) as [w1 Hw1]; [lia|].
  destruct (lookup_lt_is_Some_2 wav_interp
              (np.round_average (default 0%nat found0) (default 0%nat found1)))
    as [pk Hpk]; [lia|].
  exists w0, w1, pk. repeat split; try done.
  - unfold find_FWHM_py.find_FWHM. rewrite Hc, rbind_Ok. cbv zeta.
    assert (np.getitem (find_FWHM_py.record_index 1 found1
              (find_FWHM_py.record_index 0 found0 [0%nat; 0%nat])) 1
            = Ok (default 0%nat found1)) as ->
      by (destruct found0, found1; reflexivity).
    rewrite rbind_Ok, (getitem_nat _ _ _ Hw1), rbind_Ok.
    assert (np.getitem (find_FWHM_py.record_index 1 found1
              (find_FWHM_py.record_index 0 found0 [0%nat; 0%nat])) 0
            = Ok (default 0%nat found0)) as ->
      by (destruct found0, found1; reflexivity).
    rewrite rbind_Ok, (getitem_nat _ _ _ Hw0), rbind_Ok.
    rewrite (getitem_nat _ _ _ Hpk). reflexivity.
  - intros -> ->. simpl in Hw0, Hw1. rewrite Hw0 in Hw1.
    injection Hw1 as <-. lra.
  - intros ->. simpl in Hw1.
    pose proof (min_le_max _ _ _ E1 E2) as Hle.
    rewrite Hgrid in Hw0, Hw1.
    assert (w1 == wav_min)%Q as Hw1'.
    { rewrite lookup_linspace_0 in Hw1 by lia. injection Hw1 as <-.
      change (inject_Z 0) with 0%Q. rewrite Qmult_0_l. apply Qplus_0_l. }
    pose proof (lookup_linspace _ _ _ _ _ Hw0 Hle) as Hge.
    lra.
Qed.

(** C10: whenever the resampled curve is below the half level at the last
    grid point (index 999) and no index before it qualifies as a right
    crossing, the second loop of [find_FWHM] reads [wav_interp[1000]] of the
    1000-sample grid: the loop, and with it [find_FWHM], ends in an
    IndexError.  The sample spectrum of the witness shows that such inputs
    exist. *)
Theorem find_FWHM_second_scan_out_of_bounds
    (CubicSpline : list Q -> list Q -> result (Q -> Q))
    (wav T : list Q) (wav_min wav_max : Q) (T_interp : Q -> Q)
    (half_level x : Q) :
  np.min wav = Ok wav_min ->
  np.max wav = Ok wav_max ->
  CubicSpline wav T = Ok T_interp ->
  find_FWHM_py.half_level_of
    (map T_interp (np.linspace wav_min wav_max 1000)) = Ok half_level ->
  np.linspace wav_min wav_max 1000 !! 999%nat = Some x ->
  (T_interp x < half_level)%Q ->
  (forall ii, (ii < 999)%nat ->
     ~ props.right_crossing (np.linspace wav_min wav_max 1000) T_interp
         half_level wav_min wav_max ii) ->
  length (np.linspace wav_min wav_max 1000) = 1000%nat /\
  np.getitem (np.linspace wav_min wav_max 1000) 1000 = Raise IndexError /\
  find_FWHM_py.second_scan (np.linspace wav_min wav_max 1000) T_interp
    half_level wav_min wav_max = Raise IndexError /\
  find_FWHM_py.find_FWHM CubicSpline wav T = Raise IndexError.
Proof.
  intros E1 E2 E3 E4 Hx Hbelow Hnone.
  pose proof (length_linspace wav_min wav_max 1000) as Hlen.
  assert (find_FWHM_py.second_scan (np.linspace wav_min wav_max 1000)
            T_interp half_level wav_min wav_max = Raise IndexError) as Hscan.
  { apply (second_scan_overrun _ _ _ _ _ x).
    - rewrite Hlen. exact Hx.
    - exact Hbelow.
    - intros ii Hii. apply Hnone. lia. }
  split; [exact Hlen|]. split; [|split; [exact Hscan|]].
  - apply (getitem_out_of_range _ 1000). rewrite Hlen. apply Nat.le_refl.
  - exact (crossings_overrun _ _ _ _ _ _ _ E1 E2 E3 E4 Hscan).
Qed.

(** ** The sample spectra *)

Lemma right_crossingb_spec wav_interp T_interp half_level wav_min wav_max ii :
  props.right_crossingb wav_interp T_interp half_level wav_min wav_max ii = true
  <-> props.right_crossing wav_interp T_interp half_level wav_min wav_max ii.
Proof.
  unfold props.right_crossingb, props.right_crossing. split.
  - destruct (wav_interp !! ii) as [x|]; [|discriminate].
    destruct (wav_interp !! S ii) as [xn|]; [|discriminate].
    rewrite !andb_true_iff, !ltb_lt. intros [[[? ?] ?] ?]. exists x, xn. done.
  - intros (x & xn & -> & -> & ? & ? & ? & ?).
    rewrite !andb_true_iff, !ltb_lt. done.
Qed.

Lemma forallb_seq_below (p : nat -> bool) (n : nat) :
  forallb p (seq 0 n) = true -> forall ii, (ii < n)%nat -> p ii = true.
Proof.
  rewrite forallb_forall. intros H ii Hii. apply H, in_seq. lia.
Qed.

(** C1 (counterexample): on the flat curve neither loop locates a crossing,
    and [find_FWHM] returns a width of 0 instead of raising. *)
Lemma flat_curve_returns_zero_width :
  (exists r, find_FWHM_py.find_FWHM samples.CubicSpline4
               samples.wav4 samples.T_flat = Ok r /\ (fst r == 0)%Q) /\
  ~ props.missing_crossing_raises samples.CubicSpline4
      samples.wav4 samples.T_flat.
Proof.
  assert (exists r, find_FWHM_py.find_FWHM samples.CubicSpline4
                      samples.wav4 samples.T_flat = Ok r /\ (fst r == 0)%Q)
    as Hret.
  { eexists. split; [vm_compute; reflexivity | vm_compute; reflexivity]. }
  split; [exact Hret|].
  intros Hclaim. destruct Hret as (r & Hr & _).
  destruct (Hclaim (np.linspace (77 # 50) (39 # 25) 1000) None None)
    as [e He].
  - vm_compute. reflexivity.
  - left. reflexivity.
  - rewrite Hr in He. discriminate.
Qed.

(** C1 (witness): the flat curve. *)
Lemma find_FWHM_silent_on_flat_curve :
  find_FWHM_py.crossings samples.CubicSpline4 samples.wav4 samples.T_flat
    = Ok (np.linspace (77 # 50) (39 # 25) 1000, None, None) /\
  exists w0 w1 peak_wav,
    np.linspace (77 # 50) (39 # 25) 1000 !! 0%nat = Some w0 /\
    np.linspace (77 # 50) (39 # 25) 1000 !! 0%nat = Some w1 /\
    np.linspace (77 # 50) (39 # 25) 1000 !! np.round_average 0 0
      = Some peak_wav /\
    find_FWHM_py.find_FWHM samples.CubicSpline4 samples.wav4 samples.T_flat
      = Ok ((w1 - w0)%Q, peak_wav) /\
    (@None nat = None -> @None nat = None -> (w1 - w0 == 0)%Q) /\
    (@None nat = None -> (w1 - w0 <= 0)%Q).
Proof.
  assert (find_FWHM_py.crossings samples.CubicSpline4 samples.wav4
            samples.T_flat
          = Ok (np.linspace (77 # 50) (39 # 25) 1000, None, None)) as Hc
    by (vm_compute; reflexivity).
  split; [exact Hc|].
  apply (find_FWHM_silent_on_missing_crossing samples.CubicSpline4
           samples.wav4 samples.T_flat _ None None Hc).
  left. reflexivity.
Defined.

(** C6 (counterexample): on the dip sampled between 1.54 and 1.56 the curve
    rises back through the half level at grid index 852, about 0.003 below
    the largest wavelength.  That is inside a margin of 0.5 % of the span
    (0.0001), but not inside the margin of 0.005 that the code applies: its
    second loop locates nothing. *)
Lemma dip_right_crossing_outside_absolute_margin :
  (exists T_interp half_level,
     samples.CubicSpline4 samples.wav4 samples.T_dip = Ok T_interp /\
     find_FWHM_py.half_level_of
       (map T_interp (np.linspace (77 # 50) (39 # 25) 1000)) = Ok half_level /\
     find_FWHM_py.second_scan (np.linspace (77 # 50) (39 # 25) 1000)
       T_interp half_level (77 # 50) (39 # 25) = Ok None /\
     props.second_scan_fraction (np.linspace (77 # 50) (39 # 25) 1000)
       T_interp half_level (77 # 50) (39 # 25) = Ok (Some 852%nat)) /\
  ~ props.margins_are_fractions samples.CubicSpline4
      samples.wav4 samples.T_dip.
Proof.
  assert (exists T_interp half_level,
     samples.CubicSpline4 samples.wav4 samples.T_dip = Ok T_interp /\
     find_FWHM_py.half_level_of
       (map T_interp (np.linspace (77 # 50) (39 # 25) 1000)) = Ok half_level /\
     find_FWHM_py.second_scan (np.linspace (77 # 50) (39 # 25) 1000)
       T_interp half_level (77 # 50) (39 # 25) = Ok None /\
     props.second_scan_fraction (np.linspace (77 # 50) (39 # 25) 1000)
       T_interp half_level (77 # 50) (39 # 25) = Ok (Some 852%nat)) as Hrun.
  { eexists. eexists. split; [reflexivity|].
    split; [vm_compute; reflexivity|].
    split; vm_compute; reflexivity. }
  split; [exact Hrun|].
  intros Hclaim.
  destruct Hrun as (T_interp & half_level & E3 & E4 & Hcode & Hspec).
  destruct (Hclaim (77 # 50) (39 # 25) T_interp half_level) as [_ Heq];
    [reflexivity | reflexivity | exact E3 | exact E4 |].
  rewrite Hcode, Hspec in Heq. discriminate.
Qed.

(** C10 (witness): the curve that falls linearly from 1 to 0 is below the
    half level at the last grid point and never rises. *)
Lemma find_FWHM_out_of_bounds_on_falling_curve :
  exists half_level,
    length (np.linspace (77 # 50) (39 # 25) 1000) = 1000%nat /\
    np.getitem (np.linspace (77 # 50) (39 # 25) 1000) 1000
      = Raise IndexError /\
    find_FWHM_py.second_scan (np.linspace (77 # 50) (39 # 25) 1000)
      (samples.interpolating_polynomial samples.wav4 samples.T_fall)
      half_level (77 # 50) (39 # 25) = Raise IndexError /\
    find_FWHM_py.find_FWHM samples.CubicSpline4 samples.wav4 samples.T_fall
      = Raise IndexError.
Proof.
  eexists.
  eapply (find_FWHM_second_scan_out_of_bounds samples.CubicSpline4
            samples.wav4 samples.T_fall (77 # 50) (39 # 25)
            (samples.interpolating_polynomial samples.wav4 samples.T_fall)
            _ (39 # 25)).
  - reflexivity.
  - reflexivity.
  - reflexivity.
  - vm_compute. reflexivity.
  - vm_compute. reflexivity.
  - vm_compute. reflexivity.
  - intros ii Hii Hc. apply right_crossingb_spec in Hc.
    assert (let grid := np.linspace (77 # 50) (39 # 25) 1000 in
            let fn := samples.interpolating_polynomial samples.wav4
                        samples.T_fall in
            forallb (fun i => negb (props.right_crossingb grid fn
                                      (976562500000000 # 1953125000000000)
                                      (77 # 50) (39 # 25) i))
              (seq 0 999) = true) as Hall by (vm_compute; reflexivity).
    cbv zeta in Hall.
    pose proof (forallb_seq_below _ _ Hall ii Hii) as Hn. cbv beta in Hn.
    rewrite Hc in Hn. discriminate.
Defined.

(** ** The largest element *)

Lemma fold_max2_spec (l : list Q) (x : Q) :
  let m := fold_left np.max2 l x in
  (m = x \/ m ∈ l) /\ (x <= m)%Q /\ forall y, y ∈ l -> (y <= m)%Q.
Proof.
  revert x. induction l as [|z l IH]; intros x; simpl.
  - split; [by left|]. split; [apply Qle_refl|]. intros y Hy. inv Hy.
  - destruct (IH (np.max2 x z)) as (Hin & Hge & Hall).
    assert (x <= np.max2 x z /\ z <= np.max2 x z)%Q as [Hx Hz].
    { unfold np.max2. destruct (np.ltb x z) eqn:E.
      - apply ltb_lt in E. split; [lra | apply Qle_refl].
      - apply ltb_ge in E. split; [apply Qle_refl | exact E]. }
    split; [|split].
    + destruct Hin as [Hin|Hin]; [|right; by right].
      rewrite Hin. unfold np.max2. destruct (np.ltb x z); [right; left | by left].
    + lra.
    + intros y Hy. inv Hy; [lra | by apply Hall].
Qed.

Lemma np_max_spec (a : list Q) (m : Q) :
  np.max a = Ok m -> m ∈ a /\ forall y, y ∈ a -> (y <= m)%Q.
Proof.
  destruct a as [|x a]; [discriminate|]. simpl. intros [= <-].
  destruct (fold_max2_spec a x) as (Hin & Hge & Hall). split.
  - destruct Hin as [->|Hin]; [left | by right].
  - intros y Hy. inv Hy; [exact Hge | by apply Hall].
Qed.

Lemma np_max_nonempty (a : list Q) (x : Q) :
  x ∈ a -> exists m, np.max a = Ok m.
Proof. destruct a; [by inversion 1 | simpl; eauto]. Qed.

(** Dividing by the largest element, when it is positive, makes the
    largest element 1; flipping the array does not change that. *)
Lemma max_of_normalised (T0 : list Q) (m : Q) :
  np.max T0 = Ok m -> (0 < m)%Q ->
  exists m', np.max (np.flip (map (fun x => (x / m)%Q) T0)) = Ok m'
             /\ (m' == 1)%Q.
Proof.
  intros Hmax Hpos. destruct (np_max_spec _ _ Hmax) as [Hin Hall].
  assert ((m / m)%Q ∈ np.flip (map (fun x => (x / m)%Q) T0)) as Hin'.
  { unfold np.flip. apply elem_of_reverse.
    apply (list_elem_of_fmap_2 (fun x => (x / m)%Q)). exact Hin. }
  destruct (np_max_nonempty _ _ Hin') as [m' Hm']. exists m'.
  split; [exact Hm'|].
  destruct (np_max_spec _ _ Hm') as [Hm'in Hm'all].
  assert (m / m == 1)%Q as Hone by (field; lra).
  apply Qle_antisym.
  - unfold np.flip in Hm'in. apply (proj1 (elem_of_reverse _ _)) in Hm'in.
    apply list_elem_of_fmap in Hm'in as (x & -> & Hx).
    apply Qle_shift_div_r; [exact Hpos|]. specialize (Hall x Hx). lra.
  - rewrite <- Hone. apply Hm'all, Hin'.
Qed.

(** ** Order of the wavelengths *)

Lemma flip_descending_ascending (l : list Q) :
  Sorted (flip Qlt) l -> Sorted Qlt (np.flip l).
Proof. intros H. apply (Sorted_reverse (flip Qlt)) in H. exact H. Qed.

Lemma scaled_descending (l : list Q) :
  Sorted (flip Qlt) l ->
  Sorted (flip Qlt) (map (fun x => (x * 1000000)%Q) l).
Proof.
  apply (Sorted_fmap (fun x => (x * 1000000)%Q)).
  unfold flip. intros x y Hxy. lra.
Qed.

Lemma Sorted_positive (l : list Q) :
  Sorted Qlt l -> Forall (fun x => (0 < x)%Q) l ->
  Sorted (fun x y => (0 < x)%Q /\ (x < y)%Q) l.
Proof.
  induction 1 as [|x l Hs IH Hhd]; intros Hpos; [constructor|].
  inv Hpos. constructor; [by apply IH|].
  destruct Hhd; constructor. done.
Qed.

Lemma wavelengths_descending (fs : list Q) :
  Sorted Qlt fs -> Forall (fun x => (0 < x)%Q) fs ->
  Sorted (flip Qlt) (map (fun fr => (data_analysis.C_0 / fr)%Q) fs).
Proof.
  intros Hs Hpos.
  apply (Sorted_fmap _ (fun x y => (0 < x)%Q /\ (x < y)%Q));
    [|by apply Sorted_positive].
  unfold flip. intros x y [Hx Hxy].
  unfold Qdiv. apply Qmult_lt_l; [reflexivity|].
  apply -> Qinv_lt_contravar; [exact Hxy | lra | exact Hx].
Qed.

(** C4 (amended): when the wavelength column of the Lumerical port result
    is strictly descending, respectively the frequencies of the tidy3d
    monitor are positive and strictly ascending (the order in which the
    engines write them), and the largest power of the first mode is
    positive, the reader returns strictly ascending wavelengths and a power
    sequence whose largest element is 1. *)
Theorem readers_canonical_on_ordered_positive_data
    (lumapi_getresult :
       string -> string -> string -> result (gmap string (list (list Q))))
    (SimulationData_from_file :
       string -> result (gmap string data_analysis.mode_data))
    (fname : string) :
  (forall temp T_net lam wav0 T0 m,
     lumapi_getresult fname "FDTD::ports::o2" "expansion for port monitor"
       = Ok temp ->
     temp !! "T_net" = Some T_net -> temp !! "lambda" = Some lam ->
     find_FWHM_py.column0 lam = Ok wav0 ->
     find_FWHM_py.column0 T_net = Ok T0 ->
     Sorted (flip Qlt) wav0 ->
     np.max T0 = Ok m -> (0 < m)%Q ->
     exists spectrum,
       find_FWHM_py.read_lumerical_output lumapi_getresult fname
         = Ok spectrum /\ props.canonical spectrum)
  /\
  (forall sim_data mode_data T0 m,
     SimulationData_from_file fname = Ok sim_data ->
     sim_data !! "o2 mode" = Some mode_data ->
     Sorted Qlt (data_analysis.f mode_data) ->
     Forall (fun fr => (0 < fr)%Q) (data_analysis.f mode_data) ->
     find_FWHM_py.column0
       (map (map data_analysis.abs2) (data_analysis.amps_plus mode_data))
       = Ok T0 ->
     np.max T0 = Ok m -> (0 < m)%Q ->
     exists spectrum,
       find_FWHM_py.read_tidy3d_output SimulationData_from_file fname
         = Ok spectrum /\ props.canonical spectrum).
Proof.
  split.
  - intros temp T_net lam wav0 T0 m Hres HT Hlam Hwav HT0 Hdesc Hmax Hpos.
    eexists. split.
    + unfold find_FWHM_py.read_lumerical_output, dict_getitem.
      rewrite Hres, rbind_Ok, HT, rbind_Ok, Hlam, rbind_Ok, Hwav, rbind_Ok.
      cbv zeta. rewrite HT0, rbind_Ok, Hmax, rbind_Ok. reflexivity.
    + split; simpl.
      * apply flip_descending_ascending, scaled_descending, Hdesc.
      * apply max_of_normalised; done.
  - intros sim_data mode_data T0 m Hfile Hmon Hasc Hfpos HT0 Hmax Hpos.
    eexists. split.
    + unfold find_FWHM_py.read_tidy3d_output,
        data_analysis.read_mode_monitor_from_file, data_analysis.read_body.
      rewrite Hfile, rbind_Ok, Hmon, rbind_Ok. cbv zeta.
      rewrite rbind_Ok, HT0, rbind_Ok, Hmax, rbind_Ok. reflexivity.
    + split; simpl.
      * apply flip_descending_ascending, wavelengths_descending; done.
      * apply max_of_normalised; done.
Qed.

(** C4 (witness): the two sample result files. *)
Lemma readers_canonical_on_samples :
  (exists spectrum,
     find_FWHM_py.read_lumerical_output samples.port_file "run_FDTD.fsp"
       = Ok spectrum /\ props.canonical spectrum) /\
  (exists spectrum,
     find_FWHM_py.read_tidy3d_output samples.ascending_file "run_results.hdf5"
       = Ok spectrum /\ props.canonical spectrum).
Proof.
  destruct (readers_canonical_on_ordered_positive_data
              samples.port_file samples.ascending_file "run_FDTD.fsp")
    as [Hlum _].
  destruct (readers_canonical_on_ordered_positive_data
              samples.port_file samples.ascending_file "run_results.hdf5")
    as [_ Htd].
  split.
  - apply (Hlum samples.port_result
             [[2 # 5; 0]; [4 # 5; 0]]%Q
             [[156 # 100000000]; [154 # 100000000]]%Q
             [156 # 100000000; 154 # 100000000]%Q [2 # 5; 4 # 5]%Q (4 # 5)%Q);
      try reflexivity.
    repeat constructor.
  - apply (Htd {[ "o2 mode" := samples.ascending_monitor ]}
             samples.ascending_monitor [(1 # 2) * (1 # 2) + 0 * 0; 0 * 0 + 1 * 1]%Q
             (0 * 0 + 1 * 1)%Q); try reflexivity.
    + repeat constructor.
    + repeat constructor.
Defined.

(** C4 (counterexample): a tidy3d result file whose monitor lists its
    frequencies in descending order is read without error, and the
    wavelengths returned are descending. *)
Lemma descending_frequencies_stay_descending :
  (exists wav T,
     find_FWHM_py.read_tidy3d_output samples.descending_file "run_results.hdf5"
       = Ok (wav, T) /\ ~ Sorted Qlt wav) /\
  ~ props.readers_always_canonical.
Proof.
  assert (exists wav T,
     find_FWHM_py.read_tidy3d_output samples.descending_file "run_results.hdf5"
       = Ok (wav, T) /\ ~ Sorted Qlt wav) as Hrun.
  { eexists. eexists. split; [reflexivity|].
    intros Hs. inv Hs. match goal with H : HdRel _ _ _ |- _ => inv H end.
    match goal with H : (_ < _)%Q |- _ => vm_compute in H; discriminate end. }
  split; [exact Hrun|]. intros Hclaim.
  destruct Hrun as (wav & T & Hread & Hnot).
  destruct (Hclaim samples.port_file samples.descending_file
              "run_results.hdf5" (wav, T)) as [_ Hc].
  destruct (Hc Hread) as [Hs _]. exact (Hnot Hs).
Qed.

(** ** The state-and-exception monad *)

Lemma mbind_Ok {A B} (c : M A) (k : A -> M B) (w w' : world) (a : A) :
  c w = (Ok a, w') -> mbind c k w = k a w'.
Proof. unfold mbind. intros ->. reflexivity. Qed.

Lemma mbind_Raise {A B} (c : M A) (k : A -> M B) (w w' : world) (e : exn) :
  c w = (Raise e, w') -> mbind c k w = (Raise e, w').
Proof. unfold mbind. intros ->. reflexivity. Qed.

Lemma mbind_inv {A B} (c : M A) (k : A -> M B) (w w2 : world) (b : B) :
  mbind c k w = (Ok b, w2) ->
  exists a w1, c w = (Ok a, w1) /\ k a w1 = (Ok b, w2).
Proof.
  unfold mbind. destruct (c w) as [[a|e] w1]; [eauto | discriminate].
Qed.

Lemma lift_inv {A} (r : result A) (w w' : world) (a : A) :
  lift r w = (Ok a, w') -> r = Ok a /\ w' = w.
Proof. unfold lift. intros [= -> ->]. done. Qed.

Lemma try_except_inv {A} (body : M A) clauses (w w' : world) (a : A) :
  try_except body clauses w = (Ok a, w') ->
  body w = (Ok a, w') \/
  exists e w1, body w = (Raise e, w1) /\ handle e clauses w1 = (Ok a, w').
Proof.
  unfold try_except. destruct (body w) as [[a'|e] w1]; [left | right]; eauto.
Qed.

Lemma try_except_Ok {A} (body : M A) clauses (w w' : world) (a : A) :
  body w = (Ok a, w') -> try_except body clauses w = (Ok a, w').
Proof. unfold try_except. intros ->. reflexivity. Qed.

Lemma outcome_None {A} (d : A) (o : result A * world) :
  outcome o = None -> o = (Ok (returned d o), snd o).
Proof.
  unfold outcome, returned. destruct o as [[a|e] w]; simpl; [done|discriminate].
Qed.


(** A handler that re-raises changes nothing. *)
Lemma try_except_reraise {A} (body : M A) (cls : exn) (w : world) :
  try_except body [(cls, fun e => mraise e)] w = body w.
Proof.
  unfold try_except. destruct (body w) as [[a|e] w1]; [reflexivity|].
  simpl. destruct (isinstance e cls); reflexivity.
Qed.

(** ** The sidecar and its directory *)

Lemma makedirs_empty (w : world) :
  os.makedirs "" w = (Raise FileNotFoundError, w).
Proof. reflexivity. Qed.

(** C9: [write_to_json] calls [os.makedirs(os.path.dirname(json_name))]
    also when [json_name] has no directory part; [dirname] is then the
    empty path, which [makedirs] rejects with FileNotFoundError, and
    nothing is written.  The default output base name [test_<timestamp>]
    is such a name. *)
Theorem write_to_json_rejects_bare_name
    (dict_name : gmap string pyval) (json_name : string) (w : world) :
  os.dirname json_name = "" ->
  misc.write_to_json dict_name json_name w = (Raise FileNotFoundError, w).
Proof.
  intros Hdir. unfold misc.write_to_json. rewrite try_except_reraise.
  rewrite Hdir. apply mbind_Raise, makedirs_empty.
Qed.

(** C9 (witness): the lumerical defaults at 2024-01-01 12:00:00, with only
    the geometry file overridden.  The sidecar cannot be written, so the
    call ends in FileNotFoundError before the geometry is copied or the
    engine is called. *)
Lemma default_file_name_cannot_be_saved :
  misc.write_to_json samples.complex_job "test_20240101120000.json"
    samples.project = (Raise FileNotFoundError, samples.project) /\
  let run := lumerical.simulate_predefined_gds "20240101120000"
               samples.idle_engine samples.geometry_only samples.project in
  outcome run = Some FileNotFoundError /\
  os.exists_ "test_20240101120000.json" (snd run) = false /\
  os.exists_ "test_20240101120000.gds" (snd run) = false /\
  length (props.engine_calls (snd run)) = 0%nat.
Proof.
  split.
  - apply (write_to_json_rejects_bare_name samples.complex_job
             "test_20240101120000.json" samples.project).
    reflexivity.
  - cbv zeta. repeat split; vm_compute; reflexivity.
Defined.

(** ** Parameter resolution *)

Lemma validate_file_path_spec (path : string) (w : world) :
  misc.validate_file_path (PStr path) w =
    if negb (os.exists_ path w) then (Raise FileNotFoundError, w)
    else if negb (os.can_read path w) then (Raise PermissionError, w)
    else (Ok true, w).
Proof.
  unfold misc.validate_file_path, os.path_exists, os.access_R_OK, gets, mbind.
  destruct (os.exists_ path w); [|reflexivity]. simpl.
  destruct (os.can_read path w); reflexivity.
Qed.

Lemma load_config_preserves (p : gmap string pyval) (w w1 : world) r :
  simulate_device.load_config p w = (r, w1) ->
  files w1 = files w /\ dirs w1 = dirs w /\ stdin w1 = stdin w.
Proof.
  unfold simulate_device.load_config, try_except, mbind, misc.open_r.
  destruct (os.isdir "config.json" w).
  { simpl. intros [= <- <-]. done. }
  destruct (os.isfile "config.json" w); simpl.
  2:{ intros [= <- <-]. done. }
  destruct (files w !! "config.json") as [fl|]; simpl.
  2:{ intros [= <- <-]. done. }
  destruct (readable fl); simpl.
  2:{ intros [= <- <-]. done. }
  unfold lift. destruct (misc.json_load (content fl)) as [c|e]; simpl.
  - intros [= <- <-]. done.
  - destruct (isinstance e FileNotFoundError); simpl;
      [intros [= <- <-]; done|].
    destruct (isinstance e JSONDecodeError); simpl; intros [= <- <-]; done.
Qed.

Lemma exists_preserved (path : string) (w w1 : world) :
  files w1 = files w -> dirs w1 = dirs w ->
  os.exists_ path w1 = os.exists_ path w /\
  os.can_read path w1 = os.can_read path w.
Proof.
  intros Hf Hd. unfold os.exists_, os.can_read, os.isfile, os.isdir.
  rewrite Hf, Hd. done.
Qed.

Lemma resolve_unfold (defaults parameters : gmap string pyval)
    (w w1 : world) (pc : gmap string pyval) :
  simulate_device.load_config defaults w = (Ok pc, w1) ->
  simulate_device.resolve defaults parameters w =
    let p := parameters ∪ pc in
    match truthy (default PNone (p !! "predefined_gds")) with
    | Raise e => (Raise e, w1)
    | Ok false => (Raise ValueError, w1)
    | Ok true =>
        match p !! "predefined_gds" with
        | None => (Raise KeyError, w1)
        | Some path =>
            match misc.validate_file_path path w1 with
            | (Raise e, w2) => (Raise e, w2)
            | (Ok _, w2) =>
                match p !! "file_name" with
                | None => (Raise KeyError, w2)
                | Some file_name =>
                    match add_str file_name ".gds" with
                    | Raise e => (Raise e, w2)
                    | Ok gds_file =>
                        (Ok (<["gds_file" := PStr gds_file]> p), w2)
                    end
                end
            end
        end
    end.
Proof.
  intros Hc. unfold simulate_device.resolve.
  rewrite (mbind_Ok _ _ _ _ _ Hc). cbv zeta.
  unfold mbind at 1. unfold lift at 1.
  destruct (truthy _) as [[|]|e]; simpl; try reflexivity.
  unfold mbind at 1. unfold lift at 1. unfold dict_getitem.
  destruct ((parameters ∪ pc) !! "predefined_gds") as [path|];
    [|reflexivity].
  unfold mbind at 1. rewrite try_except_reraise.
  destruct (misc.validate_file_path path w1) as [[b|e] w2]; [|reflexivity].
  unfold mbind at 1. unfold lift at 1.
  destruct ((parameters ∪ pc) !! "file_name") as [file_name|];
    [|reflexivity].
  unfold mbind at 1. unfold lift at 1.
  destruct (add_str file_name ".gds"); reflexivity.
Qed.

Lemma resolve_inv (defaults parameters : gmap string pyval)
    (w w' : world) (p : gmap string pyval) :
  simulate_device.resolve defaults parameters w = (Ok p, w') ->
  exists pc file_name path,
    simulate_device.load_config defaults w = (Ok pc, w') /\
    (parameters ∪ pc) !! "file_name" = Some (PStr file_name) /\
    (parameters ∪ pc) !! "predefined_gds" = Some (PStr path) /\
    os.exists_ path w' = true /\ os.can_read path w' = true /\
    p = <["gds_file" := PStr (file_name ++ ".gds")]> (parameters ∪ pc).
Proof.
  intros H.
  destruct (simulate_device.load_config defaults w) as [[pc|e] w1] eqn:Hc.
  2:{ unfold simulate_device.resolve in H.
      rewrite (mbind_Raise _ _ _ _ _ Hc) in H. discriminate. }
  rewrite (resolve_unfold _ _ _ _ _ Hc) in H. cbv zeta in H.
  destruct (truthy _) as [[|]|e]; try discriminate.
  destruct ((parameters ∪ pc) !! "predefined_gds") as [path|] eqn:Hp;
    [|discriminate].
  destruct path as [| | | | |path| | | | |];
    try (simpl in H; discriminate).
  rewrite validate_file_path_spec in H.
  destruct (os.exists_ path w1) eqn:Hex; [|discriminate]. simpl in H.
  destruct (os.can_read path w1) eqn:Hrd; [|discriminate]. simpl in H.
  destruct ((parameters ∪ pc) !! "file_name") as [fn|] eqn:Hfn;
    [|discriminate].
  destruct fn as [| | | | |fn| | | | |]; try (simpl in H; discriminate).
  simpl in H. injection H as <- <-.
  exists pc, fn, path. done.
Qed.

(** C3 (amended): in the resolved descriptor every key of the overrides
    other than the derived key [gds_file] has exactly the overriding value,
    whatever config.json and the defaults say; [gds_file] is always the
    output base name followed by [.gds]. *)
Theorem overrides_win_except_gds_file
    (defaults parameters : gmap string pyval) (w w' : world)
    (p : gmap string pyval) :
  simulate_device.resolve defaults parameters w = (Ok p, w') ->
  (forall k v, k <> "gds_file" -> parameters !! k = Some v ->
     p !! k = Some v) /\
  exists file_name,
    p !! "file_name" = Some (PStr file_name) /\
    p !! "gds_file" = Some (PStr (file_name ++ ".gds")).
Proof.
  intros H.
  destruct (resolve_inv _ _ _ _ _ H)
    as (pc & fn & path & _ & Hfn & _ & _ & _ & ->).
  split.
  - intros k v Hk Hv. rewrite lookup_insert_ne by done.
    by apply lookup_union_Some_l.
  - exists fn. split.
    + rewrite lookup_insert_ne by done. exact Hfn.
    + apply lookup_insert_eq.
Qed.

(** C3 (witness): the overrides of a device script. *)
Lemma overrides_win_for_coupler_job :
  exists p w',
    lumerical.resolve "20240101120000" samples.coupler_job samples.project
      = (Ok p, w') /\
    (forall k v, k <> "gds_file" -> samples.coupler_job !! k = Some v ->
       p !! k = Some v) /\
    exists file_name,
      p !! "file_name" = Some (PStr file_name) /\
      p !! "gds_file" = Some (PStr (file_name ++ ".gds")).
Proof.
  unfold lumerical.resolve.
  assert (outcome (simulate_device.resolve
                     (lumerical.defaults "20240101120000")
                     samples.coupler_job samples.project) = None) as Hok
    by (vm_compute; reflexivity).
  apply (outcome_None ∅) in Hok.
  eexists. eexists. split; [exact Hok|].
  exact (overrides_win_except_gds_file _ _ _ _ _ Hok).
Defined.

(** C3 (counterexample): an override of [gds_file] is replaced by the
    derived value. *)
Lemma gds_file_override_is_replaced :
  (exists p w',
     lumerical.resolve "20240101120000" samples.coupler_job_with_gds_file
       samples.project = (Ok p, w') /\
     samples.coupler_job_with_gds_file !! "gds_file" = Some (PStr "mine.gds") /\
     p !! "gds_file" = Some (PStr "out/run.gds")) /\
  ~ props.overrides_always_win (lumerical.defaults "20240101120000").
Proof.
  assert (exists p w',
     lumerical.resolve "20240101120000" samples.coupler_job_with_gds_file
       samples.project = (Ok p, w') /\
     samples.coupler_job_with_gds_file !! "gds_file" = Some (PStr "mine.gds") /\
     p !! "gds_file" = Some (PStr "out/run.gds")) as Hrun.
  { unfold lumerical.resolve.
    assert (outcome (simulate_device.resolve
                       (lumerical.defaults "20240101120000")
                       samples.coupler_job_with_gds_file samples.project)
            = None) as Hok by (vm_compute; reflexivity).
    apply (outcome_None ∅) in Hok.
    eexists. eexists. split; [exact Hok|]. split; [reflexivity|].
    vm_compute. reflexivity. }
  split; [exact Hrun|]. intros Hclaim.
  destruct Hrun as (p & w' & Hres & Hov & Hp).
  rewrite (Hclaim _ _ _ _ Hres _ _ Hov) in Hp. discriminate.
Qed.

(** C7 (amended): once the three layers are merged, resolution fails with
    ValueError when the geometry path is empty (or any other false value),
    with FileNotFoundError when the path does not exist, and with
    PermissionError, which is no FileNotFoundError, when it exists but
    cannot be read. *)
Theorem geometry_path_errors
    (defaults parameters : gmap string pyval) (w w1 : world)
    (pc : gmap string pyval) :
  simulate_device.load_config defaults w = (Ok pc, w1) ->
  (truthy (default PNone ((parameters ∪ pc) !! "predefined_gds")) = Ok false ->
   simulate_device.resolve defaults parameters w = (Raise ValueError, w1))
  /\
  (forall path,
     (parameters ∪ pc) !! "predefined_gds" = Some (PStr path) ->
     path <> "" ->
     (os.exists_ path w = false ->
      simulate_device.resolve defaults parameters w
        = (Raise FileNotFoundError, w1)) /\
     (os.exists_ path w = true -> os.can_read path w = false ->
      simulate_device.resolve defaults parameters w
        = (Raise PermissionError, w1) /\
      isinstance PermissionError FileNotFoundError = false)).
Proof.
  intros Hc. rewrite (resolve_unfold _ _ _ _ _ Hc). cbv zeta.
  destruct (load_config_preserves _ _ _ _ Hc) as (Hf & Hd & _).
  split.
  - intros ->. reflexivity.
  - intros path Hp Hne. rewrite Hp.
    assert (truthy (default PNone (Some (PStr path))) = Ok true) as ->.
    { simpl. apply String.eqb_neq in Hne. rewrite Hne. reflexivity. }
    rewrite validate_file_path_spec.
    destruct (exists_preserved path w w1 Hf Hd) as [-> ->].
    split.
    + intros ->. reflexivity.
    + intros -> ->. split; reflexivity.
Qed.

(** C7 (witness): the geometry file of the project made unreadable. *)
Lemma geometry_path_errors_in_locked_project :
  let loaded := simulate_device.load_config
                  (lumerical.defaults "20240101120000")
                  samples.locked_project in
  lumerical.resolve "20240101120000" samples.geometry_only
    samples.locked_project = (Raise PermissionError, snd loaded) /\
  lumerical.resolve "20240101120000" {[ "predefined_gds" := PStr "" ]}
    samples.locked_project = (Raise ValueError, snd loaded) /\
  lumerical.resolve "20240101120000"
    {[ "predefined_gds" := PStr "gds/missing.gds" ]}
    samples.locked_project = (Raise FileNotFoundError, snd loaded).
Proof.
  cbv zeta.
  assert (outcome (simulate_device.load_config
                     (lumerical.defaults "20240101120000")
                     samples.locked_project) = None) as Hc
    by (vm_compute; reflexivity).
  apply (outcome_None ∅) in Hc.
  split; [|split].
  - destruct (geometry_path_errors _ samples.geometry_only _ _ _ Hc)
      as [_ Hpath].
    destruct (Hpath "gds/coupler.gds") as [_ Hlocked].
    + apply lookup_union_Some_l. reflexivity.
    + discriminate.
    + apply Hlocked; vm_compute; reflexivity.
  - apply (geometry_path_errors _ {[ "predefined_gds" := PStr "" ]} _ _ _ Hc).
    erewrite lookup_union_Some_l by reflexivity. reflexivity.
  - destruct (geometry_path_errors _
                {[ "predefined_gds" := PStr "gds/missing.gds" ]} _ _ _ Hc)
      as [_ Hpath].
    destruct (Hpath "gds/missing.gds") as [Hmissing _].
    + apply lookup_union_Some_l. reflexivity.
    + discriminate.
    + apply Hmissing. vm_compute. reflexivity.
Defined.

(** C7 (counterexample): a geometry file that exists but cannot be read
    makes resolution fail with PermissionError, which an
    [except FileNotFoundError] clause does not catch. *)
Lemma unreadable_geometry_is_permission_error :
  (outcome (lumerical.resolve "20240101120000" samples.geometry_only
              samples.locked_project) = Some PermissionError /\
   isinstance PermissionError FileNotFoundError = false) /\
  ~ props.geometry_errors_as_specified (lumerical.defaults "20240101120000").
Proof.
  assert (outcome (lumerical.resolve "20240101120000" samples.geometry_only
                     samples.locked_project) = Some PermissionError) as Hrun
    by (vm_compute; reflexivity).
  split; [split; [exact Hrun | reflexivity]|]. intros Hclaim.
  assert (outcome (simulate_device.load_config
                     (lumerical.defaults "20240101120000")
                     samples.locked_project) = None) as Hc
    by (vm_compute; reflexivity).
  apply (outcome_None ∅) in Hc.
  destruct (Hclaim samples.geometry_only _ _ _ Hc) as [_ Hmissing].
  destruct (Hmissing "gds/coupler.gds") as (e & w'' & He & Hkind).
  - apply lookup_union_Some_l. reflexivity.
  - discriminate.
  - right. vm_compute. reflexivity.
  - unfold lumerical.resolve in Hrun. rewrite He in Hrun.
    injection Hrun as ->. discriminate.
Qed.

(** ** The module-level names *)

Lemma names_intact_lookup (p : gmap string pyval) (name : string) :
  props.names_intact p = true -> In name props.module_names ->
  p !! name = None.
Proof.
  unfold props.names_intact. intros H Hin. rewrite forallb_forall in H.
  apply H in Hin. apply bool_decide_eq_true in Hin. exact Hin.
Qed.

Ltac intact H name :=
  pose proof (names_intact_lookup _ name H ltac:(simpl; tauto)).

Lemma attribute_of_intact (p : gmap string pyval) (name : string) :
  p !! name = None -> simulate_device.attribute_of p name = mret tt.
Proof. unfold simulate_device.attribute_of. intros ->. reflexivity. Qed.

Lemma callable_intact (p : gmap string pyval) (name : string) :
  p !! name = None -> simulate_device.callable p name = mret tt.
Proof. unfold simulate_device.callable. intros ->. reflexivity. Qed.

Lemma logged_intact {A} (p : gmap string pyval) (a : A) :
  p !! "logger" = None -> simulate_device.logged p a = Ok a.
Proof. unfold simulate_device.logged. intros ->. reflexivity. Qed.


(** With the class name intact, an [except] clause after the loop is the
    plain one. *)
Lemma try_except_by_name_intact {A} (p : gmap string pyval) (body : M A)
    (cls : exn) (h : exn -> M A) (w : world) :
  p !! exn_name cls = None ->
  simulate_device.try_except_by_name p body [(cls, h)] w
  = try_except body [(cls, h)] w.
Proof.
  intros Hcls. unfold simulate_device.try_except_by_name, try_except.
  destruct (body w) as [[a|e] w']; [reflexivity|].
  simpl. unfold simulate_device.except_clause. rewrite Hcls. reflexivity.
Qed.

(** ** The check for an existing result file *)


(** With the names intact the loop is the one the source shows. *)
Lemma while_True_intact (p : gmap string pyval) (pending : list input_event) :
  props.names_intact p = true ->
  simulate_device.while_True p pending =
    match pending with
    | [] => (Raise EOFError, [], 1%nat)
    | Line s :: rest =>
        let response := str.lower (str.strip s) in
        if String.eqb response "y"
        then (Ok simulate_device.REUSE_EXISTING, rest, 1%nat)
        else if String.eqb response "n"
        then (Ok simulate_device.ABORTED, rest, 1%nat)
        else let '(r, rest', n) := simulate_device.while_True p rest in
             (r, rest', S n)
    | Interrupt :: rest => (Ok simulate_device.ABORTED, rest, 1%nat)
    | EndOfInput :: rest => (Raise EOFError, rest, 1%nat)
    end.
Proof.
  intros Hp. intact Hp "input". intact Hp "logger".
  intact Hp "KeyboardInterrupt".
  assert (simulate_device.except_clause p KeyboardInterrupt
          = simulate_device.Tested) as Hki.
  { unfold simulate_device.except_clause. simpl. rewrite H1. reflexivity. }
  destruct pending as [|[s| |] rest]; cbn [simulate_device.while_True];
    rewrite H; unfold simulate_device.round, simulate_device.answer,
      simulate_device.interrupted; rewrite ?Hki; cbn [simulate_device.input rbind].
  - reflexivity.
  - cbv zeta. destruct (String.eqb _ "y");
      [rewrite logged_intact by done; reflexivity|].
    destruct (String.eqb _ "n"); rewrite logged_intact by done; reflexivity.
  - rewrite logged_intact by done. reflexivity.
  - reflexivity.
Qed.

Lemma artifact_gate_absent (p : gmap string pyval) (path : string)
    (w : world) :
  props.names_intact p = true ->
  os.exists_ path w = false ->
  simulate_device.artifact_gate p path w = (Ok simulate_device.RUN_FRESH, w).
Proof.
  intros Hp Hex. intact Hp "os". intact Hp "logger".
  unfold simulate_device.artifact_gate, simulate_device.log.
  rewrite !attribute_of_intact by done.
  unfold os.path_exists, gets, mbind, mret. rewrite Hex. reflexivity.
Qed.

Lemma artifact_gate_present (p : gmap string pyval) (path : string)
    (w : world) :
  props.names_intact p = true ->
  os.exists_ path w = true ->
  simulate_device.artifact_gate p path w =
    simulate_device.confirm p
      (add_event (Warned "Simulation file already exists") w).
Proof.
  intros Hp Hex. intact Hp "os". intact Hp "logger".
  unfold simulate_device.artifact_gate, simulate_device.warning.
  rewrite !attribute_of_intact by done.
  unfold os.path_exists, gets, mbind, mret, modify. rewrite Hex. reflexivity.
Qed.

(** The gate on a world whose result file exists, by the next input
    event. *)
Lemma artifact_gate_reads (p : gmap string pyval) (path : string)
    (w : world) :
  props.names_intact p = true ->
  os.exists_ path w = true ->
  simulate_device.artifact_gate p path w =
    let '(r, rest, n) := simulate_device.while_True p (stdin w) in
    (r, Nat.iter n (add_event Prompted)
          (set_stdin rest
             (add_event (Warned "Simulation file already exists") w))).
Proof.
  intros Hp Hex. rewrite (artifact_gate_present _ _ _ Hp Hex). reflexivity.
Qed.

Lemma dispatch_intact (fdtd_from_gds : gmap string pyval -> M pyval)
    (p : gmap string pyval) (w : world) :
  props.names_intact p = true ->
  simulate_device.dispatch fdtd_from_gds p simulate_device.RUN_FRESH w
    = fdtd_from_gds p (add_event (EngineCalled p) w) /\
  simulate_device.dispatch fdtd_from_gds p simulate_device.REUSE_EXISTING w
    = match fdtd_from_gds p (add_event (EngineCalled p) w) with
      | (Raise e, w1) =>
          if isinstance e KeyboardInterrupt then (Ok PNone, w1)
          else (Raise e, w1)
      | done => done
      end.
Proof.
  intros Hp. intact Hp "fdtd_from_gds". intact Hp "logger".
  intact Hp "KeyboardInterrupt".
  unfold simulate_device.dispatch. split.
  - unfold simulate_device.call_engine. rewrite callable_intact by done.
    reflexivity.
  - rewrite try_except_by_name_intact by done.
    unfold try_except, simulate_device.call_engine.
    rewrite callable_intact by done. unfold mbind at 1. unfold mret at 1.
    unfold mbind at 1. unfold modify at 1.
    destruct (fdtd_from_gds p (add_event (EngineCalled p) w)) as [[r|e] w1];
      [reflexivity|].
    simpl. destruct (isinstance e KeyboardInterrupt); [|reflexivity].
    unfold simulate_device.log. rewrite attribute_of_intact by done.
    reflexivity.
Qed.

(** C2 (amended): let none of the names the check reads be rebound by a
    key of the descriptor.  With no result file the check answers
    RUN_FRESH at once, leaving the prompt, the input and the trace
    untouched.  With a result file it warns and reads the next event of
    standard input: a typed line is stripped of surrounding white space
    and lower-cased, and the check answers REUSE_EXISTING when that gives
    [y], ABORTED when it gives [n], and otherwise goes on as the prompt
    does on the input that is left; Ctrl-C at the prompt gives ABORTED, a
    closed input EOFError.  Each event read costs one prompt.  ABORTED
    returns [None] without a call of the engine; RUN_FRESH and
    REUSE_EXISTING call it. *)
Theorem gate_decides_on_normalised_answer
    (p : gmap string pyval) (path : string) (w : world) :
  props.names_intact p = true ->
  (os.exists_ path w = false ->
   simulate_device.artifact_gate p path w = (Ok simulate_device.RUN_FRESH, w))
  /\
  (os.exists_ path w = true ->
   let warned := add_event (Warned "Simulation file already exists") w in
   (forall (s : string) (rest : list input_event),
      stdin w = Line s :: rest ->
      let asked := add_event Prompted (set_stdin rest warned) in
      let answer := str.lower (str.strip s) in
      (answer = "y" ->
       simulate_device.artifact_gate p path w
         = (Ok simulate_device.REUSE_EXISTING, asked)) /\
      (answer = "n" ->
       simulate_device.artifact_gate p path w
         = (Ok simulate_device.ABORTED, asked)) /\
      (answer <> "y" -> answer <> "n" ->
       simulate_device.artifact_gate p path w
         = simulate_device.confirm p asked))
   /\
   (forall rest : list input_event,
      stdin w = Interrupt :: rest ->
      simulate_device.artifact_gate p path w
        = (Ok simulate_device.ABORTED,
           add_event Prompted (set_stdin rest warned)))
   /\
   (forall rest : list input_event,
      stdin w = EndOfInput :: rest ->
      simulate_device.artifact_gate p path w
        = (Raise EOFError, add_event Prompted (set_stdin rest warned))))
  /\
  (forall (fdtd_from_gds : gmap string pyval -> M pyval) (w0 : world),
     simulate_device.dispatch fdtd_from_gds p simulate_device.ABORTED w0
       = (Ok PNone, w0) /\
     simulate_device.dispatch fdtd_from_gds p simulate_device.RUN_FRESH w0
       = fdtd_from_gds p (add_event (EngineCalled p) w0) /\
     simulate_device.dispatch fdtd_from_gds p simulate_device.REUSE_EXISTING w0
       = match fdtd_from_gds p (add_event (EngineCalled p) w0) with
         | (Raise e, w1) =>
             if isinstance e KeyboardInterrupt then (Ok PNone, w1)
             else (Raise e, w1)
         | done => done
         end).
Proof.
  intros Hp.
  split; [apply artifact_gate_absent, Hp|].
  split.
  - intros Hex warned. split; [|split].
    + intros s rest Hin asked answer.
      rewrite (artifact_gate_reads _ _ _ Hp Hex), Hin.
      rewrite (while_True_intact _ _ Hp). cbv zeta. fold answer.
      repeat split.
      * intros ->. reflexivity.
      * intros ->. reflexivity.
      * intros Hy Hn.
        apply String.eqb_neq in Hy. apply String.eqb_neq in Hn.
        rewrite Hy, Hn. unfold simulate_device.confirm.
        change (stdin asked) with rest.
        destruct (simulate_device.while_True p rest) as [[r rest'] n].
        rewrite Nat.iter_succ_r. reflexivity.
    + intros rest Hin.
      rewrite (artifact_gate_reads _ _ _ Hp Hex), Hin.
      rewrite (while_True_intact _ _ Hp). reflexivity.
    + intros rest Hin.
      rewrite (artifact_gate_reads _ _ _ Hp Hex), Hin.
      rewrite (while_True_intact _ _ Hp). reflexivity.
  - intros engine w0. split; [reflexivity|]. apply dispatch_intact, Hp.
Qed.

(** C2 (witness): the project after a Lumerical run, where the result file
    of the job exists.  The line [maybe] brings the prompt back, the line
    [ N ] after it cancels: two prompts, and no call of the engine. *)
Lemma gate_in_finished_project :
  let p := lumerical.defaults "20240101120000" in
  let path := "out/run_FDTD.fsp" in
  let warned := add_event (Warned "Simulation file already exists")
                  samples.finished_project in
  let asked := add_event Prompted (set_stdin [Line " N "] warned) in
  props.names_intact p = true /\
  os.exists_ path samples.finished_project = true /\
  stdin samples.finished_project = [Line "maybe"; Line " N "] /\
  simulate_device.artifact_gate p path samples.finished_project
    = simulate_device.confirm p asked /\
  simulate_device.artifact_gate p path
      (set_stdin [Line " N "] samples.finished_project)
    = (Ok simulate_device.ABORTED,
       add_event Prompted (set_stdin [] warned)).
Proof.
  cbv zeta.
  assert (props.names_intact (lumerical.defaults "20240101120000") = true)
    as Hp by (vm_compute; reflexivity).
  assert (os.exists_ "out/run_FDTD.fsp" samples.finished_project = true)
    as Hex by (vm_compute; reflexivity).
  split; [exact Hp|]. split; [exact Hex|]. split; [reflexivity|]. split.
  - destruct (gate_decides_on_normalised_answer
                (lumerical.defaults "20240101120000") "out/run_FDTD.fsp"
                samples.finished_project Hp) as (_ & Hpresent & _).
    destruct (Hpresent Hex) as (Hline & _).
    destruct (Hline "maybe" [Line " N "] eq_refl) as (_ & _ & Hother).
    apply Hother; vm_compute; discriminate.
  - destruct (gate_decides_on_normalised_answer
                (lumerical.defaults "20240101120000") "out/run_FDTD.fsp"
                (set_stdin [Line " N "] samples.finished_project) Hp)
      as (_ & Hpresent & _).
    destruct (Hpresent Hex) as (Hline & _).
    destruct (Hline " N " [] eq_refl) as (_ & Hn & _).
    apply Hn. vm_compute. reflexivity.
Defined.

(** C2 (counterexample): the answer [Y] continues with the existing file,
    and [ n ] cancels; neither brings the prompt back. *)
Lemma uppercase_answer_is_accepted :
  (simulate_device.while_True ∅ [Line "Y"]
     = (Ok simulate_device.REUSE_EXISTING, [], 1%nat) /\
   simulate_device.while_True ∅ [Line " n "; Line "y"]
     = (Ok simulate_device.ABORTED, [Line "y"], 1%nat)) /\
  ~ props.answers_read_literally.
Proof.
  split; [split; vm_compute; reflexivity|]. intros Hclaim.
  assert (props.names_intact ∅ = true) as Hp by (vm_compute; reflexivity).
  destruct (Hclaim ∅ "Y" [] Hp) as (_ & _ & Hother).
  assert ("Y" <> "y") as Hy by discriminate.
  assert ("Y" <> "n") as Hn by discriminate.
  specialize (Hother Hy Hn). vm_compute in Hother. discriminate.
Qed.

(** ** The steps of [simulate_predefined_gds] *)

Lemma import_gds_world (src : string) (w : world) :
  snd (simulate_device.import_gds src w) = w.
Proof.
  unfold simulate_device.import_gds, mbind, misc.open_r.
  destruct (os.isdir src w); [reflexivity|].
  destruct (os.isfile src w); [|reflexivity]. simpl.
  destruct (files w !! src) as [fl|]; [|reflexivity].
  destruct (readable fl); [|reflexivity].
  destruct (content fl); reflexivity.
Qed.




(** ** The sidecar's content *)

(** The encoder reaches complex numbers, arrays and foreign objects
    through [ComplexEncoder.default]. *)
Lemma json_encode_uses_default (obj : pyval) :
  match obj with
  | PComplex _ _ | PNdarray _ | PObject _ =>
      misc.json_encode obj
      = (o <- misc.ComplexEncoder_default obj ;; misc.json_encode o)%result
  | _ => True
  end.
Proof. destruct obj; try exact I; reflexivity. Qed.

(** Induction on values, through the lists and dicts they hold. *)
Lemma pyval_nested_ind (P : pyval -> Prop) :
  P PNone -> (forall b, P (PBool b)) -> (forall z, P (PInt z)) ->
  (forall x, P (PFloat x)) -> (forall re im, P (PComplex re im)) ->
  (forall s, P (PStr s)) ->
  (forall items, Forall P items -> P (PList items)) ->
  (forall items, Forall P items -> P (PTuple items)) ->
  (forall members, Forall (fun kv => P (snd kv)) members ->
     P (PDict members)) ->
  (forall t, P t -> P (PNdarray t)) ->
  (forall r, P (PObject r)) ->
  forall v, P v.
Proof.
  intros HNone HBool HInt HFloat HComplex HStr HList HTuple HDict HNd HObj.
  fix IH 1. intros [ |b|z|x|re im|s|items|items|members|t|r].
  - exact HNone.
  - apply HBool.
  - apply HInt.
  - apply HFloat.
  - apply HComplex.
  - apply HStr.
  - apply HList. induction items as [|v items IHitems]; constructor.
    + apply IH.
    + exact IHitems.
  - apply HTuple. induction items as [|v items IHitems]; constructor.
    + apply IH.
    + exact IHitems.
  - apply HDict.
    induction members as [|[k v] members IHmembers]; constructor.
    + apply IH.
    + exact IHmembers.
  - apply HNd, IH.
  - apply HObj.
Qed.

Lemma mapM_inv {A B} (f : A -> result B) (l : list A) (ys : list B) :
  mapM f l = Ok ys -> Forall2 (fun x y => f x = Ok y) l ys.
Proof.
  revert ys. induction l as [|x l IH]; intros ys; simpl.
  - intros [= <-]. constructor.
  - intros H. apply rbind_inv in H as (y & Hy & H).
    apply rbind_inv in H as (ys' & Hys & H). injection H as <-.
    constructor; auto.
Qed.

(** Reading back what the encoder wrote gives the value with complex
    numbers as dicts of their parts and tuples and arrays as lists. *)
Lemma json_decode_encode (v : pyval) :
  forall j, misc.json_encode v = Ok j ->
            misc.json_decode j = props.as_json_value v.
Proof.
  induction v as [ |b|z|x|re im|s|items IH|items IH|members IH|t IH|r]
    using pyval_nested_ind; intros j; simpl; try (intros [= <-]; reflexivity).
  - intros H. apply rbind_inv in H as (js & Hjs & [= <-]). simpl. f_equal.
    apply mapM_inv in Hjs. induction Hjs as [|v j' items js Hv _ IHl];
      [reflexivity|].
    inv IH. simpl. f_equal; auto.
  - intros H. apply rbind_inv in H as (js & Hjs & [= <-]). simpl. f_equal.
    apply mapM_inv in Hjs. induction Hjs as [|v j' items js Hv _ IHl];
      [reflexivity|].
    inv IH. simpl. f_equal; auto.
  - intros H. apply rbind_inv in H as (js & Hjs & [= <-]). simpl. f_equal.
    apply mapM_inv in Hjs.
    induction Hjs as [|[k v] kj members js Hv _ IHl]; [reflexivity|].
    inv IH. simpl in Hv. apply rbind_inv in Hv as (j' & Hj' & [= <-]).
    simpl. f_equal; [f_equal|]; auto.
  - apply IH.
Qed.

(** [convert_for_json] does not change what the reader finds. *)
Lemma as_json_value_convert (v : pyval) :
  props.as_json_value (misc.convert_for_json v) = props.as_json_value v.
Proof.
  induction v as [ |b|z|x|re im|s|items IH|items IH|members IH|t IH|r]
    using pyval_nested_ind; simpl; try reflexivity.
  - f_equal. rewrite map_map. induction IH; simpl; [reflexivity|].
    f_equal; auto.
  - f_equal. rewrite map_map. induction IH as [|[k v] members Hv _ IHl];
      simpl; [reflexivity|].
    simpl in Hv. f_equal; [f_equal|]; auto.
Qed.

Lemma json_encode_dict_spec (d : gmap string pyval) (m : gmap string json) :
  misc.json_encode_dict d = Ok m ->
  forall k v, d !! k = Some v ->
    exists j, misc.json_encode v = Ok j /\ m !! k = Some j.
Proof.
  unfold misc.json_encode_dict. revert m.
  apply (map_fold_weak_ind
    (fun (r : result (gmap string json)) (d : gmap string pyval) =>
       forall m, r = Ok m ->
       forall k v, d !! k = Some v ->
         exists j, misc.json_encode v = Ok j /\ m !! k = Some j)).
  - intros m _ k v Hk. rewrite lookup_empty in Hk. discriminate.
  - intros i x d' r Hi IH m Hm k v Hk.
    apply rbind_inv in Hm as (m0 & -> & Hm).
    apply rbind_inv in Hm as (j0 & Hj0 & [= <-]).
    destruct (decide (i = k)) as [->|Hne].
    + rewrite lookup_insert_eq in Hk. injection Hk as <-.
      exists j0. rewrite lookup_insert_eq. done.
    + rewrite lookup_insert_ne in Hk by done.
      destruct (IH m0 eq_refl k v Hk) as (j & Hj & Hmk).
      exists j. rewrite lookup_insert_ne by done. done.
Qed.

Lemma write_to_json_inv (d : gmap string pyval) (name : string)
    (w w' : world) :
  misc.write_to_json d name w = (Ok tt, w') ->
  exists members,
    misc.json_encode_dict (misc.convert_for_json <$> d) = Ok members /\
    props.reparse name w' = (Ok (misc.json_decode <$> members), w').
Proof.
  unfold misc.write_to_json. rewrite try_except_reraise. intros H.
  apply mbind_inv in H as ([] & w1 & Hmk & H).
  apply mbind_inv in H as ([] & w2 & Hopen & H).
  unfold misc.json_dump in H.
  apply mbind_inv in H as (members & w3 & Henc & H).
  apply lift_inv in Henc as [Henc ->].
  unfold modify in H. injection H as <-.
  exists members. split; [exact Henc|].
  assert (name <> "") as Hname.
  { intros ->. change (os.dirname "") with "" in Hmk.
    rewrite makedirs_empty in Hmk. discriminate. }
  unfold misc.open_w in Hopen.
  destruct (os.isdir name w1) eqn:Hdir; [discriminate|].
  destruct (negb (String.eqb (os.dirname name) "")
            && negb (os.isdir (os.dirname name) w1)); [discriminate|].
  injection Hopen as <-.
  unfold props.reparse, mbind, misc.open_r, os.isdir, os.isfile in *.
  simpl in *. rewrite Hdir.
  apply String.eqb_neq in Hname. rewrite Hname. simpl.
  rewrite lookup_insert_eq. reflexivity.
Qed.

(** C8: when [write_to_json] succeeds on a descriptor, parsing the sidecar
    again gives, for every key, the value the descriptor holds with each
    complex number replaced by the dict of its parts (and tuples and arrays
    by lists); in particular a complex value [re + im j] is read back as
    [{"real": re, "imag": im}] with exactly the parts it had. *)
Theorem complex_values_round_trip
    (dict_name : gmap string pyval) (json_name : string) (w w' : world) :
  misc.write_to_json dict_name json_name w = (Ok tt, w') ->
  exists parsed,
    props.reparse json_name w' = (Ok parsed, w') /\
    (forall k v, dict_name !! k = Some v ->
       parsed !! k = Some (props.as_json_value v)) /\
    (forall k re im, dict_name !! k = Some (PComplex re im) ->
       parsed !! k = Some (PDict [("real", PFloat re); ("imag", PFloat im)])).
Proof.
  intros Hwrite.
  destruct (write_to_json_inv _ _ _ _ Hwrite) as (members & Henc & Hread).
  exists (misc.json_decode <$> members). split; [exact Hread|].
  assert (forall k v, dict_name !! k = Some v ->
            (misc.json_decode <$> members) !! k
            = Some (props.as_json_value v)) as Hall.
  { intros k v Hk.
    destruct (json_encode_dict_spec _ _ Henc k (misc.convert_for_json v))
      as (j & Hj & Hmk).
    - rewrite lookup_fmap, Hk. reflexivity.
    - rewrite lookup_fmap, Hmk. simpl. f_equal.
      rewrite (json_decode_encode _ _ Hj). apply as_json_value_convert. }
  split; [exact Hall|].
  intros k re im Hk. apply (Hall k _ Hk).
Qed.

(** C8 (witness): a descriptor with a complex refractive index and a tuple
    holding a complex number, saved in the project's output directory. *)
Lemma complex_job_round_trip :
  let saved := misc.write_to_json samples.complex_job "out/run.json"
                 samples.project in
  outcome saved = None /\
  exists parsed,
    props.reparse "out/run.json" (snd saved) = (Ok parsed, snd saved) /\
    parsed !! "index"
      = Some (PDict [("real", PFloat (7 # 2)); ("imag", PFloat (1 # 100))]) /\
    parsed !! "sweep"
      = Some (PList [PDict [("real", PFloat 1); ("imag", PFloat 2)]; PInt 3]).
Proof.
  cbv zeta.
  assert (outcome (misc.write_to_json samples.complex_job "out/run.json"
                     samples.project) = None) as Hok
    by (vm_compute; reflexivity).
  split; [exact Hok|].
  apply (outcome_None tt) in Hok.
  destruct (returned tt (misc.write_to_json samples.complex_job
                           "out/run.json" samples.project)).
  destruct (complex_values_round_trip _ _ _ _ Hok)
    as (parsed & Hread & Hall & Hcomplex).
  exists parsed. split; [exact Hread|]. split.
  - apply Hcomplex. reflexivity.
  - apply (Hall "sweep" (PTuple [PComplex 1 2; PInt 3])). reflexivity.
Defined.

(** * Further properties of the code *)

(** ** The nearest element *)

Section min_by_key_facts.
Variable key : Q -> Q.

Local Abbreviation better :=
  (fun best y : Q => if np.ltb (key y) (key best) then y else best).
Local Abbreviation first_smallest := (props.first_smallest key).

Lemma fold_better_first_smallest (rest seen : list Q) (best : Q) (j : nat) :
  first_smallest seen best j ->
  exists j', first_smallest (seen ++ rest)%list (fold_left better rest best) j'.
Proof.
  revert seen best j. induction rest as [|y rest IH]; intros seen best j Hinv.
  - exists j. rewrite app_nil_r. exact Hinv.
  - simpl. replace (seen ++ y :: rest)%list with ((seen ++ [y]) ++ rest)%list
      by (rewrite <- app_assoc; reflexivity).
    destruct Hinv as (Hj & Hall & Hbefore).
    pose proof (lookup_lt_Some _ _ _ Hj) as Hlt.
    destruct (np.ltb (key y) (key best)) eqn:E.
    + apply ltb_lt in E. apply (IH _ _ (length seen)). split; [|split].
      * rewrite lookup_app_r by lia. rewrite Nat.sub_diag. reflexivity.
      * intros z Hz. apply elem_of_app in Hz as [Hz|Hz].
        -- specialize (Hall z Hz). lra.
        -- apply list_elem_of_singleton in Hz as ->. apply Qle_refl.
      * intros i z Hi Hz. rewrite lookup_app_l in Hz by lia.
        apply list_elem_of_lookup_2 in Hz. specialize (Hall z Hz). lra.
    + apply ltb_ge in E. apply (IH _ _ j). split; [|split].
      * rewrite lookup_app_l by lia. exact Hj.
      * intros z Hz. apply elem_of_app in Hz as [Hz|Hz].
        -- exact (Hall z Hz).
        -- apply list_elem_of_singleton in Hz as ->. exact E.
      * intros i z Hi Hz. rewrite lookup_app_l in Hz by lia.
        exact (Hbefore i z Hi Hz).
Qed.

Lemma min_by_key_first_smallest (lst : list Q) (m : Q) :
  misc.min_by_key key lst = Ok m -> exists j, first_smallest lst m j.
Proof.
  destruct lst as [|x rest]; [discriminate|]. simpl. intros [= <-].
  apply (fold_better_first_smallest rest [x] x 0).
  split; [reflexivity|]. split.
  - intros y Hy. apply list_elem_of_singleton in Hy as ->. apply Qle_refl.
  - intros i y Hi. lia.
Qed.

End min_by_key_facts.

Lemma index_found (value : Q) (lst : list Q) (j : nat) (y : Q) :
  lst !! j = Some y -> (y == value)%Q ->
  exists i x, misc.index value lst = Ok i /\ (i <= j)%nat /\
              lst !! i = Some x /\ (x == value)%Q.
Proof.
  revert j. induction lst as [|x lst IH]; intros j Hj Hy; [discriminate|].
  simpl. destruct (Qeq_bool x value) eqn:E.
  - apply Qeq_bool_iff in E. exists 0%nat, x. split; [reflexivity|].
    split; [lia|]. split; [reflexivity | exact E].
  - destruct j as [|j].
    + injection Hj as ->. apply Qeq_bool_iff in Hy. congruence.
    + destruct (IH j Hj Hy) as (i & x' & -> & Hi & Hx' & Heq).
      exists (S i), x'. split; [reflexivity|]. split; [lia|]. done.
Qed.

(** X1: [find_closest] raises ValueError on the empty list and on no other;
    otherwise it returns an element of the list together with its index,
    no element of the list is nearer to the target, and every element
    before that index is strictly farther from it. *)
Theorem find_closest_first_nearest (lst : list Q) (target : Q) :
  match misc.find_closest lst target with
  | Raise e => lst = [] /\ e = ValueError
  | Ok (v, i) =>
      lst !! i = Some v /\
      (forall x, x ∈ lst -> (Qabs (v - target) <= Qabs (x - target))%Q) /\
      (forall j x, (j < i)%nat -> lst !! j = Some x ->
         (Qabs (v - target) < Qabs (x - target))%Q)
  end.
Proof.
  destruct lst as [|x0 rest]; [split; reflexivity|].
  unfold misc.find_closest. cbv iota. set (lst := x0 :: rest).
  destruct (misc.min_by_key (fun x => Qabs (x - target)) lst) as [m|e] eqn:Hm;
    [|discriminate].
  rewrite rbind_Ok.
  destruct (min_by_key_first_smallest _ _ _ Hm) as (j & Hj & Hall & Hbefore).
  destruct (index_found m lst j m Hj (Qeq_refl m))
    as (i & x & -> & Hi & Hx & Heq).
  rewrite rbind_Ok.
  assert (i = j) as ->.
  { destruct (decide (i = j)) as [|Hne]; [done|].
    assert (i < j)%nat as Hlt by lia.
    specialize (Hbefore i x Hlt Hx). cbv beta in Hbefore.
    rewrite Heq in Hbefore. exfalso. exact (Qlt_irrefl _ Hbefore). }
  split; [exact Hj|]. split; [exact Hall | exact Hbefore].
Qed.

(** ** What the encoder accepts *)

Lemma mapM_outcome {A B} (f : A -> result B) (bad : A -> bool) (l : list A) :
  Forall (fun x => (bad x = true -> f x = Raise TypeError) /\
                   (bad x = false -> exists y, f x = Ok y)) l ->
  (existsb bad l = true -> mapM f l = Raise TypeError) /\
  (existsb bad l = false -> exists ys, mapM f l = Ok ys).
Proof.
  induction 1 as [|x l [Hbad Hgood] _ [IHbad IHgood]]; simpl.
  - split; [discriminate | eauto].
  - destruct (bad x); simpl.
    + split; [|discriminate]. intros _. rewrite Hbad by reflexivity.
      reflexivity.
    + destruct (Hgood eq_refl) as [y ->]. rewrite rbind_Ok. split.
      * intros Hl. rewrite (IHbad Hl). reflexivity.
      * intros Hl. destruct (IHgood Hl) as [ys ->]. eauto.
Qed.

Lemma json_encode_outcome (v : pyval) :
  (props.holds_object v = true -> misc.json_encode v = Raise TypeError) /\
  (props.holds_object v = false -> exists j, misc.json_encode v = Ok j).
Proof.
  induction v as [ |b|z|x|re im|s|items IH|items IH|members IH|t IH|r]
    using pyval_nested_ind; simpl;
    try (split; [discriminate | eauto]).
  - destruct (mapM_outcome misc.json_encode props.holds_object items IH)
      as [Hbad Hgood].
    split; intros H.
    + rewrite (Hbad H). reflexivity.
    + destruct (Hgood H) as [js ->]. eauto.
  - destruct (mapM_outcome misc.json_encode props.holds_object items IH)
      as [Hbad Hgood].
    split; intros H.
    + rewrite (Hbad H). reflexivity.
    + destruct (Hgood H) as [js ->]. eauto.
  - destruct (mapM_outcome
                (fun kv => (j <- misc.json_encode (snd kv) ;;
                            Ok (fst kv, j))%result)
                (fun kv => props.holds_object (snd kv)) members) as [Hbad Hgood].
    { eapply Forall_impl; [exact IH|]. intros [k v] [Hb Hg]. simpl in *.
      split; intros H.
      - rewrite (Hb H). reflexivity.
      - destruct (Hg H) as [j ->]. eauto. }
    split; intros H.
    + rewrite (Hbad H). reflexivity.
    + destruct (Hgood H) as [js ->]. eauto.
  - exact IH.
  - split; [reflexivity | discriminate].
Qed.

Lemma holds_object_convert (v : pyval) :
  props.holds_object (misc.convert_for_json v) = props.holds_object v.
Proof.
  induction v as [ |b|z|x|re im|s|items IH|items IH|members IH|t IH|r]
    using pyval_nested_ind; simpl; try reflexivity.
  - induction IH as [|v items Hv _ IHl]; simpl; [reflexivity|].
    rewrite Hv, IHl. reflexivity.
  - induction IH as [|[k v] members Hv _ IHl]; simpl; [reflexivity|].
    simpl in Hv. rewrite Hv, IHl. reflexivity.
Qed.

Lemma json_encode_dict_outcome (d : gmap string pyval) :
  let r := misc.json_encode_dict d in
  (forall e, r = Raise e -> e = TypeError) /\
  ((exists k v, d !! k = Some v /\ props.holds_object v = true) ->
   r = Raise TypeError) /\
  ((forall k v, d !! k = Some v -> props.holds_object v = false) ->
   exists m, r = Ok m).
Proof.
  unfold misc.json_encode_dict.
  apply (map_fold_weak_ind
    (fun (r : result (gmap string json)) (d : gmap string pyval) =>
       (forall e, r = Raise e -> e = TypeError) /\
       ((exists k v, d !! k = Some v /\ props.holds_object v = true) ->
        r = Raise TypeError) /\
       ((forall k v, d !! k = Some v -> props.holds_object v = false) ->
        exists m, r = Ok m))).
  - split; [discriminate|]. split; [|eauto].
    intros (k & v & Hk & _). rewrite lookup_empty in Hk. discriminate.
  - intros i x d' r Hi (Hexn & Hbad & Hgood).
    destruct (json_encode_outcome x) as [Hxbad Hxgood].
    split; [|split].
    + intros e. destruct r as [m|e']; simpl.
      * destruct (props.holds_object x) eqn:Hx.
        -- rewrite Hxbad by reflexivity. simpl. congruence.
        -- destruct (Hxgood eq_refl) as [j ->]. discriminate.
      * intros [= <-]. apply Hexn. reflexivity.
    + intros (k & v & Hk & Hv).
      destruct r as [m|e']; simpl;
        [|rewrite (Hexn e' eq_refl); reflexivity].
      destruct (decide (i = k)) as [->|Hne].
      * rewrite lookup_insert_eq in Hk. injection Hk as ->.
        rewrite (Hxbad Hv). reflexivity.
      * rewrite lookup_insert_ne in Hk by done.
        assert (Ok m = @Raise (gmap string json) TypeError) by eauto.
        discriminate.
    + intros Hall. destruct Hgood as [m ->].
      * intros k v Hk. apply (Hall k v).
        rewrite lookup_insert_ne; [exact Hk|]. intros ->. congruence.
      * destruct (Hxgood (Hall i x (lookup_insert_eq _ _ _))) as [j ->].
        simpl. eauto.
Qed.

Lemma json_encode_dict_dom (d : gmap string pyval) (m : gmap string json) :
  misc.json_encode_dict d = Ok m ->
  forall k, d !! k = None -> m !! k = None.
Proof.
  unfold misc.json_encode_dict. revert m.
  apply (map_fold_weak_ind
    (fun (r : result (gmap string json)) (d : gmap string pyval) =>
       forall m, r = Ok m -> forall k, d !! k = None -> m !! k = None)).
  - intros m [= <-] k _. apply lookup_empty.
  - intros i x d' r Hi IH m Hm k Hk.
    apply rbind_inv in Hm as (m0 & -> & Hm).
    apply rbind_inv in Hm as (j0 & Hj0 & [= <-]).
    apply lookup_insert_None in Hk as [Hk Hne].
    rewrite lookup_insert_ne by done. eauto.
Qed.

Lemma as_json_value_native (v : pyval) :
  props.json_native v = true -> props.as_json_value v = v.
Proof.
  induction v as [ |b|z|x|re im|s|items IH|items IH|members IH|t IH|r]
    using pyval_nested_ind; simpl; try reflexivity; try discriminate.
  - intros H. f_equal. induction IH as [|v items Hv _ IHl]; [reflexivity|].
    simpl in H. apply andb_true_iff in H as [H1 H2]. simpl.
    rewrite (Hv H1), (IHl H2). reflexivity.
  - intros H. f_equal.
    induction IH as [|[k v] members Hv _ IHl]; [reflexivity|].
    simpl in H, Hv. apply andb_true_iff in H as [H1 H2]. simpl.
    rewrite (Hv H1), (IHl H2). reflexivity.
Qed.

(** What [json.load] finds in the sidecar after a write that succeeded. *)
Lemma write_to_json_content (d : gmap string pyval) (name : string)
    (w w' : world) :
  misc.write_to_json d name w = (Ok tt, w') ->
  props.reparse name w' = (Ok (props.as_json_value <$> d), w').
Proof.
  intros Hwrite.
  destruct (write_to_json_inv _ _ _ _ Hwrite) as (members & Henc & ->).
  f_equal. f_equal. apply map_eq. intros k. rewrite !lookup_fmap.
  destruct (d !! k) as [v|] eqn:Hk; simpl.
  - destruct (json_encode_dict_spec _ _ Henc k (misc.convert_for_json v))
      as (j & Hj & ->).
    { rewrite lookup_fmap, Hk. reflexivity. }
    simpl. f_equal. rewrite (json_decode_encode _ _ Hj).
    apply as_json_value_convert.
  - rewrite (json_encode_dict_dom _ _ Henc k); [reflexivity|].
    rewrite lookup_fmap, Hk. reflexivity.
Qed.

(** X2: after a write that succeeded, reading the sidecar back gives a
    dict with exactly the keys of the descriptor, each value with complex
    numbers as dicts of their parts and tuples and arrays as lists; a
    descriptor of None, bools, numbers, strings, lists and dicts is read
    back unchanged. *)
Theorem sidecar_holds_exactly_the_descriptor
    (dict_name : gmap string pyval) (json_name : string) (w w' : world) :
  misc.write_to_json dict_name json_name w = (Ok tt, w') ->
  props.reparse json_name w'
    = (Ok (props.as_json_value <$> dict_name), w') /\
  ((forall k v, dict_name !! k = Some v -> props.json_native v = true) ->
   props.reparse json_name w' = (Ok dict_name, w')).
Proof.
  intros Hwrite. pose proof (write_to_json_content _ _ _ _ Hwrite) as Hread.
  split; [exact Hread|]. intros Hnative. rewrite Hread. f_equal. f_equal.
  apply map_eq. intros k. rewrite lookup_fmap.
  destruct (dict_name !! k) as [v|] eqn:Hk; [|reflexivity]. simpl.
  rewrite (as_json_value_native v (Hnative k v Hk)). reflexivity.
Qed.

(** X2 (witness): the overrides of a device script hold strings and an
    integer only and are read back as they were written. *)
Lemma coupler_job_is_read_back_unchanged :
  let saved := misc.write_to_json samples.coupler_job "out/run.json"
                 samples.project in
  outcome saved = None /\
  props.reparse "out/run.json" (snd saved)
    = (Ok samples.coupler_job, snd saved).
Proof.
  cbv zeta.
  assert (outcome (misc.write_to_json samples.coupler_job "out/run.json"
                     samples.project) = None) as Hok
    by (vm_compute; reflexivity).
  split; [exact Hok|]. apply (outcome_None tt) in Hok.
  destruct (returned tt (misc.write_to_json samples.coupler_job
                           "out/run.json" samples.project)).
  destruct (sidecar_holds_exactly_the_descriptor _ _ _ _ Hok) as [_ Hnative].
  apply Hnative. intros k v Hk. unfold samples.coupler_job in Hk.
  apply lookup_insert_Some in Hk as [[_ <-]|[_ Hk]]; [reflexivity|].
  apply lookup_insert_Some in Hk as [[_ <-]|[_ Hk]]; [reflexivity|].
  apply lookup_singleton_Some in Hk as [_ <-]. reflexivity.
Defined.

(** ** Creating directories *)

Lemma only_adds_dirs_refl (w : world) : props.only_adds_dirs w w.
Proof. repeat split; set_solver. Qed.

Lemma only_adds_dirs_trans (w1 w2 w3 : world) :
  props.only_adds_dirs w1 w2 -> props.only_adds_dirs w2 w3 ->
  props.only_adds_dirs w1 w3.
Proof.
  intros (Hf1 & Hd1 & Hs1 & He1) (Hf2 & Hd2 & Hs2 & He2).
  repeat split; [congruence | set_solver | congruence | congruence].
Qed.

Lemma mkdir_only_adds_dirs (path : string) (w w' : world) r :
  os.mkdir path w = (r, w') -> props.only_adds_dirs w w'.
Proof.
  unfold os.mkdir.
  destruct (String.eqb path ""); [intros [= <- <-]; apply only_adds_dirs_refl|].
  destruct (os.exists_ path w);
    [intros [= <- <-]; apply only_adds_dirs_refl|].
  destruct (_ && _); intros [= <- <-]; [apply only_adds_dirs_refl|].
  repeat split; simpl. set_solver.
Qed.

Lemma mkdir_exist_ok_only_adds_dirs (name : string) (w w' : world) r :
  os.mkdir_exist_ok name w = (r, w') -> props.only_adds_dirs w w'.
Proof.
  unfold os.mkdir_exist_ok, try_except.
  destruct (os.mkdir name w) as [[[]|e] w1] eqn:Hmk.
  - intros [= <- <-]. exact (mkdir_only_adds_dirs _ _ _ _ Hmk).
  - pose proof (mkdir_only_adds_dirs _ _ _ _ Hmk) as Hw1.
    simpl. destruct (isinstance e OSError).
    + unfold mbind, gets. destruct (os.isdir name w1); intros [= <- <-]; done.
    + intros [= <- <-]. done.
Qed.

Lemma mkdir_exist_ok_isdir (name : string) (w w' : world) :
  os.mkdir_exist_ok name w = (Ok tt, w') -> os.isdir name w' = true.
Proof.
  unfold os.mkdir_exist_ok, try_except.
  destruct (os.mkdir name w) as [[[]|e] w1] eqn:Hmk.
  - intros [= <-]. unfold os.mkdir in Hmk.
    destruct (String.eqb name "") eqn:Hname; [discriminate|].
    destruct (os.exists_ name w); [discriminate|].
    destruct (_ && _); [discriminate|]. injection Hmk as <-.
    unfold os.isdir. rewrite Hname. simpl.
    apply bool_decide_eq_true. set_solver.
  - simpl. destruct (isinstance e OSError); [|discriminate].
    unfold mbind, gets. destruct (os.isdir name w1) eqn:Hd; [|discriminate].
    intros [= <-]. exact Hd.
Qed.

Lemma makedirs_rec_unfold (depth : nat) (name : string) :
  os.makedirs_rec depth name =
    let '(head, tail) := os.split name in
    let '(head, tail) := if String.eqb tail "" then os.split head
                         else (head, tail) in
    (head_missing <-
       gets (fun w => negb (String.eqb head "") && negb (String.eqb tail "")
                      && negb (os.exists_ head w)) ;;
     go_on <-
       (if head_missing : bool then
          match depth with
          | O => mraise RecursionError
          | S depth' =>
              try_except (os.makedirs_rec depth' head)
                [(FileExistsError, fun _ => mret tt)]
          end ;;;
          mret (negb (String.eqb tail "."))
        else mret true) ;;
     if go_on : bool then os.mkdir_exist_ok name else mret tt)%M.
Proof. destruct depth; reflexivity. Qed.

Lemma makedirs_rec_only_adds_dirs (depth : nat) :
  forall (name : string) (w w' : world) r,
    os.makedirs_rec depth name w = (r, w') -> props.only_adds_dirs w w'.
Proof.
  induction depth as [|depth IH]; intros name w w' r;
    rewrite makedirs_rec_unfold;
    destruct (os.split name) as [head0 tail0];
    destruct (if String.eqb tail0 "" then os.split head0 else (head0, tail0))
      as [head tail];
    unfold mbind at 1, gets at 1;
    destruct (negb (String.eqb head "") && negb (String.eqb tail "")
              && negb (os.exists_ head w)).
  - intros [= <- <-]. apply only_adds_dirs_refl.
  - unfold mbind, mret.
    destruct (os.mkdir_exist_ok name w) as [r1 w1] eqn:Hmk.
    pose proof (mkdir_exist_ok_only_adds_dirs _ _ _ _ Hmk).
    destruct r1; intros [= <- <-]; done.
  - unfold mbind at 1. unfold mbind at 1. unfold try_except.
    destruct (os.makedirs_rec depth head w) as [[[]|e] w1] eqn:Hrec;
      pose proof (IH _ _ _ _ Hrec) as Hw1.
    + unfold mret at 1.
      destruct (negb (String.eqb tail ".")).
      * destruct (os.mkdir_exist_ok name w1) as [r1 w2] eqn:Hmk.
        pose proof (mkdir_exist_ok_only_adds_dirs _ _ _ _ Hmk).
        intros [= <- <-]. eapply only_adds_dirs_trans; eassumption.
      * intros [= <- <-]. exact Hw1.
    + simpl. destruct (isinstance e FileExistsError).
      * unfold mret at 1. unfold mret at 1.
        destruct (negb (String.eqb tail ".")).
        -- destruct (os.mkdir_exist_ok name w1) as [r1 w2] eqn:Hmk.
           pose proof (mkdir_exist_ok_only_adds_dirs _ _ _ _ Hmk).
           intros [= <- <-]. eapply only_adds_dirs_trans; eassumption.
        -- intros [= <- <-]. exact Hw1.
      * unfold mraise. intros [= <- <-]. exact Hw1.
  - unfold mbind, mret.
    destruct (os.mkdir_exist_ok name w) as [r1 w1] eqn:Hmk.
    pose proof (mkdir_exist_ok_only_adds_dirs _ _ _ _ Hmk).
    destruct r1; intros [= <- <-]; done.
Qed.

Lemma makedirs_rec_isdir (depth : nat) (name : string) (w w' : world) :
  os.makedirs_rec depth name w = (Ok tt, w') ->
  os.last_component name <> "." ->
  os.isdir name w' = true.
Proof.
  rewrite makedirs_rec_unfold. unfold os.last_component.
  destruct (os.split name) as [head0 tail0].
  intros Hrun Hlast.
  assert (forall head tail,
            (if String.eqb tail0 "" then os.split head0 else (head0, tail0))
              = (head, tail) -> tail <> ".") as Htail.
  { intros head tail E. destruct (String.eqb tail0 "").
    - rewrite E in Hlast. exact Hlast.
    - injection E as <- <-. exact Hlast. }
  destruct (if String.eqb tail0 "" then os.split head0 else (head0, tail0))
    as [head tail].
  specialize (Htail head tail eq_refl). apply String.eqb_neq in Htail.
  apply mbind_inv in Hrun as (head_missing & w1 & _ & Hrun).
  apply mbind_inv in Hrun as (go_on & w2 & Hgo & Hrun).
  assert (go_on = true) as ->.
  { destruct head_missing.
    - apply mbind_inv in Hgo as (? & ? & _ & Hgo). rewrite Htail in Hgo.
      injection Hgo as <- _. reflexivity.
    - injection Hgo as <- _. reflexivity. }
  exact (mkdir_exist_ok_isdir _ _ _ Hrun).
Qed.

(** X3: [ensure_directory_exists] changes nothing but the set of
    directories, which only grows, whatever its outcome; on the empty path
    it raises FileNotFoundError; and when it returns, the path is a
    directory (a path whose last component is [.] apart, where [makedirs]
    stops at the parent). *)
Theorem ensure_directory_exists_only_adds_directories
    (directory_path : string) (w : world) :
  props.only_adds_dirs w (snd (misc.ensure_directory_exists directory_path w))
  /\
  misc.ensure_directory_exists "" w = (Raise FileNotFoundError, w) /\
  (forall w', misc.ensure_directory_exists directory_path w = (Ok tt, w') ->
     os.last_component directory_path <> "." ->
     os.isdir directory_path w' = true).
Proof.
  split; [|split].
  - apply (makedirs_rec_only_adds_dirs (String.length directory_path)
             directory_path w _
             (fst (misc.ensure_directory_exists directory_path w))).
    apply surjective_pairing.
  - reflexivity.
  - intros w'. apply makedirs_rec_isdir.
Qed.

(** ** Writing the sidecar *)

Lemma write_to_json_steps (d : gmap string pyval) (name : string) (w : world) :
  misc.write_to_json d name w =
    match os.makedirs (os.dirname name) w with
    | (Raise e, w1) => (Raise e, w1)
    | (Ok _, w1) =>
        match misc.open_w name w1 with
        | (Raise e, w2) => (Raise e, w2)
        | (Ok _, w2) =>
            match misc.json_encode_dict (misc.convert_for_json <$> d) with
            | Raise e => (Raise e, w2)
            | Ok members =>
                (Ok tt,
                 set_files <[name := {| content := JsonDoc members;
                                        readable := true |}]> w2)
            end
        end
    end.
Proof.
  unfold misc.write_to_json. rewrite try_except_reraise.
  unfold mbind at 1. destruct (os.makedirs (os.dirname name) w) as [[[]|e] w1];
    [|reflexivity].
  unfold mbind at 1. destruct (misc.open_w name w1) as [[[]|e] w2];
    [|reflexivity].
  unfold misc.json_dump, mbind, lift.
  destruct (misc.json_encode_dict _); reflexivity.
Qed.

Lemma open_w_steps (name : string) (w : world) r w' :
  misc.open_w name w = (r, w') ->
  (forall p, p <> name -> files w' !! p = files w !! p) /\
  dirs w' = dirs w /\ stdin w' = stdin w /\ events w' = events w.
Proof.
  unfold misc.open_w. destruct (os.isdir name w); [intros [= <- <-]; done|].
  destruct (_ && _); intros [= <- <-]; [done|].
  repeat split. intros p Hp. simpl. apply lookup_insert_ne. done.
Qed.

Lemma write_to_json_world
    (dict_name : gmap string pyval) (json_name : string) (w : world) :
  let w' := snd (misc.write_to_json dict_name json_name w) in
  (forall p, p <> json_name -> files w' !! p = files w !! p) /\
  dirs w ⊆ dirs w' /\ stdin w' = stdin w /\ events w' = events w.
Proof.
  cbv zeta. rewrite write_to_json_steps.
  destruct (os.makedirs (os.dirname json_name) w) as [r1 w1] eqn:Hmk.
  destruct (makedirs_rec_only_adds_dirs _ _ _ _ _ Hmk) as (Hf & Hd & Hs & He).
  destruct r1 as [[]|e]; simpl.
  2:{ rewrite Hf. done. }
  destruct (misc.open_w json_name w1) as [r2 w2] eqn:Hopen.
  destruct (open_w_steps _ _ _ _ Hopen) as (Hf2 & Hd2 & Hs2 & He2).
  assert ((forall p, p <> json_name -> files w2 !! p = files w !! p) /\
          dirs w ⊆ dirs w2 /\ stdin w2 = stdin w /\ events w2 = events w)
    as Hw2.
  { split; [|split; [|split]].
    - intros p Hp. rewrite (Hf2 p Hp), Hf. reflexivity.
    - rewrite Hd2. exact Hd.
    - rewrite Hs2. exact Hs.
    - rewrite He2. exact He. }
  destruct r2 as [[]|e]; simpl; [|exact Hw2].
  destruct (misc.json_encode_dict _); simpl; [|exact Hw2].
  destruct Hw2 as (Hf3 & Hd3 & Hs3 & He3). repeat split; try done.
  intros p Hp. rewrite lookup_insert_ne by done. exact (Hf3 p Hp).
Qed.

(** X4: whatever its outcome, [write_to_json] leaves every file other than
    [json_name] as it was, removes no directory and reads no input. *)
Theorem write_to_json_touches_only_its_file
    (dict_name : gmap string pyval) (json_name : string) (w : world) :
  let w' := snd (misc.write_to_json dict_name json_name w) in
  (forall p, p <> json_name -> files w' !! p = files w !! p) /\
  dirs w ⊆ dirs w' /\ stdin w' = stdin w /\ events w' = events w.
Proof. apply write_to_json_world. Qed.

(** X5: once the directory of [json_name] is there, a descriptor holding an
    object the encoder rejects makes [write_to_json] raise TypeError after
    the file was opened for writing: what [json_name] held before is lost,
    and reading it back fails with JSONDecodeError. *)
Theorem failed_write_leaves_truncated_sidecar
    (dict_name : gmap string pyval) (json_name : string) (w w1 : world)
    (k : string) (v : pyval) :
  os.makedirs (os.dirname json_name) w = (Ok tt, w1) ->
  os.isdir (os.dirname json_name) w1 = true ->
  os.isdir json_name w1 = false ->
  dict_name !! k = Some v ->
  props.holds_object v = true ->
  let w2 := set_files <[json_name := {| content := Truncated;
                                        readable := true |}]> w1 in
  misc.write_to_json dict_name json_name w = (Raise TypeError, w2) /\
  props.reparse json_name w2 = (Raise JSONDecodeError, w2).
Proof.
  intros Hmk Hparent Hnodir Hk Hv w2.
  assert (json_name <> "") as Hname.
  { intros ->. change (os.dirname "") with "" in Hparent. discriminate. }
  apply String.eqb_neq in Hname.
  split.
  - rewrite write_to_json_steps, Hmk. unfold misc.open_w.
    rewrite Hnodir, Hparent, andb_false_r.
    destruct (json_encode_dict_outcome (misc.convert_for_json <$> dict_name))
      as (_ & Hbad & _).
    rewrite Hbad; [reflexivity|].
    exists k, (misc.convert_for_json v). split.
    + rewrite lookup_fmap, Hk. reflexivity.
    + rewrite holds_object_convert. exact Hv.
  - unfold props.reparse, mbind, misc.open_r.
    assert (os.isdir json_name w2 = false) as -> by exact Hnodir.
    unfold os.isfile. rewrite Hname. subst w2. simpl.
    rewrite lookup_insert_eq. reflexivity.
Qed.

(** X5 (witness): a descriptor holding a component object, written over
    the sidecar of an earlier run. *)
Lemma object_in_descriptor_destroys_old_sidecar :
  let w1 := snd (os.makedirs "out" samples.finished_project) in
  let w2 := set_files <["out/run.json" := {| content := Truncated;
                                             readable := true |}]> w1 in
  outcome (props.reparse "out/run.json" samples.finished_project) = None /\
  misc.write_to_json samples.job_with_object "out/run.json"
    samples.finished_project = (Raise TypeError, w2) /\
  props.reparse "out/run.json" w2 = (Raise JSONDecodeError, w2).
Proof.
  cbv zeta. split; [vm_compute; reflexivity|].
  assert (outcome (os.makedirs "out" samples.finished_project) = None) as Hmk
    by (vm_compute; reflexivity).
  apply (outcome_None tt) in Hmk.
  destruct (returned tt (os.makedirs "out" samples.finished_project)).
  apply (failed_write_leaves_truncated_sidecar samples.job_with_object
           "out/run.json" samples.finished_project _
           "device" (PObject "Component")).
  - exact Hmk.
  - vm_compute. reflexivity.
  - vm_compute. reflexivity.
  - reflexivity.
  - reflexivity.
Defined.

(** X6: once the directory of [json_name] is there and [json_name] is not
    itself a directory, [write_to_json] succeeds on every descriptor that
    holds no object the encoder rejects. *)
Theorem write_to_json_succeeds_without_foreign_objects
    (dict_name : gmap string pyval) (json_name : string) (w w1 : world) :
  os.makedirs (os.dirname json_name) w = (Ok tt, w1) ->
  os.isdir (os.dirname json_name) w1 = true ->
  os.isdir json_name w1 = false ->
  (forall k v, dict_name !! k = Some v -> props.holds_object v = false) ->
  exists w',
    misc.write_to_json dict_name json_name w = (Ok tt, w') /\
    dirs w' = dirs w1 /\
    props.reparse json_name w'
      = (Ok (props.as_json_value <$> dict_name), w').
Proof.
  intros Hmk Hparent Hnodir Hall.
  destruct (json_encode_dict_outcome (misc.convert_for_json <$> dict_name))
    as (_ & _ & Hgood).
  destruct Hgood as [members Henc].
  { intros k v Hk. rewrite lookup_fmap in Hk.
    destruct (dict_name !! k) as [v0|] eqn:Hk0; [|discriminate].
    injection Hk as <-. rewrite holds_object_convert. eauto. }
  assert (misc.write_to_json dict_name json_name w
          = (Ok tt, set_files <[json_name := {| content := JsonDoc members;
                                                readable := true |}]>
                      (set_files <[json_name := {| content := Truncated;
                                                   readable := true |}]> w1)))
    as Hwrite.
  { rewrite write_to_json_steps, Hmk. unfold misc.open_w.
    rewrite Hnodir, Hparent, andb_false_r, Henc. reflexivity. }
  eexists. split; [exact Hwrite|]. split; [reflexivity|].
  exact (write_to_json_content _ _ _ _ Hwrite).
Qed.

(** X6 (witness): the descriptor with complex values, written into the
    output directory of the project. *)
Lemma complex_job_can_be_written :
  exists w',
    misc.write_to_json samples.complex_job "out/run.json" samples.project
      = (Ok tt, w') /\
    dirs w' = dirs (snd (os.makedirs "out" samples.project)) /\
    props.reparse "out/run.json" w'
      = (Ok (props.as_json_value <$> samples.complex_job), w').
Proof.
  assert (outcome (os.makedirs "out" samples.project) = None) as Hmk
    by (vm_compute; reflexivity).
  apply (outcome_None tt) in Hmk.
  destruct (returned tt (os.makedirs "out" samples.project)).
  apply (write_to_json_succeeds_without_foreign_objects samples.complex_job
           "out/run.json" samples.project _ Hmk).
  - vm_compute. reflexivity.
  - vm_compute. reflexivity.
  - intros k v Hk. unfold samples.complex_job in Hk.
    apply lookup_insert_Some in Hk as [[_ <-]|[_ Hk]]; [reflexivity|].
    apply lookup_singleton_Some in Hk as [_ <-]. reflexivity.
Defined.

(** ** The layers of the descriptor *)

(** What [load_config] does in each state of config.json. *)
Lemma load_config_steps (p : gmap string pyval) (w : world) :
  simulate_device.load_config p w =
    if os.isdir "config.json" w then (Raise OSError, w)
    else match files w !! "config.json" with
         | None =>
             (Ok p, add_event (Warned "config.json not found") w)
         | Some fl =>
             if negb (readable fl) then (Raise PermissionError, w)
             else match content fl with
                  | JsonDoc members =>
                      (Ok ((misc.json_decode <$> members) ∪ p), w)
                  | _ => (Raise ValueError, w)
                  end
         end.
Proof.
  unfold simulate_device.load_config, try_except, mbind, misc.open_r.
  destruct (os.isdir "config.json" w); [reflexivity|].
  unfold os.isfile. simpl.
  destruct (files w !! "config.json") as [fl|].
  - rewrite bool_decide_eq_true_2 by eauto. simpl.
    destruct (readable fl); [|reflexivity]. simpl.
    destruct (content fl); reflexivity.
  - rewrite bool_decide_eq_false_2 by (intros [? ?]; discriminate).
    reflexivity.
Qed.

Lemma load_config_world (p : gmap string pyval) (w : world) :
  let w' := snd (simulate_device.load_config p w) in
  files w' = files w /\ dirs w' = dirs w /\ stdin w' = stdin w /\
  (events w' = events w \/
   events w' = Warned "config.json not found" :: events w).
Proof.
  cbv zeta. rewrite load_config_steps.
  destruct (os.isdir "config.json" w); [simpl; auto|].
  destruct (files w !! "config.json") as [fl|]; [|simpl; auto].
  destruct (negb (readable fl)); [simpl; auto|].
  destruct (content fl); simpl; auto.
Qed.

Lemma validate_file_path_world (path : pyval) (w : world) :
  snd (misc.validate_file_path path w) = w.
Proof.
  destruct path as [| | | | |path| | | | |]; try reflexivity.
  rewrite validate_file_path_spec.
  destruct (negb (os.exists_ path w)); [reflexivity|].
  destruct (negb (os.can_read path w)); reflexivity.
Qed.

Lemma resolve_world (defaults parameters : gmap string pyval) (w : world) :
  snd (simulate_device.resolve defaults parameters w)
  = snd (simulate_device.load_config defaults w).
Proof.
  destruct (simulate_device.load_config defaults w) as [[pc|e] w1] eqn:Hc.
  - rewrite (resolve_unfold _ _ _ _ _ Hc). cbv zeta. simpl.
    destruct (truthy _) as [[|]|e]; try reflexivity.
    destruct ((parameters ∪ pc) !! "predefined_gds") as [path|];
      [|reflexivity].
    pose proof (validate_file_path_world path w1) as Hv.
    destruct (misc.validate_file_path path w1) as [[b|e] w2]; simpl in Hv;
      subst w2; [|reflexivity].
    destruct ((parameters ∪ pc) !! "file_name") as [fn|]; [|reflexivity].
    destruct (add_str fn ".gds"); reflexivity.
  - unfold simulate_device.resolve. rewrite (mbind_Raise _ _ _ _ _ Hc).
    reflexivity.
Qed.

Lemma resolve_keeps_world
    (defaults parameters : gmap string pyval) (w : world) :
  let w' := snd (simulate_device.resolve defaults parameters w) in
  files w' = files w /\ dirs w' = dirs w /\ stdin w' = stdin w /\
  (events w' = events w \/
   events w' = Warned "config.json not found" :: events w).
Proof.
  cbv zeta. rewrite resolve_world. apply load_config_world.
Qed.

(** X7: parameter resolution only reads: whatever its outcome, files,
    directories and pending input are as before, and the trace gains at
    most the warning that config.json was not found. *)
Theorem resolve_only_reads
    (defaults parameters : gmap string pyval) (w : world) :
  let w' := snd (simulate_device.resolve defaults parameters w) in
  files w' = files w /\ dirs w' = dirs w /\ stdin w' = stdin w /\
  (events w' = events w \/
   events w' = Warned "config.json not found" :: events w).
Proof. apply resolve_keeps_world. Qed.

(** X8: when config.json holds a JSON object, every key of the resolved
    descriptor other than [gds_file] has the value of the overrides if they
    give one, else that of config.json if it gives one, else the built-in
    default; nothing is logged. *)
Theorem config_layer_sits_between_overrides_and_defaults
    (defaults parameters : gmap string pyval) (w w' : world)
    (p : gmap string pyval) (fl : file) (members : gmap string json) :
  os.isdir "config.json" w = false ->
  files w !! "config.json" = Some fl ->
  readable fl = true ->
  content fl = JsonDoc members ->
  simulate_device.resolve defaults parameters w = (Ok p, w') ->
  w' = w /\
  forall k, k <> "gds_file" ->
    p !! k = match parameters !! k with
             | Some v => Some v
             | None =>
                 match members !! k with
                 | Some j => Some (misc.json_decode j)
                 | None => defaults !! k
                 end
             end.
Proof.
  intros Hdir Hfl Hread Hcontent Hres.
  destruct (resolve_inv _ _ _ _ _ Hres)
    as (pc & fn & path & Hc & _ & _ & _ & _ & ->).
  rewrite load_config_steps, Hdir, Hfl, Hread, Hcontent in Hc. simpl in Hc.
  injection Hc as <- <-. split; [reflexivity|].
  intros k Hk. rewrite lookup_insert_ne by done.
  rewrite !lookup_union, lookup_fmap.
  destruct (parameters !! k) as [v|]; simpl.
  - destruct (members !! k), (defaults !! k); reflexivity.
  - destruct (members !! k); simpl; [|destruct (defaults !! k); reflexivity].
    destruct (defaults !! k); reflexivity.
Qed.

(** X8 (witness): the overrides of a device script in a project whose
    config.json sets the wavelength and the output base name: the base
    name of the overrides wins, the wavelength of config.json wins over the
    default, the wavelength span is the default. *)
Lemma config_layer_in_configured_project :
  exists p w',
    lumerical.resolve "20240101120000" samples.coupler_job
      samples.configured_project = (Ok p, w') /\
    w' = samples.configured_project /\
    p !! "file_name" = Some (PStr "out/run") /\
    p !! "wavelength" = Some (PFloat 1.31) /\
    p !! "wav_span" = Some (PFloat 0.02).
Proof.
  unfold lumerical.resolve.
  pose (R := simulate_device.resolve (lumerical.defaults "20240101120000")
               samples.coupler_job samples.configured_project).
  assert (outcome R = None) as HR by (vm_compute; reflexivity).
  apply (outcome_None ∅) in HR.
  destruct (config_layer_sits_between_overrides_and_defaults
              (lumerical.defaults "20240101120000") samples.coupler_job
              samples.configured_project (snd R) (returned ∅ R)
              {| content := JsonDoc {[ "wavelength" := JFloat 1.31;
                                       "file_name" := JStr "from_config" ]};
                 readable := true |}
              {[ "wavelength" := JFloat 1.31;
                 "file_name" := JStr "from_config" ]})
    as [Hw Hp].
  - vm_compute. reflexivity.
  - reflexivity.
  - reflexivity.
  - reflexivity.
  - exact HR.
  - exists (returned ∅ R), (snd R). split; [exact HR|]. split; [exact Hw|].
    split; [|split].
    + rewrite (Hp "file_name") by discriminate. reflexivity.
    + rewrite (Hp "wavelength") by discriminate. reflexivity.
    + rewrite (Hp "wav_span") by discriminate. reflexivity.
Defined.

(** X9: when there is no config.json, resolution logs a warning and goes
    on with the built-in defaults under the overrides. *)
Theorem missing_config_falls_back_to_defaults
    (defaults parameters : gmap string pyval) (w w' : world)
    (p : gmap string pyval) :
  os.exists_ "config.json" w = false ->
  simulate_device.resolve defaults parameters w = (Ok p, w') ->
  w' = add_event (Warned "config.json not found") w /\
  forall k, k <> "gds_file" ->
    p !! k = match parameters !! k with
             | Some v => Some v
             | None => defaults !! k
             end.
Proof.
  intros Hex Hres.
  destruct (resolve_inv _ _ _ _ _ Hres)
    as (pc & fn & path & Hc & _ & _ & _ & _ & ->).
  unfold os.exists_ in Hex. apply orb_false_iff in Hex as [Hfile Hdir].
  rewrite load_config_steps, Hdir in Hc.
  unfold os.isfile in Hfile. simpl in Hfile.
  apply bool_decide_eq_false in Hfile.
  destruct (files w !! "config.json") as [fl|] eqn:Hfl;
    [destruct Hfile; eauto|].
  injection Hc as <- <-. split; [reflexivity|].
  intros k Hk. rewrite lookup_insert_ne by done. rewrite lookup_union.
  destruct (parameters !! k), (defaults !! k); reflexivity.
Qed.

(** X9 (witness): the same overrides in the project without
    config.json. *)
Lemma defaults_apply_without_config :
  exists p w',
    lumerical.resolve "20240101120000" samples.coupler_job samples.project
      = (Ok p, w') /\
    w' = add_event (Warned "config.json not found") samples.project /\
    p !! "file_name" = Some (PStr "out/run") /\
    p !! "wavelength" = Some (PFloat 0.85).
Proof.
  unfold lumerical.resolve.
  pose (R := simulate_device.resolve (lumerical.defaults "20240101120000")
               samples.coupler_job samples.project).
  assert (outcome R = None) as HR by (vm_compute; reflexivity).
  apply (outcome_None ∅) in HR.
  destruct (missing_config_falls_back_to_defaults
              (lumerical.defaults "20240101120000") samples.coupler_job
              samples.project (snd R) (returned ∅ R)) as [Hw Hp].
  - vm_compute. reflexivity.
  - exact HR.
  - exists (returned ∅ R), (snd R). split; [exact HR|]. split; [exact Hw|].
    split.
    + rewrite (Hp "file_name") by discriminate. reflexivity.
    + rewrite (Hp "wavelength") by discriminate. reflexivity.
Defined.

(** X10: a config.json that is there but cannot be used ends every call,
    whatever the overrides: ValueError when it holds text that is no JSON
    document (or a document cut short), PermissionError when it cannot be
    read, OSError when it is a directory.  Only a config.json that does not
    exist is forgiven. *)
Theorem unusable_config_aborts_resolution
    (defaults parameters : gmap string pyval) (w : world) (fl : file) :
  (os.isdir "config.json" w = true ->
   simulate_device.resolve defaults parameters w = (Raise OSError, w)) /\
  (os.isdir "config.json" w = false ->
   files w !! "config.json" = Some fl ->
   (readable fl = false ->
    simulate_device.resolve defaults parameters w
      = (Raise PermissionError, w)) /\
   (readable fl = true ->
    (exists raw, content fl = Text raw) \/ content fl = Truncated ->
    simulate_device.resolve defaults parameters w = (Raise ValueError, w))).
Proof.
  unfold simulate_device.resolve. split.
  - intros Hdir. apply mbind_Raise. rewrite load_config_steps, Hdir.
    reflexivity.
  - intros Hdir Hfl. split.
    + intros Hread. apply mbind_Raise.
      rewrite load_config_steps, Hdir, Hfl, Hread. reflexivity.
    + intros Hread Hdoc. apply mbind_Raise.
      rewrite load_config_steps, Hdir, Hfl, Hread. simpl.
      destruct Hdoc as [[raw ->]| ->]; reflexivity.
Qed.

(** ** Where [simulate_predefined_gds] stops *)

Lemma engine_calls_same_events (w w' : world) :
  events w' = events w \/
  events w' = Warned "config.json not found" :: events w ->
  props.engine_calls w' = props.engine_calls w.
Proof. unfold props.engine_calls. intros [->| ->]; reflexivity. Qed.


(** ** The run flag *)



(** ** Where the call stops after the sidecar *)





Lemma engine_calls_prompted (n : nat) (w : world) :
  props.engine_calls (Nat.iter n (add_event Prompted) w) = props.engine_calls w.
Proof. induction n as [|n IH]; [reflexivity|]. simpl. exact IH. Qed.




(** ** The prompt, line after line *)

Lemma while_True_skips (p : gmap string pyval) (junk : list string)
    (rest : list input_event) :
  props.names_intact p = true ->
  forallb props.unrecognised junk = true ->
  simulate_device.while_True p (map Line junk ++ rest)
  = let '(r, rest', n) := simulate_device.while_True p rest in
    (r, rest', (length junk + n)%nat).
Proof.
  intros Hp. induction junk as [|s junk IH]; intros Hjunk.
  - simpl. destruct (simulate_device.while_True p rest) as [[r rest'] n].
    reflexivity.
  - simpl in Hjunk. apply andb_true_iff in Hjunk as [Hs Hjunk].
    unfold props.unrecognised in Hs.
    apply andb_true_iff in Hs as [Hy Hn].
    apply negb_true_iff in Hy. apply negb_true_iff in Hn.
    change (map Line (s :: junk) ++ rest)%list
      with (Line s :: (map Line junk ++ rest))%list.
    rewrite (while_True_intact _ _ Hp). cbv zeta.
    rewrite Hy, Hn, (IH Hjunk).
    destruct (simulate_device.while_True p rest) as [[r rest'] n]. reflexivity.
Qed.

(** X14: with the names the loop reads intact, lines that are neither [y]
    nor [n] after stripping and lower-casing are read and skipped, one
    prompt each, and the first event after them decides; when the input
    ends before a recognised answer, the loop ends in EOFError, which
    [simulate_predefined_gds] does not catch. *)
Theorem prompt_skips_unrecognised_lines
    (p : gmap string pyval) (junk : list string) (rest : list input_event)
    (s : string) :
  props.names_intact p = true ->
  forallb props.unrecognised junk = true ->
  let asked := S (length junk) in
  (str.lower (str.strip s) = "y" ->
   simulate_device.while_True p (map Line junk ++ Line s :: rest)
     = (Ok simulate_device.REUSE_EXISTING, rest, asked)) /\
  (str.lower (str.strip s) = "n" ->
   simulate_device.while_True p (map Line junk ++ Line s :: rest)
     = (Ok simulate_device.ABORTED, rest, asked)) /\
  simulate_device.while_True p (map Line junk ++ Interrupt :: rest)
    = (Ok simulate_device.ABORTED, rest, asked) /\
  simulate_device.while_True p (map Line junk ++ EndOfInput :: rest)
    = (Raise EOFError, rest, asked) /\
  simulate_device.while_True p (map Line junk) = (Raise EOFError, [], asked).
Proof.
  intros Hp Hjunk asked. subst asked.
  replace (S (length junk)) with (length junk + 1)%nat by lia.
  repeat split.
  - intros Hy. rewrite (while_True_skips _ _ _ Hp Hjunk).
    rewrite (while_True_intact _ _ Hp). cbv zeta. rewrite Hy. reflexivity.
  - intros Hn. rewrite (while_True_skips _ _ _ Hp Hjunk).
    rewrite (while_True_intact _ _ Hp). cbv zeta. rewrite Hn.
    destruct (String.eqb "n" "y") eqn:E; [discriminate E|]. reflexivity.
  - rewrite (while_True_skips _ _ _ Hp Hjunk).
    rewrite (while_True_intact _ _ Hp). reflexivity.
  - rewrite (while_True_skips _ _ _ Hp Hjunk).
    rewrite (while_True_intact _ _ Hp). reflexivity.
  - rewrite <- (app_nil_r (map Line junk)).
    rewrite (while_True_skips _ _ _ Hp Hjunk).
    rewrite (while_True_intact _ _ Hp). reflexivity.
Qed.

(** X14 (witness): three lines that are no answer, then [ Y ]. *)
Lemma three_unrecognised_lines_then_yes :
  simulate_device.while_True ∅
    [Line "maybe"; Line ""; Line "yes"; Line " Y "; Line "n"]
    = (Ok simulate_device.REUSE_EXISTING, [Line "n"], 4%nat) /\
  simulate_device.while_True ∅ [Line "maybe"; Line ""; Line "yes"]
    = (Raise EOFError, [], 4%nat).
Proof.
  assert (props.names_intact ∅ = true) as Hp by (vm_compute; reflexivity).
  destruct (prompt_skips_unrecognised_lines ∅ ["maybe"; ""; "yes"]
              [Line "n"] " Y " Hp eq_refl) as (Hy & _ & _ & _ & Heof).
  split; [apply Hy; reflexivity | exact Heof].
Defined.

(** ** The grid, point by point *)

Lemma lookup_linspace_last (start stop : Q) (num : nat) :
  (1 < num)%nat -> np.linspace start stop num !! (num - 1)%nat = Some stop.
Proof.
  intros Hn. unfold np.linspace. apply Nat.ltb_lt in Hn as Hb. rewrite Hb.
  apply list_lookup_insert_eq. rewrite length_map, length_seq. lia.
Qed.

Lemma lookup_linspace_inner (start stop : Q) (num i : nat) :
  (S i < num)%nat ->
  np.linspace start stop num !! i
  = Some (inject_Z (Z.of_nat i)
          * ((stop - start) / inject_Z (Z.of_nat (num - 1))) + start)%Q.
Proof.
  intros Hi. unfold np.linspace.
  assert ((1 <? num)%nat = true) as -> by (apply Nat.ltb_lt; lia).
  rewrite list_lookup_insert_ne by lia.
  rewrite list_lookup_fmap, lookup_seq_lt by lia. reflexivity.
Qed.

Lemma linspace_step_nonneg (start stop : Q) (n : nat) :
  (start <= stop)%Q -> (0 <= (stop - start) / inject_Z (Z.of_nat n))%Q.
Proof.
  intros Hle. destruct n as [|k].
  - unfold Qdiv, Qinv. simpl. rewrite Qmult_0_r. apply Qle_refl.
  - apply Qle_shift_div_l.
    + change 0%Q with (inject_Z 0). rewrite <- Zlt_Qlt. lia.
    + lra.
Qed.

Lemma linspace_monotone (start stop : Q) (num i j : nat) (x y : Q) :
  (start <= stop)%Q -> (i <= j)%nat ->
  np.linspace start stop num !! i = Some x ->
  np.linspace start stop num !! j = Some y ->
  (x <= y)%Q.
Proof.
  intros Hle Hij Hx Hy.
  pose proof (lookup_lt_Some _ _ _ Hx) as Hi.
  pose proof (lookup_lt_Some _ _ _ Hy) as Hj.
  rewrite length_linspace in Hi, Hj.
  destruct (decide (i = j)) as [->|Hne]; [rewrite Hx in Hy; injection Hy as ->; apply Qle_refl|].
  pose proof (linspace_step_nonneg start stop (num - 1) Hle) as Hstep.
  set (step := ((stop - start) / inject_Z (Z.of_nat (num - 1)))%Q) in *.
  rewrite lookup_linspace_inner in Hx by lia. injection Hx as <-. fold step.
  assert (inject_Z (Z.of_nat i) <= inject_Z (Z.of_nat j))%Q as Hq
    by (rewrite <- Zle_Qle; lia).
  destruct (decide (S j = num)) as [Hlast|Hinner].
  - replace j with (num - 1)%nat in Hy by lia.
    rewrite lookup_linspace_last in Hy by lia. injection Hy as <-.
    assert (inject_Z (Z.of_nat (num - 1)) * step == stop - start)%Q as Hfull.
    { unfold step. field. intros H0.
      assert (0 < inject_Z (Z.of_nat (num - 1)))%Q
        by (change 0%Q with (inject_Z 0); rewrite <- Zlt_Qlt; lia).
      lra. }
    assert (inject_Z (Z.of_nat i) * step
            <= inject_Z (Z.of_nat (num - 1)) * step)%Q.
    { apply Qmult_le_compat_r; [|exact Hstep]. rewrite <- Zle_Qle. lia. }
    lra.
  - rewrite lookup_linspace_inner in Hy by lia. injection Hy as <-. fold step.
    assert (inject_Z (Z.of_nat i) * step <= inject_Z (Z.of_nat j) * step)%Q
      by (apply Qmult_le_compat_r; assumption).
    lra.
Qed.

Lemma round_average_between (i0 i1 : nat) :
  (i0 <= i1)%nat ->
  (i0 <= np.round_average i0 i1 <= i1)%nat.
Proof.
  intros Hle. unfold np.round_average.
  pose proof (Nat.div_mod_eq (i0 + i1) 2) as Hdm.
  pose proof (Nat.mod_upper_bound (i0 + i1) 2 ltac:(lia)) as Hm.
  destruct (Nat.even (i0 + i1)) eqn:Ev.
  - lia.
  - assert ((i0 + i1) mod 2 = 1)%nat as Hodd.
    { rewrite <- Nat.negb_odd in Ev. apply negb_false_iff in Ev.
      apply Nat.odd_spec in Ev. destruct Ev as [k Hk].
      rewrite Hk. rewrite Nat.add_comm, Nat.mul_comm, Nat.Div0.mod_add.
      reflexivity. }
    destruct (Nat.even ((i0 + i1) / 2)); lia.
Qed.

(** ** What [find_FWHM] returns *)

Section find_FWHM_results.
Import find_FWHM_py.
Variable CubicSpline : list Q -> list Q -> result (Q -> Q).

Lemma half_level_of_total (samples : list Q) :
  samples <> [] -> exists h, half_level_of samples = Ok h.
Proof. destruct samples; [done|]. intros _. simpl. eauto. Qed.

Lemma find_FWHM_of_crossings (wav T wav_interp : list Q)
    (found0 found1 : option nat) :
  crossings CubicSpline wav T = Ok (wav_interp, found0, found1) ->
  exists w0 w1 peak_wav,
    wav_interp !! default 0%nat found0 = Some w0 /\
    wav_interp !! default 0%nat found1 = Some w1 /\
    wav_interp !! np.round_average (default 0%nat found0)
                    (default 0%nat found1) = Some peak_wav /\
    find_FWHM CubicSpline wav T = Ok ((w1 - w0)%Q, peak_wav).
Proof.
  intros Hc.
  destruct (crossings_inv _ _ _ _ _ _ Hc)
    as (wav_min & wav_max & T_interp & half_level
        & E1 & E2 & E3 & Hgrid & E4 & E5 & E6).
  assert (length wav_interp = 1000%nat) as Hlen
    by (rewrite Hgrid; apply length_linspace).
  assert (default 0 found0 < 1000)%nat as H0.
  { destruct found0 as [i|]; simpl; [|lia].
    apply scan_seq_found_lt in E5. lia. }
  assert (default 0 found1 < 1000)%nat as H1.
  { destruct found1 as [i|]; simpl; [|lia].
    apply scan_seq_found_lt in E6. lia. }
  pose proof (round_average_le _ _ _ H0 H1) as Hp.
  destruct (lookup_lt_is_Some_2 wav_interp (default 0%nat found0))
    as [w0 Hw0]; [lia|].
  destruct (lookup_lt_is_Some_2 wav_interp (default 0%nat found1))
    as [w1 Hw1]; [lia|].
  destruct (lookup_lt_is_Some_2 wav_interp
              (np.round_average (default 0%nat found0) (default 0%nat found1)))
    as [pk Hpk]; [lia|].
  exists w0, w1, pk. split; [exact Hw0|]. split; [exact Hw1|].
  split; [exact Hpk|].
  unfold find_FWHM. rewrite Hc, rbind_Ok. cbv zeta.
  assert (np.getitem (record_index 1 found1
            (record_index 0 found0 [0%nat; 0%nat])) 1
          = Ok (default 0%nat found1)) as ->
    by (destruct found0, found1; reflexivity).
  rewrite rbind_Ok, (getitem_nat _ _ _ Hw1), rbind_Ok.
  assert (np.getitem (record_index 1 found1
            (record_index 0 found0 [0%nat; 0%nat])) 0
          = Ok (default 0%nat found0)) as ->
    by (destruct found0, found1; reflexivity).
  rewrite rbind_Ok, (getitem_nat _ _ _ Hw0), rbind_Ok.
  rewrite (getitem_nat _ _ _ Hpk). reflexivity.
Qed.

Lemma find_FWHM_Ok_inv (wav T : list Q) (r : Q * Q) :
  find_FWHM CubicSpline wav T = Ok r ->
  exists wav_interp found0 found1 w0 w1,
    crossings CubicSpline wav T = Ok (wav_interp, found0, found1) /\
    wav_interp !! default 0%nat found0 = Some w0 /\
    wav_interp !! default 0%nat found1 = Some w1 /\
    fst r = (w1 - w0)%Q.
Proof.
  intros Hr.
  destruct (crossings CubicSpline wav T) as [[[wav_interp f0] f1]|e] eqn:Hc.
  - destruct (find_FWHM_of_crossings _ _ _ _ _ Hc)
      as (w0 & w1 & pk & Hw0 & Hw1 & _ & Hf).
    rewrite Hf in Hr. injection Hr as <-.
    exists wav_interp, f0, f1, w0, w1. done.
  - unfold find_FWHM in Hr. rewrite Hc in Hr. discriminate.
Qed.

End find_FWHM_results.

Section margin_facts.
Import find_FWHM_py props.
Variable T_interp : Q -> Q.
Variable half_level wav_min wav_max : Q.

Lemma right_crossing_needs_span (wav_interp : list Q) (ii : nat) :
  right_crossing wav_interp T_interp half_level wav_min wav_max ii ->
  (0.01 < wav_max - wav_min)%Q.
Proof. intros (x & xn & _ & _ & _ & _ & Hlo & Hhi). lra. Qed.

Lemma left_crossing_needs_span (wav_interp : list Q) (ii : nat) :
  left_crossing wav_interp T_interp half_level wav_min wav_max ii ->
  (0.006 < wav_max - wav_min)%Q.
Proof. intros (x & xn & _ & _ & _ & _ & Hlo & Hhi). lra. Qed.

Lemma left_crossing_not_first (ii : nat) :
  left_crossing (np.linspace wav_min wav_max 1000) T_interp half_level
    wav_min wav_max ii ->
  (1 <= ii)%nat.
Proof.
  intros (x & xn & Hx & _ & _ & _ & Hlo & _).
  destruct ii as [|ii]; [|lia]. exfalso.
  rewrite lookup_linspace_0 in Hx by lia. injection Hx as <-.
  change (inject_Z 0) with 0%Q in Hlo. lra.
Qed.

End margin_facts.

Section scan_raise.
Import find_FWHM_py.
Variable cond : nat -> result bool.

Lemma scan_seq_Raise_inv (n a : nat) (e : exn) :
  scan cond (seq a n) = Raise e ->
  exists ii, (a <= ii < a + n)%nat /\ cond ii = Raise e /\
             forall j, (a <= j < ii)%nat -> cond j = Ok false.
Proof.
  revert a. induction n as [|n IH]; intros a; simpl; [discriminate|].
  destruct (cond a) as [[|]|e'] eqn:Ha; simpl.
  - discriminate.
  - intros H. destruct (IH _ H) as (ii & Hr & Hii & Hprev).
    exists ii. split; [lia|]. split; [exact Hii|].
    intros j Hj. destruct (decide (j = a)) as [->|]; [exact Ha|].
    apply Hprev. lia.
  - intros [= ->]. exists a. split; [lia|]. split; [exact Ha|].
    intros j Hj. lia.
Qed.

End scan_raise.

Section second_scan_outcomes.
Import find_FWHM_py props.
Variable T_interp : Q -> Q.
Variable half_level wav_min wav_max : Q.

Local Abbreviation grid := (np.linspace wav_min wav_max 1000).

Lemma second_scan_returns_when_end_is_high :
  (half_level <= T_interp wav_max)%Q ->
  exists found, second_scan grid T_interp half_level wav_min wav_max = Ok found.
Proof.
  intros Hhigh. apply scan_seq_total. intros j Hj.
  rewrite length_linspace in Hj.
  destruct (decide (j = 999%nat)) as [->|Hne].
  - rewrite (second_cond_last _ _ _ _ _ 999 wav_max).
    + apply ltb_ge in Hhigh. rewrite Hhigh. eauto.
    + rewrite length_linspace. reflexivity.
    + apply (lookup_linspace_last wav_min wav_max 1000). lia.
  - destruct (second_cond_ok grid T_interp half_level wav_min wav_max j)
      as (b & Hb & _); [rewrite length_linspace; lia | eauto].
Qed.

Lemma second_scan_Raise_inv (e : exn) :
  second_scan grid T_interp half_level wav_min wav_max = Raise e ->
  e = IndexError /\ (T_interp wav_max < half_level)%Q /\
  forall ii, ~ right_crossing grid T_interp half_level wav_min wav_max ii.
Proof.
  intros H. apply scan_seq_Raise_inv in H as (ii & Hr & Hii & Hprev).
  rewrite length_linspace in Hr.
  assert (ii = 999%nat) as ->.
  { destruct (decide (ii = 999%nat)) as [|Hne]; [done|].
    destruct (second_cond_ok grid T_interp half_level wav_min wav_max ii)
      as (b & Hb & _); [rewrite length_linspace; lia|].
    rewrite Hb in Hii. discriminate. }
  rewrite (second_cond_last _ _ _ _ _ 999 wav_max) in Hii.
  2:{ rewrite length_linspace. reflexivity. }
  2:{ apply (lookup_linspace_last wav_min wav_max 1000). lia. }
  destruct (np.ltb (T_interp wav_max) half_level) eqn:E; [|discriminate].
  injection Hii as <-. split; [reflexivity|]. split; [apply ltb_lt, E|].
  intros j Hc. pose proof (right_crossing_lt _ _ _ _ _ _ Hc) as Hlt.
  rewrite length_linspace in Hlt.
  destruct (second_cond_ok grid T_interp half_level wav_min wav_max j)
    as (b & Hb & Hiff); [rewrite length_linspace; lia|].
  apply Hiff in Hc. subst b. rewrite Hprev in Hb by lia. discriminate.
Qed.

End second_scan_outcomes.

Section find_FWHM_outcomes.
Import find_FWHM_py props.
Variable CubicSpline : list Q -> list Q -> result (Q -> Q).

Lemma grid_nonempty (T_interp : Q -> Q) (lo hi : Q) :
  map T_interp (np.linspace lo hi 1000) <> [].
Proof.
  intros H. apply (f_equal length) in H.
  rewrite length_map, length_linspace in H. discriminate.
Qed.

Lemma find_FWHM_returns (wav T : list Q) (wav_min wav_max : Q)
    (T_interp : Q -> Q) (half_level : Q) :
  np.min wav = Ok wav_min -> np.max wav = Ok wav_max ->
  CubicSpline wav T = Ok T_interp ->
  half_level_of (map T_interp (np.linspace wav_min wav_max 1000))
    = Ok half_level ->
  (half_level <= T_interp wav_max)%Q ->
  exists FWHM peak_wav, find_FWHM CubicSpline wav T = Ok (FWHM, peak_wav).
Proof.
  intros E1 E2 E3 E4 Hhigh.
  destruct (first_scan_total (np.linspace wav_min wav_max 1000) T_interp
              half_level wav_min wav_max) as [f0 E5].
  destruct (second_scan_returns_when_end_is_high T_interp half_level
              wav_min wav_max Hhigh) as [f1 E6].
  assert (crossings CubicSpline wav T
          = Ok (np.linspace wav_min wav_max 1000, f0, f1)) as Hc.
  { unfold crossings. rewrite E1, rbind_Ok, E2, rbind_Ok, E3, rbind_Ok.
    cbv zeta. rewrite E4, rbind_Ok, E5, rbind_Ok, E6. reflexivity. }
  destruct (find_FWHM_of_crossings _ _ _ _ _ _ Hc)
    as (w0 & w1 & pk & _ & _ & _ & Hf).
  eauto.
Qed.

Lemma crossings_Raise_inv (wav T : list Q) (e : exn) :
  crossings CubicSpline wav T = Raise e ->
  (wav = [] /\ e = ValueError) \/
  CubicSpline wav T = Raise e \/
  (e = IndexError /\
   exists wav_min wav_max T_interp half_level,
     np.min wav = Ok wav_min /\ np.max wav = Ok wav_max /\
     CubicSpline wav T = Ok T_interp /\
     half_level_of (map T_interp (np.linspace wav_min wav_max 1000))
       = Ok half_level /\
     (T_interp wav_max < half_level)%Q /\
     forall ii, ~ right_crossing (np.linspace wav_min wav_max 1000) T_interp
                    half_level wav_min wav_max ii).
Proof.
  unfold crossings. destruct wav as [|x wav']; [intros [= <-]; by left|].
  set (wav := x :: wav').
  assert (exists lo, np.min wav = Ok lo) as [lo E1] by (simpl; eauto).
  assert (exists hi, np.max wav = Ok hi) as [hi E2] by (simpl; eauto).
  rewrite E1, rbind_Ok, E2, rbind_Ok.
  destruct (CubicSpline wav T) as [T_interp|e'] eqn:E3;
    [|intros [= ->]; right; by left].
  rewrite rbind_Ok. cbv zeta.
  destruct (half_level_of_total _ (grid_nonempty T_interp lo hi)) as [h E4].
  rewrite E4, rbind_Ok.
  destruct (first_scan_total (np.linspace lo hi 1000) T_interp h lo hi)
    as [f0 E5].
  rewrite E5, rbind_Ok.
  destruct (second_scan (np.linspace lo hi 1000) T_interp h lo hi)
    as [f1|e'] eqn:E6; [discriminate|].
  intros [= ->]. right. right.
  destruct (second_scan_Raise_inv _ _ _ _ _ E6) as (-> & Hlow & Hnone).
  split; [reflexivity|]. exists lo, hi, T_interp, h. done.
Qed.

End find_FWHM_outcomes.

(** X15: [find_FWHM] can fail in three ways only: ValueError on an empty
    wavelength array, whatever [CubicSpline] raises on the samples, and
    IndexError from the second loop, which happens exactly when the
    interpolant at the largest wavelength is below the half level and no
    index qualifies as a right crossing.  The indexing after the loops
    never fails. *)
Theorem find_FWHM_fails_in_three_ways
    (CubicSpline : list Q -> list Q -> result (Q -> Q))
    (wav T : list Q) (e : exn) :
  find_FWHM_py.find_FWHM CubicSpline wav T = Raise e ->
  (wav = [] /\ e = ValueError) \/
  CubicSpline wav T = Raise e \/
  (e = IndexError /\
   exists wav_min wav_max T_interp half_level,
     np.min wav = Ok wav_min /\ np.max wav = Ok wav_max /\
     CubicSpline wav T = Ok T_interp /\
     find_FWHM_py.half_level_of
       (map T_interp (np.linspace wav_min wav_max 1000)) = Ok half_level /\
     (T_interp wav_max < half_level)%Q /\
     forall ii, ~ props.right_crossing (np.linspace wav_min wav_max 1000)
                    T_interp half_level wav_min wav_max ii).
Proof.
  intros H. apply crossings_Raise_inv.
  destruct (find_FWHM_py.crossings CubicSpline wav T)
    as [[[wav_interp f0] f1]|e'] eqn:Hc.
  - destruct (find_FWHM_of_crossings _ _ _ _ _ _ Hc)
      as (w0 & w1 & pk & _ & _ & _ & Hf).
    rewrite Hf in H. discriminate.
  - unfold find_FWHM_py.find_FWHM in H. rewrite Hc in H.
    injection H as ->. reflexivity.
Qed.

(** X15 (witness): the curve that falls from 1 to 0 fails in the third
    way. *)
Lemma falling_curve_fails_in_the_third_way :
  find_FWHM_py.find_FWHM samples.CubicSpline4 samples.wav4 samples.T_fall
    = Raise IndexError /\
  samples.wav4 <> [] /\
  samples.CubicSpline4 samples.wav4 samples.T_fall <> Raise IndexError /\
  exists half_level,
    find_FWHM_py.half_level_of
      (map (samples.interpolating_polynomial samples.wav4 samples.T_fall)
           (np.linspace (77 # 50) (39 # 25) 1000)) = Ok half_level /\
    (samples.interpolating_polynomial samples.wav4 samples.T_fall (39 # 25)
     < half_level)%Q.
Proof.
  assert (find_FWHM_py.find_FWHM samples.CubicSpline4 samples.wav4
            samples.T_fall = Raise IndexError) as Hrun
    by (vm_compute; reflexivity).
  split; [exact Hrun|]. split; [discriminate|]. split; [discriminate|].
  destruct (find_FWHM_fails_in_three_ways samples.CubicSpline4 samples.wav4
              samples.T_fall IndexError Hrun)
    as [[Hempty _]|[Hspline|(_ & lo & hi & fn & half_level & Hlo & Hhi & Hfn
                             & Hhalf & Hlast & _)]].
  - discriminate Hempty.
  - discriminate Hspline.
  - injection Hlo as <-. injection Hhi as <-. injection Hfn as <-.
    exists half_level. split; [exact Hhalf | exact Hlast].
Defined.

(** X16: when the interpolant at the largest wavelength is at or above the
    half level, the second loop never reads past the end of the grid, and
    [find_FWHM] returns a width and a peak wavelength. *)
Theorem find_FWHM_returns_when_curve_ends_high
    (CubicSpline : list Q -> list Q -> result (Q -> Q))
    (wav T : list Q) (wav_min wav_max : Q) (T_interp : Q -> Q)
    (half_level : Q) :
  np.min wav = Ok wav_min -> np.max wav = Ok wav_max ->
  CubicSpline wav T = Ok T_interp ->
  find_FWHM_py.half_level_of
    (map T_interp (np.linspace wav_min wav_max 1000)) = Ok half_level ->
  (half_level <= T_interp wav_max)%Q ->
  exists FWHM peak_wav,
    find_FWHM_py.find_FWHM CubicSpline wav T = Ok (FWHM, peak_wav).
Proof. apply find_FWHM_returns. Qed.

(** X16 (witness): the dip sampled between 1.53 and 1.57 ends at 1, above
    its half level. *)
Lemma dip_on_wide_span_returns :
  exists FWHM peak_wav,
    find_FWHM_py.find_FWHM samples.CubicSpline4 samples.wav_wide samples.T_dip
      = Ok (FWHM, peak_wav).
Proof.
  eapply (find_FWHM_returns_when_curve_ends_high samples.CubicSpline4
            samples.wav_wide samples.T_dip (153 # 100) (157 # 100)
            (samples.interpolating_polynomial samples.wav_wide samples.T_dip)).
  - reflexivity.
  - reflexivity.
  - reflexivity.
  - vm_compute. reflexivity.
  - vm_compute. discriminate.
Defined.

(** X17: because the margins of the loops are absolute, a spectrum that
    spans at most 0.01 (10 nm when wavelengths are in micrometres) has no
    index the second loop accepts: whenever [find_FWHM] returns, the width
    is not positive; when the span is at most 0.006 the first loop accepts
    none either and the width is 0. *)
Theorem narrow_span_gives_no_positive_width
    (CubicSpline : list Q -> list Q -> result (Q -> Q))
    (wav T : list Q) (wav_min wav_max FWHM peak_wav : Q) :
  np.min wav = Ok wav_min -> np.max wav = Ok wav_max ->
  (wav_max - wav_min <= 0.01)%Q ->
  find_FWHM_py.find_FWHM CubicSpline wav T = Ok (FWHM, peak_wav) ->
  (FWHM <= 0)%Q /\ ((wav_max - wav_min <= 0.006)%Q -> (FWHM == 0)%Q).
Proof.
  intros E1 E2 Hspan Hret.
  destruct (find_FWHM_Ok_inv _ _ _ _ Hret)
    as (wav_interp & f0 & f1 & w0 & w1 & Hc & Hw0 & Hw1 & Hfst).
  simpl in Hfst. subst FWHM.
  destruct (crossings_inv _ _ _ _ _ _ Hc)
    as (lo & hi & T_interp & half_level
        & E1' & E2' & E3 & Hgrid & E4 & E5 & E6).
  rewrite E1 in E1'. injection E1' as <-.
  rewrite E2 in E2'. injection E2' as <-.
  assert (f1 = None) as ->.
  { destruct f1 as [ii|]; [|reflexivity].
    apply second_scan_Some_iff in E6 as [Hcross _].
    apply right_crossing_needs_span in Hcross. lra. }
  pose proof (min_le_max _ _ _ E1 E2) as Hle.
  cbn [default from_option] in Hw1. rewrite Hgrid in Hw0, Hw1.
  assert (w1 == wav_min)%Q as Hw1'.
  { rewrite lookup_linspace_0 in Hw1 by lia. injection Hw1 as <-.
    change (inject_Z 0) with 0%Q. rewrite Qmult_0_l. apply Qplus_0_l. }
  pose proof (lookup_linspace _ _ _ _ _ Hw0 Hle) as Hge.
  split; [lra|]. intros Hnarrow.
  assert (f0 = None) as ->.
  { destruct f0 as [ii|]; [|reflexivity].
    rewrite Hgrid in E5.
    apply first_scan_Some_iff in E5 as [Hcross _].
    apply left_crossing_needs_span in Hcross. lra. }
  cbn [default from_option] in Hw0. rewrite lookup_linspace_0 in Hw0 by lia.
  injection Hw0 as <-. change (inject_Z 0) with 0%Q. lra.
Qed.

(** X17 (witness): the notch sampled between 1.550 and 1.558: the call
    returns a negative width. *)
Lemma notch_on_narrow_span_has_negative_width :
  exists FWHM peak_wav,
    find_FWHM_py.find_FWHM samples.CubicSpline4 samples.wav_narrow
      samples.T_notch = Ok (FWHM, peak_wav) /\
    (FWHM <= 0)%Q /\ (FWHM < 0)%Q.
Proof.
  assert (find_FWHM_py.find_FWHM samples.CubicSpline4 samples.wav_narrow
            samples.T_notch
          = Ok (-103256640000000 # 39920040000000000,
                309949200 # 199800000)) as Hrun
    by (vm_compute; reflexivity).
  exists (-103256640000000 # 39920040000000000), (309949200 # 199800000).
  split; [exact Hrun|].
  split; [|reflexivity].
  apply (narrow_span_gives_no_positive_width samples.CubicSpline4
           samples.wav_narrow samples.T_notch (31 # 20) (779 # 500)
           (-103256640000000 # 39920040000000000) (309949200 # 199800000)
           eq_refl eq_refl); [|exact Hrun].
  vm_compute. discriminate.
Defined.

(** X18: when both loops locate an index, [find_FWHM] returns the
    difference of the grid wavelengths at the two indices and the grid
    wavelength at their rounded mean.  The first index is never 0 and the
    second never the last one; when the first index does not exceed the
    second, the width is not negative and the peak wavelength lies between
    the two crossing wavelengths; otherwise the width is not positive. *)
Theorem find_FWHM_on_located_crossings
    (CubicSpline : list Q -> list Q -> result (Q -> Q))
    (wav T wav_interp : list Q) (i0 i1 : nat) :
  find_FWHM_py.crossings CubicSpline wav T
    = Ok (wav_interp, Some i0, Some i1) ->
  exists w0 w1 peak_wav,
    wav_interp !! i0 = Some w0 /\ wav_interp !! i1 = Some w1 /\
    wav_interp !! np.round_average i0 i1 = Some peak_wav /\
    find_FWHM_py.find_FWHM CubicSpline wav T = Ok ((w1 - w0)%Q, peak_wav) /\
    (1 <= i0 <= 999)%nat /\ (i1 <= 998)%nat /\
    ((i0 <= i1)%nat ->
     (0 <= w1 - w0)%Q /\ (w0 <= peak_wav)%Q /\ (peak_wav <= w1)%Q) /\
    ((i1 <= i0)%nat -> (w1 - w0 <= 0)%Q).
Proof.
  intros Hc.
  destruct (find_FWHM_of_crossings _ _ _ _ _ _ Hc)
    as (w0 & w1 & pk & Hw0 & Hw1 & Hpk & Hf).
  cbn [default from_option] in Hw0, Hw1, Hpk.
  destruct (crossings_inv _ _ _ _ _ _ Hc)
    as (lo & hi & T_interp & half_level
        & E1 & E2 & E3 & Hgrid & E4 & E5 & E6).
  pose proof (min_le_max _ _ _ E1 E2) as Hle.
  exists w0, w1, pk. split; [exact Hw0|]. split; [exact Hw1|].
  split; [exact Hpk|]. split; [exact Hf|].
  subst wav_interp.
  apply first_scan_Some_iff in E5 as [Hleft _].
  apply second_scan_Some_iff in E6 as [Hright _].
  pose proof (left_crossing_not_first _ _ _ _ _ Hleft) as H1.
  pose proof (left_crossing_lt _ _ _ _ _ _ Hleft) as H2.
  pose proof (right_crossing_lt _ _ _ _ _ _ Hright) as H3.
  rewrite length_linspace in H2, H3.
  split; [lia|]. split; [lia|]. split.
  - intros Hord. pose proof (round_average_between _ _ Hord) as [Ha Hb].
    pose proof (linspace_monotone _ _ _ _ _ _ _ Hle Hord Hw0 Hw1).
    pose proof (linspace_monotone _ _ _ _ _ _ _ Hle Ha Hw0 Hpk).
    pose proof (linspace_monotone _ _ _ _ _ _ _ Hle Hb Hpk Hw1).
    repeat split; [lra | assumption | assumption].
  - intros Hord.
    pose proof (linspace_monotone _ _ _ _ _ _ _ Hle Hord Hw1 Hw0). lra.
Qed.

(** X18 (witness): on the dip sampled between 1.53 and 1.57 the loops
    locate the grid indices 147 and 852. *)
Lemma dip_on_wide_span_is_located :
  exists w0 w1 peak_wav,
    np.linspace (153 # 100) (157 # 100) 1000 !! 147%nat = Some w0 /\
    np.linspace (153 # 100) (157 # 100) 1000 !! 852%nat = Some w1 /\
    find_FWHM_py.find_FWHM samples.CubicSpline4 samples.wav_wide samples.T_dip
      = Ok ((w1 - w0)%Q, peak_wav) /\
    (0 <= w1 - w0)%Q /\ (w0 <= peak_wav)%Q /\ (peak_wav <= w1)%Q.
Proof.
  assert (find_FWHM_py.crossings samples.CubicSpline4 samples.wav_wide
            samples.T_dip
          = Ok (np.linspace (153 # 100) (157 # 100) 1000,
                Some 147%nat, Some 852%nat)) as Hc
    by (vm_compute; reflexivity).
  destruct (find_FWHM_on_located_crossings samples.CubicSpline4
              samples.wav_wide samples.T_dip _ _ _ Hc)
    as (w0 & w1 & peak_wav & H0 & H1 & _ & Hrun & _ & _ & Hle & _).
  exists w0, w1, peak_wav.
  split; [exact H0|]. split; [exact H1|]. split; [exact Hrun|].
  apply Hle. lia.
Defined.

(** ** Errors of the readers *)

(** X19: a port result that lacks [T_net] or [lambda] makes
    [read_lumerical_output] raise KeyError; a result with no rows at all
    makes either reader raise ValueError, from [np.max] of an empty array,
    instead of returning an empty spectrum. *)
Theorem readers_reject_incomplete_results
    (lumapi_getresult :
       string -> string -> string -> result (gmap string (list (list Q))))
    (SimulationData_from_file :
       string -> result (gmap string data_analysis.mode_data))
    (fname : string) :
  (forall temp,
     lumapi_getresult fname "FDTD::ports::o2" "expansion for port monitor"
       = Ok temp ->
     (temp !! "T_net" = None \/ temp !! "lambda" = None ->
      find_FWHM_py.read_lumerical_output lumapi_getresult fname
        = Raise KeyError) /\
     (temp !! "T_net" = Some [] -> temp !! "lambda" = Some [] ->
      find_FWHM_py.read_lumerical_output lumapi_getresult fname
        = Raise ValueError)) /\
  (forall sim_data mode_data,
     SimulationData_from_file fname = Ok sim_data ->
     sim_data !! "o2 mode" = Some mode_data ->
     data_analysis.amps_plus mode_data = [] ->
     find_FWHM_py.read_tidy3d_output SimulationData_from_file fname
       = Raise ValueError).
Proof.
  split.
  - intros temp Hres. unfold find_FWHM_py.read_lumerical_output, dict_getitem.
    rewrite Hres, rbind_Ok. split.
    + intros [HT|Hlam].
      * rewrite HT. reflexivity.
      * destruct (temp !! "T_net"); [|reflexivity].
        rewrite rbind_Ok, Hlam. reflexivity.
    + intros -> ->. reflexivity.
  - intros sim_data mode_data Hfile Hmon Hrows.
    unfold find_FWHM_py.read_tidy3d_output,
      data_analysis.read_mode_monitor_from_file, data_analysis.read_body.
    rewrite Hfile, rbind_Ok, Hmon, rbind_Ok. cbv zeta.
    rewrite rbind_Ok, Hrows. reflexivity.
Qed.

(** ** The codebase validator *)

Section validator_facts.
Import validate_codebase props.

Lemma extends_refl (self : CodebaseValidator) : extends self self.
Proof. repeat split; reflexivity. Qed.

Lemma extends_trans (s1 s2 s3 : CodebaseValidator) :
  extends s1 s2 -> extends s2 s3 -> extends s1 s3.
Proof.
  intros (Hr1 & He1 & Hw1) (Hr2 & He2 & Hw2).
  repeat split; [congruence | by etrans | by etrans].
Qed.

Lemma only_warns_refl (self : CodebaseValidator) : only_warns self self.
Proof. repeat split; reflexivity. Qed.

Lemma only_warns_trans (s1 s2 s3 : CodebaseValidator) :
  only_warns s1 s2 -> only_warns s2 s3 -> only_warns s1 s3.
Proof.
  intros (Hr1 & He1 & Hw1) (Hr2 & He2 & Hw2).
  repeat split; [congruence | congruence | by etrans].
Qed.

Lemma only_warns_extends (s1 s2 : CodebaseValidator) :
  only_warns s1 s2 -> extends s1 s2.
Proof. intros (Hr & He & Hw). repeat split; [done | by rewrite He | done]. Qed.

Lemma append_error_extends (msg : string) (self : CodebaseValidator) :
  extends self (append_error msg self).
Proof.
  repeat split; simpl; [by apply prefix_app_r | reflexivity].
Qed.

Lemma append_warning_only_warns (msg : string) (self : CodebaseValidator) :
  only_warns self (append_warning msg self).
Proof. repeat split; simpl. by apply prefix_app_r. Qed.

Lemma only_warns_no_errors (s1 s2 : CodebaseValidator) :
  only_warns s1 s2 -> no_errors s2 = no_errors s1.
Proof. intros (_ & He & _). unfold no_errors. rewrite He. reflexivity. Qed.

(** A loop keeps every relation that its body keeps. *)
Lemma for_each_keeps {X} (R : CodebaseValidator -> CodebaseValidator -> Prop)
    (items : list X) (body : X -> V unit) :
  (forall self, R self self) ->
  (forall s1 s2 s3, R s1 s2 -> R s2 s3 -> R s1 s3) ->
  (forall x self, R self (snd (body x self))) ->
  forall self, R self (snd (for_each items body self)).
Proof.
  intros Hrefl Htrans Hbody.
  induction items as [|x items IH]; intros self; simpl; [apply Hrefl|].
  unfold vbind. specialize (Hbody x self).
  destruct (body x self) as [[[]|e] self1]; simpl in *; [|exact Hbody].
  eapply Htrans; [exact Hbody | apply IH].
Qed.

(** A loop whose body never raises never raises. *)
Lemma for_each_returns {X} (items : list X) (body : X -> V unit) :
  (forall x self, fst (body x self) = Ok tt) ->
  forall self, fst (for_each items body self) = Ok tt.
Proof.
  intros Hbody. induction items as [|x items IH]; intros self; simpl;
    [reflexivity|].
  unfold vbind. specialize (Hbody x self).
  destruct (body x self) as [[[]|e] self1]; simpl in *; [apply IH|].
  discriminate.
Qed.

Lemma vbind_snd {A B} (R : CodebaseValidator -> CodebaseValidator -> Prop)
    (c : V A) (k : A -> V B) (self : CodebaseValidator) :
  (forall s1 s2 s3, R s1 s2 -> R s2 s3 -> R s1 s3) ->
  R self (snd (c self)) ->
  (forall a self1, R self1 (snd (k a self1))) ->
  R self (snd (vbind c k self)).
Proof.
  intros Htrans Hc Hk. unfold vbind.
  destruct (c self) as [[a|e] self1]; simpl in *; [|exact Hc].
  eapply Htrans; [exact Hc | apply Hk].
Qed.

Variable w : world.
Variable rglob : string -> string -> result (list string).
Variable read_text : string -> result string.
Variable import_core_modules : import_outcome.
Variable describe : exn -> string.

Lemma return_no_errors_same (self : CodebaseValidator) :
  return_no_errors self = (Ok (no_errors self), self).
Proof. reflexivity. Qed.

Lemma validate_file_structure_extends (self : CodebaseValidator) :
  extends self (snd (validate_file_structure w self)).
Proof.
  unfold validate_file_structure.
  apply (vbind_snd extends); [apply extends_trans | |].
  - apply (for_each_keeps extends); [apply extends_refl | apply extends_trans|].
    intros file s. destruct (negb _); simpl;
      [apply append_error_extends | apply extends_refl].
  - intros _ s1. apply (vbind_snd extends); [apply extends_trans | |].
    + apply (for_each_keeps extends);
        [apply extends_refl | apply extends_trans|].
      intros d s. destruct (negb _); simpl;
        [apply append_error_extends | apply extends_refl].
    + intros _ s2. apply extends_refl.
Qed.

Lemma validate_config_files_extends (self : CodebaseValidator) :
  extends self (snd (validate_config_files w describe self)).
Proof.
  unfold validate_config_files.
  apply (vbind_snd extends); [apply extends_trans | |].
  - cbv zeta. destruct (os.exists_ _ w); [|apply append_error_extends].
    destruct (rbind _ _) as [config|e].
    + apply (for_each_keeps extends);
        [apply extends_refl | apply extends_trans|].
      intros key s. destruct (bool_decide _); simpl;
        [apply only_warns_extends, append_warning_only_warns
        | apply extends_refl].
    + destruct (isinstance e JSONDecodeError); simpl;
        [apply append_error_extends | apply extends_refl].
  - intros _ s. apply extends_refl.
Qed.

Lemma validate_device_scripts_spec (self : CodebaseValidator) :
  fst (validate_device_scripts w self) = Ok (no_errors self) /\
  only_warns self (snd (validate_device_scripts w self)).
Proof.
  unfold validate_device_scripts, vbind.
  set (body := fun entry : string * string => _).
  pose proof (for_each_returns device_scripts body) as Hret.
  pose proof (for_each_keeps only_warns device_scripts body
                only_warns_refl only_warns_trans) as Hkeep.
  assert (forall x s, fst (body x s) = Ok tt) as Hb1.
  { intros [device script] s. unfold body. destruct (negb _); reflexivity. }
  assert (forall x s, only_warns s (snd (body x s))) as Hb2.
  { intros [device script] s. unfold body. destruct (negb _); simpl;
      [apply append_warning_only_warns | apply only_warns_refl]. }
  specialize (Hret Hb1 self). specialize (Hkeep Hb2 self).
  destruct (for_each device_scripts body self) as [r s1]. simpl in *.
  subst r. simpl. split; [|exact Hkeep].
  rewrite (only_warns_no_errors _ _ Hkeep). reflexivity.
Qed.

Lemma validate_imports_extends (self : CodebaseValidator) :
  extends self (snd (validate_imports import_core_modules self)).
Proof.
  unfold validate_imports. destruct import_core_modules; simpl;
    [apply extends_refl | apply append_error_extends | apply extends_refl].
Qed.

Lemma check_for_debug_code_only_warns (self : CodebaseValidator) :
  only_warns self (snd (check_for_debug_code rglob read_text describe self)).
Proof.
  unfold check_for_debug_code.
  apply (vbind_snd only_warns); [apply only_warns_trans | apply only_warns_refl|].
  intros python_files s1.
  apply (vbind_snd only_warns); [apply only_warns_trans | |].
  - apply (for_each_keeps only_warns);
      [apply only_warns_refl | apply only_warns_trans|].
    intros file_path s. destruct (String.eqb _ _); [apply only_warns_refl|].
    destruct (read_text file_path) as [content|e].
    + apply (for_each_keeps only_warns);
        [apply only_warns_refl | apply only_warns_trans|].
      intros pattern s'. destruct (contains pattern content); simpl;
        [apply append_warning_only_warns | apply only_warns_refl].
    + destruct (isinstance e Exception); simpl;
        [apply append_warning_only_warns | apply only_warns_refl].
  - intros _ s2. apply only_warns_refl.
Qed.

Lemma validate_gds_files_only_warns (self : CodebaseValidator) :
  only_warns self (snd (validate_gds_files w rglob self)).
Proof.
  unfold validate_gds_files.
  apply (vbind_snd only_warns); [apply only_warns_trans | |].
  - cbv zeta. destruct (os.exists_ _ w); [|apply append_warning_only_warns].
    unfold vbind, vlift. destruct (rglob _ _) as [[|f fs]|e]; simpl;
      [apply append_warning_only_warns | apply only_warns_refl
      | apply only_warns_refl].
  - intros _ s. apply only_warns_refl.
Qed.

Lemma guarded_extends (check : V bool) (self : CodebaseValidator) :
  extends self (snd (check self)) ->
  extends self (snd (guarded describe check self)).
Proof.
  unfold guarded. destruct (check self) as [[b|e] s1]; simpl; [done|].
  intros H. destruct (isinstance e Exception); simpl; [|exact H].
  eapply extends_trans; [exact H | apply append_error_extends].
Qed.

Lemma guarded_outcome (check : V bool) (self : CodebaseValidator) (e : exn) :
  fst (guarded describe check self) = Raise e ->
  isinstance e Exception = false.
Proof.
  unfold guarded. destruct (check self) as [[b|e'] s1]; simpl; [discriminate|].
  destruct (isinstance e' Exception) eqn:E; simpl; [discriminate|].
  intros [= <-]. exact E.
Qed.

Local Abbreviation all_checks :=
  (checks w rglob read_text import_core_modules describe).

Lemma checks_extend (check : V bool) (self : CodebaseValidator) :
  check ∈ all_checks -> extends self (snd (check self)).
Proof.
  unfold checks. intros H.
  repeat (apply elem_of_cons in H as [->|H]).
  - apply validate_file_structure_extends.
  - apply validate_config_files_extends.
  - apply only_warns_extends, validate_device_scripts_spec.
  - apply validate_imports_extends.
  - apply only_warns_extends, check_for_debug_code_only_warns.
  - apply only_warns_extends, validate_gds_files_only_warns.
  - inv H.
Qed.

Lemma for_each_guarded (cs : list (V bool)) (self : CodebaseValidator) :
  (forall c s, c ∈ cs -> extends s (snd (c s))) ->
  extends self (snd (for_each cs (guarded describe) self)) /\
  forall e, fst (for_each cs (guarded describe) self) = Raise e ->
            isinstance e Exception = false.
Proof.
  revert self. induction cs as [|c cs IH]; intros self Hcs; simpl.
  - split; [apply extends_refl | discriminate].
  - unfold vbind.
    pose proof (guarded_extends c self (Hcs c self ltac:(left))) as Hext.
    pose proof (guarded_outcome c self) as Hout.
    destruct (guarded describe c self) as [[[]|e] s1]; simpl in *.
    + destruct (IH s1) as [Hext' Hout'].
      { intros c' s Hc'. apply Hcs. by right. }
      split; [by eapply extends_trans | exact Hout'].
    + split; [exact Hext|]. intros e' [= <-]. by apply Hout.
Qed.

Lemma run_all_checks_spec (self : CodebaseValidator) :
  let run := run_all_checks w rglob read_text import_core_modules describe
               self in
  extends self (snd run) /\
  match fst run with
  | Ok results =>
      passed results = no_errors (snd run) /\
      report_errors results = errors (snd run) /\
      report_warnings results = warnings (snd run) /\
      total_errors results = length (errors (snd run)) /\
      total_warnings results = length (warnings (snd run))
  | Raise e => isinstance e Exception = false
  end.
Proof.
  cbv zeta. unfold run_all_checks, vbind.
  destruct (for_each_guarded all_checks self) as [Hext Hout].
  { intros c s Hc. by apply checks_extend. }
  destruct (for_each all_checks (guarded describe) self) as [[[]|e] s1];
    simpl in *.
  - split; [exact Hext|]. repeat split.
  - split; [exact Hext|]. by apply Hout.
Qed.

End validator_facts.

Section validator_runs.
Import validate_codebase props.

Variable w : world.
Variable rglob : string -> string -> result (list string).
Variable read_text : string -> result string.
Variable import_core_modules : import_outcome.
Variable describe : exn -> string.

Lemma extends_errors (s1 s2 : CodebaseValidator) (msg : string) :
  extends s1 s2 -> msg ∈ errors s1 -> msg ∈ errors s2.
Proof.
  intros (_ & [k Hk] & _) Hin. rewrite Hk. apply elem_of_app. by left.
Qed.

Lemma two_elements_length (l : list string) (a b : string) :
  a <> b -> a ∈ l -> b ∈ l -> (2 <= length l)%nat.
Proof.
  intros Hne Ha Hb. destruct l as [|x [|y l]]; simpl; [inv Ha | | lia].
  apply list_elem_of_singleton in Ha. apply list_elem_of_singleton in Hb.
  congruence.
Qed.

Lemma no_errors_true (self : CodebaseValidator) :
  no_errors self = true <-> errors self = [].
Proof. unfold no_errors. destruct (errors self); split; done. Qed.

(** A method that ends in [return len(self.errors) == 0] returns what the
    error list says when it returns. *)
Lemma ends_with_return_no_errors (c : V unit) (self : CodebaseValidator)
    (b : bool) :
  fst (vbind c (fun _ => return_no_errors) self) = Ok b ->
  b = no_errors (snd (vbind c (fun _ => return_no_errors) self)).
Proof.
  unfold vbind. destruct (c self) as [[[]|e] s1]; simpl; [|discriminate].
  intros [= <-]. reflexivity.
Qed.

Lemma for_each_noop {X} (items : list X) (body : X -> V unit)
    (self : CodebaseValidator) :
  Forall (fun x => body x self = (Ok tt, self)) items ->
  for_each items body self = (Ok tt, self).
Proof.
  induction 1 as [|x items Hx _ IH]; [reflexivity|].
  simpl. unfold vbind. rewrite Hx. exact IH.
Qed.

Lemma validate_file_structure_returns (self : CodebaseValidator) :
  exists b, fst (validate_file_structure w self) = Ok b.
Proof.
  unfold validate_file_structure, vbind.
  set (files_body := fun file : string => _).
  set (dirs_body := fun dir_name : string => _).
  pose proof (for_each_returns required_files files_body) as H1.
  assert (forall x s, fst (files_body x s) = Ok tt) as Hb1
    by (intros x s; unfold files_body; destruct (negb _); reflexivity).
  specialize (H1 Hb1 self).
  destruct (for_each required_files files_body self) as [r1 s1].
  simpl in H1. subst r1.
  pose proof (for_each_returns required_dirs dirs_body) as H2.
  assert (forall x s, fst (dirs_body x s) = Ok tt) as Hb2
    by (intros x s; unfold dirs_body; destruct (negb _); reflexivity).
  specialize (H2 Hb2 s1).
  destruct (for_each required_dirs dirs_body s1) as [r2 s2].
  simpl in H2. subst r2. simpl. eauto.
Qed.

Lemma for_each_adds {X} (items : list X) (body : X -> V unit) (x : X)
    (root msg : string) (self : CodebaseValidator) :
  x ∈ items -> root_dir self = root ->
  (forall s, root_dir s = root -> msg ∈ errors (snd (body x s))) ->
  (forall y s, extends s (snd (body y s))) ->
  (forall y s, fst (body y s) = Ok tt) ->
  msg ∈ errors (snd (for_each items body self)).
Proof.
  intros Hx Hroot Hadds Hext Hret. revert self Hroot.
  induction items as [|y items IH]; intros self Hroot; [inv Hx|].
  simpl. unfold vbind.
  pose proof (Hext y self) as Hy. pose proof (Hret y self) as Hr.
  pose proof (Hadds self Hroot) as Ha.
  destruct (body y self) as [r s1] eqn:E. simpl in *. subst r.
  pose proof (for_each_keeps extends items body extends_refl extends_trans
                Hext s1) as Hrest.
  apply elem_of_cons in Hx as [->|Hx].
  - rewrite E in Ha. simpl in Ha. eapply extends_errors; eassumption.
  - apply IH; [exact Hx|]. destruct Hy as (-> & _). exact Hroot.
Qed.

Lemma validate_file_structure_missing_config (self : CodebaseValidator) :
  os.exists_ (joinpath (root_dir self) "config.json") w = false ->
  "Missing required file: config.json"
    ∈ errors (snd (validate_file_structure w self)).
Proof.
  intros Hex. unfold validate_file_structure.
  set (files_body := fun file : string => _).
  set (rest := fun _ : unit => _).
  assert ("Missing required file: config.json"
            ∈ errors (snd (for_each required_files files_body self))) as Hin.
  { apply (for_each_adds _ _ "config.json" (root_dir self));
      [by left | reflexivity | | |].
    - intros s Hs. unfold files_body. rewrite Hs, Hex. simpl.
      apply elem_of_app. right. by left.
    - intros y s. unfold files_body. destruct (negb _); simpl;
        [apply append_error_extends | apply extends_refl].
    - intros y s. unfold files_body. destruct (negb _); reflexivity. }
  unfold vbind at 1.
  destruct (for_each required_files files_body self) as [[[]|e] s1];
    simpl in Hin |- *; [|exact Hin].
  assert (extends s1 (snd (rest tt s1))) as Hext.
  { unfold rest. apply (vbind_snd extends); [apply extends_trans | |].
    - apply (for_each_keeps extends);
        [apply extends_refl | apply extends_trans|].
      intros d s. destruct (negb _); simpl;
        [apply append_error_extends | apply extends_refl].
    - intros _ s. apply extends_refl. }
  eapply extends_errors; eassumption.
Qed.

Lemma validate_config_files_missing (self : CodebaseValidator) :
  os.exists_ (joinpath (root_dir self) "config.json") w = false ->
  validate_config_files w describe self
  = (Ok false, append_error "config.json not found" self).
Proof.
  intros Hex. unfold validate_config_files, vbind. cbv zeta. rewrite Hex.
  simpl. unfold return_no_errors, no_errors. simpl.
  destruct (errors self); reflexivity.
Qed.

Lemma guarded_returns (check : V bool) (self : CodebaseValidator) (b : bool) :
  fst (check self) = Ok b ->
  guarded describe check self = (Ok tt, snd (check self)).
Proof.
  unfold guarded. destruct (check self) as [[b'|e] s1]; simpl;
    [reflexivity | discriminate].
Qed.

Local Abbreviation run_all :=
  (run_all_checks w rglob read_text import_core_modules describe).

Lemma guarded_keeps_errors (check : V bool) (self : CodebaseValidator)
    (msg : string) :
  msg ∈ errors (snd (check self)) ->
  msg ∈ errors (snd (guarded describe check self)).
Proof.
  unfold guarded. destruct (check self) as [[b|e] s1]; simpl; [done|].
  destruct (isinstance e Exception); simpl; [|done].
  intros H. apply elem_of_app. by left.
Qed.

Lemma for_each_guarded_adds (cs : list (V bool)) (c : V bool)
    (root msg : string) (self : CodebaseValidator) :
  c ∈ cs -> root_dir self = root ->
  (forall s, root_dir s = root -> msg ∈ errors (snd (c s))) ->
  (forall c' s, c' ∈ cs -> extends s (snd (c' s))) ->
  fst (for_each cs (guarded describe) self) = Ok tt ->
  msg ∈ errors (snd (for_each cs (guarded describe) self)).
Proof.
  intros Hc Hroot Hadds Hext. revert self Hroot.
  induction cs as [|c' cs IH]; intros self Hroot; [inv Hc|].
  simpl. unfold vbind.
  pose proof (guarded_extends describe c' self
                (Hext c' self ltac:(left))) as Hg.
  assert (forall c'' s, c'' ∈ cs -> extends s (snd (c'' s))) as Hext'
    by (intros c'' s H; apply Hext; by right).
  apply elem_of_cons in Hc as [->|Hc].
  - pose proof (guarded_keeps_errors c' self msg (Hadds self Hroot)) as Hin.
    destruct (guarded describe c' self) as [[[]|e] s1]; simpl in *;
      [|discriminate].
    intros _. destruct (for_each_guarded describe cs s1 Hext') as [Hrest _].
    eapply extends_errors; eassumption.
  - destruct (guarded describe c' self) as [[[]|e] s1] eqn:E; simpl in *;
      [|discriminate].
    apply (IH Hc Hext'). destruct Hg as (-> & _). exact Hroot.
Qed.

Local Abbreviation all_checks :=
  (checks w rglob read_text import_core_modules describe).

Lemma run_all_checks_missing_config (root : string) (results : report) :
  os.exists_ (joinpath root "config.json") w = false ->
  fst (run_all (init root)) = Ok results ->
  "Missing required file: config.json" ∈ report_errors results /\
  "config.json not found" ∈ report_errors results.
Proof.
  intros Hex. unfold run_all_checks, vbind.
  pose proof (for_each_guarded_adds all_checks (validate_file_structure w) root
                "Missing required file: config.json" (init root)) as H1.
  pose proof (for_each_guarded_adds all_checks
                (validate_config_files w describe) root
                "config.json not found" (init root)) as H2.
  destruct (for_each all_checks (guarded describe) (init root))
    as [[[]|e] s1]; simpl in *; [|discriminate].
  intros [= <-]. simpl. split.
  - apply H1; try reflexivity.
    + unfold checks. by left.
    + intros s Hs. apply validate_file_structure_missing_config.
      rewrite Hs. exact Hex.
    + intros c' s. apply checks_extend.
  - apply H2; try reflexivity.
    + unfold checks. right. by left.
    + intros s Hs. rewrite validate_config_files_missing
        by (rewrite Hs; exact Hex).
      simpl. apply elem_of_app. right. by left.
    + intros c' s. apply checks_extend.
Qed.

(** How each check ends on a tree that has what is required. *)
Section complete_tree.

Variable root : string.
Variable members : gmap string json.
Hypothesis files_there :
  Forall (fun file => os.exists_ (joinpath root file) w = true) required_files.
Hypothesis dirs_there :
  Forall (fun d => os.isdir (joinpath root d) w = true) required_dirs.
Hypothesis config_parses :
  fst (misc.open_r (joinpath root "config.json") w) = Ok (JsonDoc members).
Hypothesis imports_work : import_core_modules = Imported.
Hypothesis rglob_returns : forall dir pattern e, rglob dir pattern <> Raise e.
Hypothesis reads_raise_exceptions :
  forall path e, read_text path = Raise e -> isinstance e Exception = true.

Local Abbreviation quiet := (props.quiet root).

Lemma validate_file_structure_quiet : quiet (validate_file_structure w).
Proof.
  intros self Hroot. unfold validate_file_structure, vbind.
  rewrite for_each_noop.
  2:{ eapply Forall_impl; [exact files_there|]. intros file Hf. cbv beta.
      rewrite Hroot, Hf. reflexivity. }
  rewrite for_each_noop.
  2:{ eapply Forall_impl; [exact dirs_there|]. intros d Hd. cbv beta.
      rewrite Hroot, Hd. reflexivity. }
  simpl. split; [eauto | apply only_warns_refl].
Qed.

Lemma validate_config_files_quiet : quiet (validate_config_files w describe).
Proof.
  intros self Hroot. unfold validate_config_files, vbind. cbv zeta.
  rewrite Hroot.
  assert (os.exists_ (joinpath root "config.json") w = true) as ->.
  { pose proof files_there as H. unfold required_files in H.
    apply Forall_cons in H as [H _]. exact H. }
  rewrite config_parses, rbind_Ok. cbn [misc.json_load].
  set (body := fun key : string => _).
  pose proof (for_each_returns required_keys body) as Hret.
  pose proof (for_each_keeps only_warns required_keys body
                only_warns_refl only_warns_trans) as Hkeep.
  assert (forall x s, fst (body x s) = Ok tt) as Hb1
    by (intros x s; unfold body; destruct (bool_decide _); reflexivity).
  assert (forall x s, only_warns s (snd (body x s))) as Hb2.
  { intros x s. unfold body. destruct (bool_decide _); simpl;
      [apply append_warning_only_warns | apply only_warns_refl]. }
  specialize (Hret Hb1 self). specialize (Hkeep Hb2 self).
  destruct (for_each required_keys body self) as [r s1]. simpl in *.
  subst r. simpl. split; [eauto | exact Hkeep].
Qed.

Lemma validate_device_scripts_quiet : quiet (validate_device_scripts w).
Proof.
  intros self _. destruct (validate_device_scripts_spec w self) as [H1 H2].
  split; [eauto | exact H2].
Qed.

Lemma validate_imports_quiet : quiet (validate_imports import_core_modules).
Proof.
  intros self _. unfold validate_imports. rewrite imports_work. simpl.
  split; [eauto | apply only_warns_refl].
Qed.

Lemma check_for_debug_code_quiet :
  quiet (check_for_debug_code rglob read_text describe).
Proof.
  intros self _.
  split; [|apply check_for_debug_code_only_warns].
  unfold check_for_debug_code, vbind.
  destruct (rglob (root_dir self) "*.py") as [python_files|e] eqn:E;
    [|destruct (rglob_returns _ _ _ E)].
  set (body := fun file_path : string => _).
  pose proof (for_each_returns python_files body) as Hret.
  assert (forall x s, fst (body x s) = Ok tt) as Hb.
  { intros x s. unfold body. destruct (String.eqb _ _); [reflexivity|].
    destruct (read_text x) as [content|e] eqn:Hread.
    - apply for_each_returns. intros pattern s'.
      destruct (contains pattern content); reflexivity.
    - rewrite (reads_raise_exceptions _ _ Hread). reflexivity. }
  specialize (Hret Hb self).
  destruct (for_each python_files body self) as [r s1]. simpl in *.
  subst r. simpl. eauto.
Qed.

Lemma validate_gds_files_quiet : quiet (validate_gds_files w rglob).
Proof.
  intros self _. split; [|apply validate_gds_files_only_warns].
  unfold validate_gds_files, vbind. cbv zeta.
  destruct (os.exists_ _ w); [|simpl; eauto].
  unfold vlift. destruct (rglob _ _) as [[|f fs]|e] eqn:E; simpl; eauto.
  destruct (rglob_returns _ _ _ E).
Qed.

Lemma for_each_guarded_quiet (cs : list (V bool)) (self : CodebaseValidator) :
  Forall quiet cs -> root_dir self = root ->
  fst (for_each cs (guarded describe) self) = Ok tt /\
  only_warns self (snd (for_each cs (guarded describe) self)).
Proof.
  intros Hcs. revert self. induction Hcs as [|c cs Hc _ IH]; intros self Hroot.
  - split; [reflexivity | apply only_warns_refl].
  - simpl. unfold vbind. destruct (Hc self Hroot) as [[b Hb] Hw].
    rewrite (guarded_returns _ _ _ Hb).
    destruct (IH (snd (c self))) as [Hok Hw'].
    { destruct Hw as (-> & _). exact Hroot. }
    split; [exact Hok | by eapply only_warns_trans].
Qed.

Lemma run_all_checks_quiet :
  exists results self',
    run_all (init root) = (Ok results, self') /\
    passed results = true /\ report_errors results = [] /\
    total_errors results = 0%nat /\
    report_warnings results = warnings self'.
Proof.
  unfold run_all_checks, vbind.
  destruct (for_each_guarded_quiet all_checks (init root)) as [Hok Hw].
  { unfold checks.
    constructor; [apply validate_file_structure_quiet|].
    constructor; [apply validate_config_files_quiet|].
    constructor; [apply validate_device_scripts_quiet|].
    constructor; [apply validate_imports_quiet|].
    constructor; [apply check_for_debug_code_quiet|].
    constructor; [apply validate_gds_files_quiet|]. constructor. }
  { reflexivity. }
  destruct (for_each all_checks (guarded describe) (init root)) as [r s1].
  simpl in *. subst r. destruct Hw as (_ & He & _). simpl in He.
  eexists. eexists. split; [reflexivity|]. simpl.
  unfold no_errors. rewrite He. done.
Qed.

End complete_tree.

End validator_runs.

(** ** Errors of the material fit *)

Lemma handle_kinds {A} (e e' : exn) (w w' : world) :
  handle (A := A) e [(FileNotFoundError, fun e => mraise e);
                     (Exception, fun _ => mraise ValueError)] w
    = (Raise e', w') ->
  w' = w /\
  (isinstance e' FileNotFoundError = true \/ e' = ValueError \/
   isinstance e' Exception = false).
Proof.
  simpl. destruct (isinstance e FileNotFoundError) eqn:E1.
  - intros [= <- <-]. auto.
  - destruct (isinstance e Exception) eqn:E2; intros [= <- <-]; auto.
Qed.

Lemma open_r_steps (path : string) (w : world) :
  misc.open_r path w =
    if os.isdir path w then (Raise OSError, w)
    else match files w !! path with
         | Some fl =>
             if String.eqb path "" then (Raise FileNotFoundError, w)
             else if readable fl then (Ok (content fl), w)
             else (Raise PermissionError, w)
         | None => (Raise FileNotFoundError, w)
         end.
Proof.
  unfold misc.open_r, os.isfile.
  destruct (os.isdir path w); [reflexivity|].
  destruct (String.eqb path ""); simpl.
  - destruct (files w !! path); reflexivity.
  - destruct (files w !! path) as [fl|].
    + rewrite bool_decide_eq_true_2 by eauto. reflexivity.
    + rewrite bool_decide_eq_false_2 by (intros [? ?]; discriminate).
      reflexivity.
Qed.

Section fit_facts.

Variables ndarray fitter medium : Type.
Variable np_array : pyval -> result ndarray.
Variable scale : ndarray -> Q -> result ndarray.
Variable FastDispersionFitter :
  ndarray -> ndarray -> ndarray -> Q * Q -> result fitter.
Variable run_fitter : fitter -> result (medium * Q).
Variable fit : fitter -> result (medium * Q).
Variable plot : fitter -> medium -> result unit.
Variable to_file : medium -> string -> M unit.

Variables filename output_file n_name k_name material_name : string.
Variable wav_range : Q * Q.
Variable web_service : bool.

Local Abbreviation run :=
  (materials.fit_pole_residue_material ndarray fitter medium np_array scale
     FastDispersionFitter run_fitter fit plot to_file
     filename output_file n_name k_name material_name wav_range web_service).

Local Abbreviation body :=
  (materials.fit_body ndarray fitter medium np_array scale
     FastDispersionFitter run_fitter fit plot to_file
     filename output_file n_name k_name wav_range web_service).

Lemma fit_error_kinds (w w' : world) (e : exn) :
  run w = (Raise e, w') ->
  isinstance e FileNotFoundError = true \/ e = ValueError \/
  isinstance e Exception = false.
Proof.
  unfold materials.fit_pole_residue_material, try_except.
  destruct (body w) as [[[]|e0] w1]; [discriminate|].
  intros H. apply handle_kinds in H as [_ H]. exact H.
Qed.

Lemma fit_missing_file (w : world) :
  os.exists_ filename w = false ->
  run w = (Raise FileNotFoundError, w).
Proof.
  intros Hex. unfold os.exists_ in Hex. apply orb_false_iff in Hex as [Hf Hd].
  unfold materials.fit_pole_residue_material, try_except, materials.fit_body.
  unfold mbind at 1. unfold misc.open_r. rewrite Hd, Hf. reflexivity.
Qed.

Lemma fit_unusable_file (w : world) (fl : file) :
  os.isdir filename w = false -> filename <> "" ->
  files w !! filename = Some fl ->
  (readable fl = false \/
   (forall members, content fl <> JsonDoc members) \/
   exists members, content fl = JsonDoc members /\
                   members !! "wavelength(m)" = None) ->
  run w = (Raise ValueError, w).
Proof.
  intros Hd Hname Hfl Hbad. apply String.eqb_neq in Hname.
  unfold materials.fit_pole_residue_material, try_except, materials.fit_body.
  unfold mbind at 1. rewrite open_r_steps, Hd, Hfl, Hname.
  destruct (readable fl) eqn:Hr; [|reflexivity].
  destruct Hbad as [Hbad|[Hbad|(members & Hc & Hcol)]]; [discriminate| |].
  - unfold mbind at 1. unfold lift at 1.
    destruct (content fl) as [raw|members|layout|]; try reflexivity.
    destruct (Hbad members). reflexivity.
  - rewrite Hc. unfold mbind at 1. unfold lift at 1. cbn [misc.json_load].
    unfold mbind at 1. unfold lift at 1. unfold dict_getitem.
    rewrite lookup_fmap, Hcol. reflexivity.
Qed.

End fit_facts.

(** X20: [fit_pole_residue_material] lets only two kinds of Exception
    out: FileNotFoundError, raised as it is, and ValueError, which stands
    for every other one.  A data file that does not exist gives
    FileNotFoundError; one that cannot be read, holds no JSON document or
    lacks the column [wavelength(m)] gives ValueError, and nothing is
    written.  [load_pole_material] reads [filename + '.json'] and passes
    on whatever the loader does. *)
Theorem material_fit_reports_two_kinds_of_error
    (ndarray fitter medium : Type)
    (np_array : pyval -> result ndarray)
    (scale : ndarray -> Q -> result ndarray)
    (FastDispersionFitter :
       ndarray -> ndarray -> ndarray -> Q * Q -> result fitter)
    (run_fitter fit : fitter -> result (medium * Q))
    (plot : fitter -> medium -> result unit)
    (to_file : medium -> string -> M unit)
    (PoleResidue_from_file : string -> M medium)
    (filename output_file n_name k_name material_name : string)
    (wav_range : Q * Q) (web_service : bool) (w : world) :
  let run := materials.fit_pole_residue_material ndarray fitter medium
               np_array scale FastDispersionFitter run_fitter fit plot to_file
               filename output_file n_name k_name material_name wav_range
               web_service in
  (forall e w', run w = (Raise e, w') ->
     isinstance e FileNotFoundError = true \/ e = ValueError \/
     isinstance e Exception = false) /\
  (os.exists_ filename w = false -> run w = (Raise FileNotFoundError, w)) /\
  (forall fl,
     os.isdir filename w = false -> filename <> "" ->
     files w !! filename = Some fl ->
     (readable fl = false \/
      (forall members, content fl <> JsonDoc members) \/
      exists members, content fl = JsonDoc members /\
                      members !! "wavelength(m)" = None) ->
     run w = (Raise ValueError, w)) /\
  materials.load_pole_material medium PoleResidue_from_file filename w
    = PoleResidue_from_file (filename ++ ".json") w.
Proof.
  cbv zeta. split; [|split; [|split]].
  - intros e w'. apply fit_error_kinds.
  - apply fit_missing_file.
  - intros fl. apply fit_unusable_file.
  - unfold materials.load_pole_material, try_except.
    destruct (PoleResidue_from_file (filename ++ ".json") w) as [[m|e] w1];
      [reflexivity|].
    simpl. destruct (isinstance e FileNotFoundError); [reflexivity|].
    destruct (isinstance e Exception); reflexivity.
Qed.

(** ** Paths with a directory part *)

Lemma cut_after_last_sep_head (pre s : string) :
  fst (os.cut_after_last_sep s) <> "" ->
  fst (os.cut_after_last_sep (pre ++ s)) <> "".
Proof.
  intros Hs. induction pre as [|c pre IH]; [exact Hs|].
  simpl. destruct (os.cut_after_last_sep (pre ++ s)) as [h t]. simpl in IH.
  apply String.eqb_neq in IH. rewrite IH. simpl. discriminate.
Qed.

Lemma rstrip_sep_empty (s : string) :
  os.rstrip_sep s = "" -> os.all_sep s = true.
Proof.
  induction s as [|c s IH]; [reflexivity|]. simpl.
  destruct (String.eqb (os.rstrip_sep s) "") eqn:E; simpl.
  - apply String.eqb_eq in E. destruct (Ascii.eqb c os.sep); [|discriminate].
    intros _. simpl. exact (IH E).
  - discriminate.
Qed.

Lemma dirname_nonempty (s : string) :
  fst (os.cut_after_last_sep s) <> "" -> os.dirname s <> "".
Proof.
  intros Hs. unfold os.dirname, os.split.
  destruct (os.cut_after_last_sep s) as [h t]. simpl in *.
  apply String.eqb_neq in Hs as Hb. rewrite Hb. simpl.
  destruct (os.all_sep h) eqn:E; simpl; [exact Hs|].
  intros H. apply rstrip_sep_empty in H. congruence.
Qed.

Lemma append_assoc (s t u : string) : (s ++ t) ++ u = s ++ (t ++ u).
Proof.
  induction s as [|c s IH]; [reflexivity|].
  change (String c ((s ++ t) ++ u) = String c (s ++ (t ++ u))).
  rewrite IH. reflexivity.
Qed.

Lemma cut_after_sep_head (rest : string) :
  fst (os.cut_after_last_sep (String os.sep rest)) <> "".
Proof.
  cbn [os.cut_after_last_sep]. destruct (os.cut_after_last_sep rest) as [h t].
  destruct (negb (String.eqb h "")); [discriminate|].
  rewrite Ascii.eqb_refl. discriminate.
Qed.

Lemma join2_suffix (path b : string) :
  exists pre, os.join2 path b = pre ++ b.
Proof.
  unfold os.join2. destruct (String.prefix "/" b); [by exists ""|].
  destruct (_ || _); [by exists path|].
  exists (path ++ "/"). rewrite append_assoc. reflexivity.
Qed.

Lemma join_suffix (a b : string) (p : list string) :
  exists pre, os.join a (p ++ [b]) = pre ++ b.
Proof.
  unfold os.join. rewrite fold_left_app. simpl. apply join2_suffix.
Qed.

Lemma output_dir_has_directory (current_directory suffix : string) :
  os.dirname (directional_coupler.output_dir current_directory ++ suffix) <> "".
Proof.
  destruct (join_suffix current_directory
              "sweep_resolution/res6_span20_step5"
              ["projects"; "FDTD_solvers"; "coupler"; "Data"; "lumerical"])
    as [pre Hpre].
  unfold directional_coupler.output_dir.
  change ["projects"; "FDTD_solvers"; "coupler"; "Data"; "lumerical";
          "sweep_resolution/res6_span20_step5"]
    with (["projects"; "FDTD_solvers"; "coupler"; "Data"; "lumerical"]
          ++ ["sweep_resolution/res6_span20_step5"])%list.
  rewrite Hpre.
  change "sweep_resolution/res6_span20_step5"
    with ("sweep_resolution" ++ String os.sep "res6_span20_step5").
  rewrite <- append_assoc, append_assoc.
  apply dirname_nonempty, cut_after_last_sep_head.
  change (String os.sep "res6_span20_step5" ++ suffix)
    with (String os.sep ("res6_span20_step5" ++ suffix)).
  apply cut_after_sep_head.
Qed.

(** X21: the coupler script always names its output with a directory
    part, so the sidecar never has the bare name that [write_to_json]
    rejects; [main] ends as the Lumerical backend ends on the script's
    parameters (an exception is raised again unchanged, a result is only
    tested for truth), and whatever config.json holds, the resolved
    descriptor has the run flag 1, mode index 0 and resolution 6 of the
    script. *)
Theorem coupler_script_runs_the_lumerical_backend
    (current_directory now now' : string)
    (fdtd_from_gds : gmap string pyval -> M pyval) (w : world) :
  let p := directional_coupler.p current_directory now in
  let file_name := directional_coupler.output_dir current_directory in
  os.dirname (file_name ++ ".json") <> "" /\
  directional_coupler.main current_directory now now' fdtd_from_gds w
    = match lumerical.simulate_predefined_gds now' fdtd_from_gds p w with
      | (Ok results, w') =>
          (match truthy results with
           | Ok _ => Ok tt
           | Raise e => Raise e
           end, w')
      | (Raise e, w') => (Raise e, w')
      end /\
  (forall resolved w1,
     lumerical.resolve now' p w = (Ok resolved, w1) ->
     resolved !! "flag_run_simulation" = Some (PInt 1) /\
     resolved !! "mode_idx" = Some (PInt 0) /\
     resolved !! "resolution" = Some (PInt 6) /\
     resolved !! "file_name" = Some (PStr file_name) /\
     resolved !! "gds_file" = Some (PStr (file_name ++ ".gds"))).
Proof.
  cbv zeta. split; [apply output_dir_has_directory|]. split.
  - unfold directional_coupler.main. rewrite try_except_reraise.
    unfold mbind at 1.
    destruct (lumerical.simulate_predefined_gds _ _ _ _)
      as [[results|e] w']; [|reflexivity].
    unfold mbind, lift. destruct (truthy results); reflexivity.
  - intros resolved w1 Hres. unfold lumerical.resolve in Hres.
    destruct (resolve_inv _ _ _ _ _ Hres)
      as (pc & fn & path & _ & Hfn & _ & _ & _ & ->).
    assert (forall k v,
              directional_coupler.p current_directory now !! k = Some v ->
              k <> "gds_file" ->
              (<["gds_file" := PStr (fn ++ ".gds")]>
                 (directional_coupler.p current_directory now ∪ pc)) !! k
              = Some v) as Hwin.
    { intros k v Hk Hne. rewrite lookup_insert_ne by done.
      by apply lookup_union_Some_l. }
    assert (fn = directional_coupler.output_dir current_directory) as ->.
    { erewrite lookup_union_Some_l in Hfn by reflexivity.
      injection Hfn as <-. reflexivity. }
    repeat split; try (apply Hwin; [reflexivity | discriminate]).
    apply lookup_insert_eq.
Qed.



(** X23: the validator only accumulates: after [run_all_checks] the errors
    and warnings it held before are still there, in front of the new ones;
    the report counts and lists all of them, and [passed] is true exactly
    when the validator holds no error at all, so that a validator that once
    recorded an error never passes again. *)
Theorem validator_only_accumulates
    (w : world) (rglob : string -> string -> result (list string))
    (read_text : string -> result string)
    (import_core_modules : validate_codebase.import_outcome)
    (describe : exn -> string)
    (self : validate_codebase.CodebaseValidator) :
  let run := validate_codebase.run_all_checks w rglob read_text
               import_core_modules describe self in
  props.extends self (snd run) /\
  (forall results, fst run = Ok results ->
     (validate_codebase.passed results = true
      <-> validate_codebase.errors (snd run) = []) /\
     validate_codebase.report_errors results
       = validate_codebase.errors (snd run) /\
     validate_codebase.report_warnings results
       = validate_codebase.warnings (snd run) /\
     validate_codebase.total_errors results
       = length (validate_codebase.errors (snd run)) /\
     validate_codebase.total_warnings results
       = length (validate_codebase.warnings (snd run)) /\
     (validate_codebase.errors self <> [] ->
      validate_codebase.passed results = false)).
Proof.
  cbv zeta.
  destruct (run_all_checks_spec w rglob read_text import_core_modules describe
              self) as [Hext Hout].
  split; [exact Hext|]. intros results Hres. rewrite Hres in Hout.
  destruct Hout as (Hp & He & Hw & Hn & Hm).
  split; [rewrite Hp; apply no_errors_true|].
  repeat split; try assumption.
  intros Hold. rewrite Hp. apply not_true_is_false. intros Hnone.
  apply no_errors_true in Hnone. destruct Hext as (_ & [k Hk] & _).
  rewrite Hnone in Hk. symmetry in Hk. apply app_eq_nil in Hk as [Hk _].
  exact (Hold Hk).
Qed.

(** X24: the checks that can only warn answer for the checks before
    them: [validate_device_scripts], [check_for_debug_code] and
    [validate_gds_files] add no error, and the boolean they return says
    whether the validator held no error when they were called, whatever
    they found themselves. *)
Theorem warning_checks_report_earlier_errors
    (w : world) (rglob : string -> string -> result (list string))
    (read_text : string -> result string) (describe : exn -> string)
    (self : validate_codebase.CodebaseValidator) :
  (fst (validate_codebase.validate_device_scripts w self)
     = Ok (validate_codebase.no_errors self) /\
   props.only_warns self
     (snd (validate_codebase.validate_device_scripts w self))) /\
  ((forall b,
      fst (validate_codebase.check_for_debug_code rglob read_text describe self)
        = Ok b -> b = validate_codebase.no_errors self) /\
   props.only_warns self
     (snd (validate_codebase.check_for_debug_code rglob read_text describe
             self))) /\
  ((forall b,
      fst (validate_codebase.validate_gds_files w rglob self) = Ok b ->
      b = validate_codebase.no_errors self) /\
   props.only_warns self
     (snd (validate_codebase.validate_gds_files w rglob self))).
Proof.
  split; [apply validate_device_scripts_spec|]. split.
  - pose proof (check_for_debug_code_only_warns rglob read_text describe self)
      as Hw.
    split; [|exact Hw]. intros b Hb.
    rewrite <- (only_warns_no_errors _ _ Hw).
    unfold validate_codebase.check_for_debug_code in *.
    unfold validate_codebase.vbind at 1 in Hb.
    unfold validate_codebase.vbind at 1.
    destruct (rglob _ _) as [python_files|e]; [|discriminate].
    exact (ends_with_return_no_errors _ _ _ Hb).
  - pose proof (validate_gds_files_only_warns w rglob self) as Hw.
    split; [|exact Hw]. intros b Hb.
    rewrite <- (only_warns_no_errors _ _ Hw).
    exact (ends_with_return_no_errors _ _ _ Hb).
Qed.

(** X25: a tree without config.json is charged twice for it: the report
    of [run_all_checks] on a fresh validator lists both
    [Missing required file: config.json], from the file structure check,
    and [config.json not found], from the configuration check, so it counts
    at least two errors and does not pass. *)
Theorem missing_config_is_reported_twice
    (w : world) (rglob : string -> string -> result (list string))
    (read_text : string -> result string)
    (import_core_modules : validate_codebase.import_outcome)
    (describe : exn -> string)
    (root : string) (results : validate_codebase.report) :
  os.exists_ (validate_codebase.joinpath root "config.json") w = false ->
  fst (validate_codebase.run_all_checks w rglob read_text import_core_modules
         describe (validate_codebase.init root)) = Ok results ->
  "Missing required file: config.json"
    ∈ validate_codebase.report_errors results /\
  "config.json not found" ∈ validate_codebase.report_errors results /\
  (2 <= validate_codebase.total_errors results)%nat /\
  validate_codebase.passed results = false.
Proof.
  intros Hex Hres.
  destruct (run_all_checks_missing_config w rglob read_text
              import_core_modules describe root results Hex Hres)
    as [H1 H2].
  destruct (run_all_checks_spec w rglob read_text import_core_modules describe
              (validate_codebase.init root)) as [_ Hout].
  rewrite Hres in Hout. destruct Hout as (Hp & He & _ & Hn & _).
  assert (2 <= length (validate_codebase.report_errors results))%nat as Hlen.
  { eapply two_elements_length; [|exact H1|exact H2]. discriminate. }
  split; [exact H1|]. split; [exact H2|]. rewrite Hn, <- He.
  split; [exact Hlen|]. rewrite Hp. unfold validate_codebase.no_errors.
  rewrite <- He. destruct (validate_codebase.report_errors results);
    [simpl in Hlen; lia | reflexivity].
Qed.

(** X25 (witness): the project directory of the simulations, which is
    no checkout of the repository and has no config.json. *)
Lemma project_without_config_is_charged_twice :
  exists results,
    fst (validate_codebase.run_all_checks samples.project
           samples.repository_rglob samples.repository_read_text
           validate_codebase.Imported samples.describe
           (validate_codebase.init ".")) = Ok results /\
    "Missing required file: config.json"
      ∈ validate_codebase.report_errors results /\
    "config.json not found" ∈ validate_codebase.report_errors results /\
    (2 <= validate_codebase.total_errors results)%nat /\
    validate_codebase.passed results = false.
Proof.
  pose (R := fst (validate_codebase.run_all_checks samples.project
                    samples.repository_rglob samples.repository_read_text
                    validate_codebase.Imported samples.describe
                    (validate_codebase.init "."))).
  assert (match R with Ok _ => true | Raise _ => false end = true) as HR
    by (vm_compute; reflexivity).
  destruct R as [results|e] eqn:ER; [|discriminate HR].
  exists results. split; [exact ER|].
  apply (missing_config_is_reported_twice samples.project
           samples.repository_rglob samples.repository_read_text
           validate_codebase.Imported samples.describe "." results).
  - vm_compute. reflexivity.
  - exact ER.
Defined.

(** X26: warnings never fail the validation: on a tree that has the five
    required files and four required directories and a config.json that
    parses, with the core modules importable, [run_all_checks] on a fresh
    validator passes with no error, whatever the warnings (keys missing in
    config.json, device scripts missing, debug code found, files that
    cannot be read, no GDS file); started in that tree, [main] ends with
    exit status 0. *)
Theorem warnings_never_fail_validation
    (w : world) (rglob : string -> string -> result (list string))
    (read_text : string -> result string)
    (import_core_modules : validate_codebase.import_outcome)
    (describe : exn -> string)
    (root : string) (members : gmap string json) :
  Forall (fun file =>
            os.exists_ (validate_codebase.joinpath root file) w = true)
         validate_codebase.required_files ->
  Forall (fun d => os.isdir (validate_codebase.joinpath root d) w = true)
         validate_codebase.required_dirs ->
  fst (misc.open_r (validate_codebase.joinpath root "config.json") w)
    = Ok (JsonDoc members) ->
  import_core_modules = validate_codebase.Imported ->
  (forall dir pattern e, rglob dir pattern <> Raise e) ->
  (forall path e, read_text path = Raise e -> isinstance e Exception = true) ->
  (exists results self',
     validate_codebase.run_all_checks w rglob read_text import_core_modules
       describe (validate_codebase.init root) = (Ok results, self') /\
     validate_codebase.passed results = true /\
     validate_codebase.report_errors results = [] /\
     validate_codebase.total_errors results = 0%nat /\
     validate_codebase.report_warnings results
       = validate_codebase.warnings self') /\
  (root = "." ->
   validate_codebase.main w rglob read_text import_core_modules describe
     = Ok 0%Z).
Proof.
  intros Hfiles Hdirs Hconfig Himport Hrglob Hread.
  pose proof (run_all_checks_quiet w rglob read_text import_core_modules
                describe root members Hfiles Hdirs Hconfig Himport Hrglob Hread)
    as Hrun.
  split; [exact Hrun|]. intros ->.
  destruct Hrun as (results & self' & Hrun & Hp & _).
  unfold validate_codebase.main. rewrite Hrun. simpl. rewrite Hp. reflexivity.
Qed.

(** X26 (witness): the checkout with all required files and directories,
    one of eight keys in config.json, debug code in one Python file and no
    GDS directory: warnings, and a pass. *)
Lemma repository_with_warnings_passes :
  (exists results self',
     validate_codebase.run_all_checks samples.repository
       samples.repository_rglob samples.repository_read_text
       validate_codebase.Imported samples.describe
       (validate_codebase.init ".") = (Ok results, self') /\
     validate_codebase.passed results = true /\
     validate_codebase.report_errors results = [] /\
     validate_codebase.total_errors results = 0%nat /\
     validate_codebase.report_warnings results
       = validate_codebase.warnings self') /\
  validate_codebase.main samples.repository samples.repository_rglob
    samples.repository_read_text validate_codebase.Imported samples.describe
    = Ok 0%Z.
Proof.
  destruct (warnings_never_fail_validation samples.repository
              samples.repository_rglob samples.repository_read_text
              validate_codebase.Imported samples.describe "."
              {[ "wavelength" := JFloat 1.55 ]}) as [Hrun Hmain].
  - repeat constructor.
  - repeat constructor.
  - reflexivity.
  - reflexivity.
  - intros dir pattern e. unfold samples.repository_rglob.
    destruct (String.eqb pattern "*.py"); discriminate.
  - intros path e. unfold samples.repository_read_text.
    destruct (String.eqb path "helper_functions/tool.py"); [discriminate|].
    intros [= <-]. reflexivity.
  - split; [exact Hrun | exact (Hmain eq_refl)].
Defined.

(** ** A descriptor key that is a module-level name *)

Section idle_facts.

Import props.

Lemma engine_idle_mbind {A B} (c : M A) (k : A -> M B) :
  engine_idle c -> (forall a, engine_idle (k a)) -> engine_idle (mbind c k).
Proof.
  intros Hc Hk w. unfold mbind. specialize (Hc w).
  destruct (c w) as [[a|e] w1]; simpl in Hc |- *; [|exact Hc].
  rewrite (Hk a w1). exact Hc.
Qed.

Lemma stops_mbind_l {A B} (c : M A) (k : A -> M B) :
  stops c -> stops (mbind c k).
Proof.
  intros Hc w. unfold mbind. destruct (Hc w) as [[e He] Hw].
  destruct (c w) as [[a|e'] w1]; simpl in He, Hw |- *; [discriminate|].
  split; [eauto | exact Hw].
Qed.

Lemma stops_mbind_r {A B} (c : M A) (k : A -> M B) :
  engine_idle c -> (forall a, stops (k a)) -> stops (mbind c k).
Proof.
  intros Hc Hk w. unfold mbind. specialize (Hc w).
  destruct (c w) as [[a|e] w1]; simpl in Hc |- *.
  - destruct (Hk a w1) as [He Hw]. split; [exact He|]. rewrite Hw. exact Hc.
  - split; [eauto | exact Hc].
Qed.

Lemma stops_engine_idle {A} (c : M A) : stops c -> engine_idle c.
Proof. intros Hc w. apply Hc. Qed.

Lemma engine_idle_same_world {A} (c : M A) :
  (forall w, snd (c w) = w) -> engine_idle c.
Proof. intros H w. rewrite H. reflexivity. Qed.

Lemma stops_mraise {A} (e : exn) : stops (@mraise A e).
Proof. intros w. split; [eexists|]; reflexivity. Qed.

Lemma engine_idle_lift {A} (r : result A) : engine_idle (lift r).
Proof. intros w. reflexivity. Qed.

Lemma engine_idle_mret {A} (a : A) : engine_idle (mret a).
Proof. intros w. reflexivity. Qed.

Variable p : gmap string pyval.

Lemma engine_idle_attribute_of (name : string) :
  engine_idle (simulate_device.attribute_of p name).
Proof.
  intros w. unfold simulate_device.attribute_of.
  destruct (p !! name); reflexivity.
Qed.

Lemma engine_idle_callable (name : string) :
  engine_idle (simulate_device.callable p name).
Proof.
  intros w. unfold simulate_device.callable.
  destruct (p !! name); reflexivity.
Qed.

Lemma stops_attribute_of (name : string) :
  is_Some (p !! name) -> stops (simulate_device.attribute_of p name).
Proof.
  intros [v Hv] w. unfold simulate_device.attribute_of. rewrite Hv.
  apply stops_mraise.
Qed.

Lemma stops_callable (name : string) :
  is_Some (p !! name) -> stops (simulate_device.callable p name).
Proof.
  intros [v Hv] w. unfold simulate_device.callable. rewrite Hv.
  apply stops_mraise.
Qed.

(** A handler raises again whatever reaches it. *)
Lemma stops_try_except_by_name {A} (body : M A)
    (clauses : list (exn * (exn -> M A))) :
  stops body ->
  Forall (fun clause => forall e, stops (snd clause e)) clauses ->
  stops (simulate_device.try_except_by_name p body clauses).
Proof.
  intros Hbody Hclauses w. unfold simulate_device.try_except_by_name.
  destruct (Hbody w) as [[e He] Hw].
  destruct (body w) as [[a|e'] w1]; simpl in He, Hw; [discriminate|].
  clear He. revert Hw. generalize w1. clear w1.
  induction Hclauses as [|[cls h] rest Hh _ IH]; intros w1 Hw.
  - split; [eexists; reflexivity | exact Hw].
  - cbn [simulate_device.handle_by_name].
    destruct (simulate_device.except_clause p cls).
    + destruct (isinstance e' cls); [|exact (IH w1 Hw)].
      cbn [snd] in Hh. destruct (Hh e' w1) as [He2 Hw2].
      split; [exact He2|]. rewrite Hw2. exact Hw.
    + exact (IH w1 Hw).
    + split; [eexists; reflexivity | exact Hw].
Qed.

Lemma engine_idle_try_except_by_name {A} (body : M A)
    (clauses : list (exn * (exn -> M A))) :
  engine_idle body ->
  Forall (fun clause => forall e, engine_idle (snd clause e)) clauses ->
  engine_idle (simulate_device.try_except_by_name p body clauses).
Proof.
  intros Hbody Hclauses w. unfold simulate_device.try_except_by_name.
  specialize (Hbody w).
  destruct (body w) as [[a|e'] w1]; simpl in Hbody; [exact Hbody|].
  revert Hbody. generalize w1. clear w1.
  induction Hclauses as [|[cls h] rest Hh _ IH]; intros w1 Hw.
  - exact Hw.
  - cbn [simulate_device.handle_by_name].
    destruct (simulate_device.except_clause p cls).
    + destruct (isinstance e' cls); [|exact (IH w1 Hw)].
      cbn [snd] in Hh. rewrite (Hh e' w1). exact Hw.
    + exact (IH w1 Hw).
    + exact Hw.
Qed.

Lemma engine_idle_write_to_json (d : gmap string pyval) (name : string) :
  engine_idle (misc.write_to_json d name).
Proof.
  intros w. destruct (write_to_json_world d name w) as (_ & _ & _ & Hev).
  unfold engine_calls. rewrite Hev. reflexivity.
Qed.

Lemma engine_idle_import_gds (src : string) :
  engine_idle (simulate_device.import_gds src).
Proof. apply engine_idle_same_world, import_gds_world. Qed.

Lemma engine_idle_write_gds (device dst : string) :
  engine_idle (simulate_device.write_gds device dst).
Proof. intros w. reflexivity. Qed.

Lemma engine_idle_confirm : engine_idle (simulate_device.confirm p).
Proof.
  intros w. unfold simulate_device.confirm.
  destruct (simulate_device.while_True p (stdin w)) as [[r rest] n].
  cbn [snd]. rewrite engine_calls_prompted. reflexivity.
Qed.

(** The sidecar step and the copy step never call the engine. *)
Lemma engine_idle_sidecar (file_name : pyval) :
  engine_idle
    (simulate_device.try_except_by_name p
       (json_name <- lift (add_str file_name ".json") ;;
        simulate_device.callable p "write_to_json" ;;;
        misc.write_to_json p json_name)%M
       [(Exception, fun e => (simulate_device.log p ;;; mraise e)%M)]).
Proof.
  apply engine_idle_try_except_by_name.
  - apply engine_idle_mbind; [apply engine_idle_lift|]. intros json_name.
    apply engine_idle_mbind; [apply engine_idle_callable|]. intros _.
    apply engine_idle_write_to_json.
  - constructor; [|constructor]. intros e. cbn [snd].
    apply engine_idle_mbind; [apply engine_idle_attribute_of|]. intros _.
    apply stops_engine_idle, stops_mraise.
Qed.

Lemma engine_idle_copy (predefined_gds gds_file : pyval) :
  engine_idle
    (simulate_device.try_except_by_name p
       (simulate_device.attribute_of p "gf" ;;;
        src <- lift (as_str predefined_gds) ;;
        device <- simulate_device.import_gds src ;;
        dst <- lift (as_str gds_file) ;;
        simulate_device.write_gds device dst ;;;
        simulate_device.log p)%M
       [(Exception, fun _ => (simulate_device.log p ;;;
                              simulate_device.callable p "RuntimeError" ;;;
                              mraise RuntimeError)%M)]).
Proof.
  apply engine_idle_try_except_by_name.
  - apply engine_idle_mbind; [apply engine_idle_attribute_of|]. intros _.
    apply engine_idle_mbind; [apply engine_idle_lift|]. intros src.
    apply engine_idle_mbind; [apply engine_idle_import_gds|]. intros device.
    apply engine_idle_mbind; [apply engine_idle_lift|]. intros dst.
    apply engine_idle_mbind; [apply engine_idle_write_gds|]. intros _.
    apply engine_idle_attribute_of.
  - constructor; [|constructor]. intros e. cbn [snd].
    apply engine_idle_mbind; [apply engine_idle_attribute_of|]. intros _.
    apply engine_idle_mbind; [apply engine_idle_callable|]. intros _.
    apply stops_engine_idle, stops_mraise.
Qed.

Lemma engine_idle_artifact_gate (simulation_file : string) :
  engine_idle (simulate_device.artifact_gate p simulation_file).
Proof.
  unfold simulate_device.artifact_gate.
  apply engine_idle_mbind; [apply engine_idle_attribute_of|]. intros _.
  apply engine_idle_mbind; [intros w; reflexivity|]. intros [|].
  - apply engine_idle_mbind; [|intros _; apply engine_idle_confirm].
    unfold simulate_device.warning.
    apply engine_idle_mbind; [apply engine_idle_attribute_of|]. intros _.
    intros w. reflexivity.
  - apply engine_idle_mbind; [apply engine_idle_attribute_of|]. intros _.
    apply engine_idle_mret.
Qed.

(** The handler of the copy step always raises. *)
Lemma stops_copy_handler (e : exn) :
  stops (simulate_device.log p ;;;
         simulate_device.callable p "RuntimeError" ;;;
         mraise (A:=unit) RuntimeError)%M.
Proof.
  apply stops_mbind_r; [apply engine_idle_attribute_of|]. intros _.
  apply stops_mbind_r; [apply engine_idle_callable|]. intros _.
  apply stops_mraise.
Qed.

Lemma stops_sidecar_handler (e : exn) :
  stops (simulate_device.log p ;;; mraise (A:=unit) e)%M.
Proof.
  apply stops_mbind_r; [apply engine_idle_attribute_of|]. intros _.
  apply stops_mraise.
Qed.

Section run.

Variable artifact_suffix : string.
Variable fdtd_from_gds : gmap string pyval -> M pyval.

Local Abbreviation after_globals :=
  (simulate_device.after_globals artifact_suffix fdtd_from_gds p).

(** With [write_to_json], [gf], [logger] or [os] rebound, the lines after
    the loop end in an exception before the engine is reached. *)
Lemma stops_after_globals :
  is_Some (p !! "write_to_json") \/ is_Some (p !! "gf") \/
  is_Some (p !! "logger") \/ is_Some (p !! "os") ->
  stops after_globals.
Proof.
  intros Hname. unfold simulate_device.after_globals.
  apply stops_mbind_r; [apply engine_idle_lift|]. intros file_name.
  apply stops_mbind_r; [apply engine_idle_lift|]. intros predefined_gds.
  apply stops_mbind_r; [apply engine_idle_lift|]. intros gds_file.
  destruct Hname as [Hname|[Hname|[Hname|Hname]]].
  - apply stops_mbind_l. apply stops_try_except_by_name.
    + apply stops_mbind_r; [apply engine_idle_lift|]. intros json_name.
      apply stops_mbind_l, stops_callable, Hname.
    + constructor; [|constructor]. intros e. apply stops_sidecar_handler.
  - apply stops_mbind_r; [apply engine_idle_sidecar|]. intros _.
    apply stops_mbind_l. apply stops_try_except_by_name.
    + apply stops_mbind_l, stops_attribute_of, Hname.
    + constructor; [|constructor]. intros e. apply stops_copy_handler, e.
  - apply stops_mbind_r; [apply engine_idle_sidecar|]. intros _.
    apply stops_mbind_l. apply stops_try_except_by_name.
    + apply stops_mbind_r; [apply engine_idle_attribute_of|]. intros _.
      apply stops_mbind_r; [apply engine_idle_lift|]. intros src.
      apply stops_mbind_r; [apply engine_idle_import_gds|]. intros device.
      apply stops_mbind_r; [apply engine_idle_lift|]. intros dst.
      apply stops_mbind_r; [apply engine_idle_write_gds|]. intros _.
      apply stops_attribute_of, Hname.
    + constructor; [|constructor]. intros e. apply stops_copy_handler, e.
  - apply stops_mbind_r; [apply engine_idle_sidecar|]. intros _.
    apply stops_mbind_r; [apply engine_idle_copy|]. intros _.
    apply stops_mbind_r; [apply engine_idle_lift|]. intros simulation_file.
    apply stops_mbind_l. unfold simulate_device.artifact_gate.
    apply stops_mbind_l, stops_attribute_of, Hname.
Qed.

(** With [fdtd_from_gds] rebound the engine cannot be called. *)
Lemma engine_idle_after_globals :
  is_Some (p !! "fdtd_from_gds") -> engine_idle after_globals.
Proof.
  intros Hname.
  assert (stops (simulate_device.call_engine fdtd_from_gds p)) as Hcall.
  { unfold simulate_device.call_engine.
    apply stops_mbind_l, stops_callable, Hname. }
  unfold simulate_device.after_globals.
  apply engine_idle_mbind; [apply engine_idle_lift|]. intros file_name.
  apply engine_idle_mbind; [apply engine_idle_lift|]. intros predefined_gds.
  apply engine_idle_mbind; [apply engine_idle_lift|]. intros gds_file.
  apply engine_idle_mbind; [apply engine_idle_sidecar|]. intros _.
  apply engine_idle_mbind; [apply engine_idle_copy|]. intros _.
  apply engine_idle_mbind; [apply engine_idle_lift|]. intros simulation_file.
  apply engine_idle_mbind; [apply engine_idle_artifact_gate|]. intros [| |].
  - apply stops_engine_idle, Hcall.
  - apply engine_idle_try_except_by_name; [apply stops_engine_idle, Hcall|].
    constructor; [|constructor]. intros e. cbn [snd].
    apply engine_idle_mbind; [apply engine_idle_attribute_of|]. intros _.
    apply engine_idle_mret.
  - apply engine_idle_mret.
Qed.

End run.

End idle_facts.

(** X27: a parameter named like a module-level name disables what the
    name stood for.  When the resolved descriptor has a key
    [write_to_json], [gf], [logger] or [os], every call ends in an
    exception before the engine is reached; when it has a key
    [fdtd_from_gds], the engine is never called, whatever the answer at
    the prompt. *)
Theorem rebound_name_keeps_the_engine_idle
    (defaults : gmap string pyval) (artifact_suffix : string)
    (fdtd_from_gds : gmap string pyval -> M pyval)
    (parameters p : gmap string pyval) (w w1 : world) :
  simulate_device.resolve defaults parameters w = (Ok p, w1) ->
  let run := simulate_device.simulate_predefined_gds defaults artifact_suffix
               fdtd_from_gds parameters w in
  (is_Some (p !! "write_to_json") \/ is_Some (p !! "gf") \/
   is_Some (p !! "logger") \/ is_Some (p !! "os") ->
   (exists e, fst run = Raise e) /\
   props.engine_calls (snd run) = props.engine_calls w) /\
  (is_Some (p !! "fdtd_from_gds") ->
   props.engine_calls (snd run) = props.engine_calls w).
Proof.
  intros Hres run. subst run.
  unfold simulate_device.simulate_predefined_gds.
  rewrite (mbind_Ok _ _ _ _ _ Hres).
  pose proof (resolve_keeps_world defaults parameters w) as Hr.
  rewrite Hres in Hr. cbv zeta in Hr. simpl in Hr.
  destruct Hr as (_ & _ & _ & Hev).
  apply engine_calls_same_events in Hev.
  split.
  - intros Hname.
    destruct (stops_after_globals p artifact_suffix fdtd_from_gds Hname w1)
      as [He Hw].
    split; [exact He|]. rewrite Hw. exact Hev.
  - intros Hname.
    rewrite (engine_idle_after_globals p artifact_suffix fdtd_from_gds
               Hname w1).
    exact Hev.
Qed.

(** X27 (witness): a job with a parameter named [gf]: the sidecar is
    written, the copy fails on [gf.import_gds], and the call ends in
    RuntimeError. *)
Lemma job_with_gf_is_a_runtime_error :
  let run := lumerical.simulate_predefined_gds "20240101120000"
               samples.idle_engine samples.job_with_gf samples.project in
  outcome run = Some RuntimeError /\
  os.isfile "out/run.json" (snd run) = true /\
  os.isfile "out/run.gds" (snd run) = false /\
  props.engine_calls (snd run) = props.engine_calls samples.project.
Proof.
  cbv zeta.
  pose (R := simulate_device.resolve (lumerical.defaults "20240101120000")
               samples.job_with_gf samples.project).
  assert (outcome R = None) as HR by (vm_compute; reflexivity).
  apply (outcome_None ∅) in HR.
  destruct (rebound_name_keeps_the_engine_idle
              (lumerical.defaults "20240101120000") "_FDTD.fsp"
              samples.idle_engine samples.job_with_gf (returned ∅ R)
              samples.project (snd R) HR) as [Hstops _].
  destruct Hstops as [_ Hcalls].
  { right. left. vm_compute. eauto. }
  split; [vm_compute; reflexivity|].
  split; [vm_compute; reflexivity|].
  split; [vm_compute; reflexivity|].
  exact Hcalls.
Defined.

(** ** The call of the engine *)


